(** * stutter-sandbox, experiment 3: the DNS middleman and the YouTube IP blocker

    A shallow embedding of [exp3_no_youtube/src/dns_middleman.py] (the DNS
    message codec and one exchange of the UDP loop) and of
    [exp3_no_youtube/src/youtube_ip_blocker.py] (the log tailer and the
    main loop of the firewall synchronizer), and the properties of the
    specification proved or refuted over it.

    Conventions of the embedding.
    - [bytes] is [list byte]; an index or offset into a buffer is a [nat]
      where the code only meets offsets that are not negative, and
      [decode_dns_name_int] takes the offset as the [int] it is, with
      Python's reading of a negative index.
    - A Python call that can raise returns an [outcome]; a [while True] loop
      runs on fuel and [OutOfFuel] marks a loop that did not finish.
    - [str] is [string]. The ordered log is given by its text, and a place
      in it is a number of characters. The number [f.tell()] gives is a
      byte offset or a cookie of the decoder: [tell] gives it as [Offset]
      only where it is the place (ASCII text, no carriage return held
      back), and as [Opaque] elsewhere.
    - A write to the ordered log can fail: [record_event] is the call that
      completes, [record_event_call] the call with its exception.
    - Functions of the platform that are not code of this repository are
      the fields of the class [Platform]: the UTF-8 codec, the text of an
      IPv6 address and [ipaddress.ip_address].
    - The [set] objects held in the fields of [BlockerState] live in a store
      and the fields hold references, so that an alias and a copy differ. *)

From Stdlib Require Import Strings.Byte Strings.Ascii.
From stdpp Require Import base numbers list strings gmap sorting.

(** ** Part I: definitions *)

(** *** Python values and control *)

Inductive py_error : Type :=
  | IndexError
  | StructError
  | OSError
  | ValueError.

Inductive outcome (A : Type) : Type :=
  | Returned (a : A)
  | Raised (e : py_error)
  | OutOfFuel.
Arguments Returned {A} a.
Arguments Raised {A} e.
Arguments OutOfFuel {A}.

#[global] Instance outcome_ret : MRet outcome := λ A a, Returned a.
#[global] Instance outcome_bind : MBind outcome := λ A B k m,
  match m with
  | Returned a => k a
  | Raised e => Raised e
  | OutOfFuel => OutOfFuel
  end.

Definition byte_val (b : byte) : nat := Byte.to_nat b.

(** [data[i]] for a non-negative [i]. *)
Definition py_index (data : list byte) (i : nat) : outcome byte :=
  match data !! i with
  | Some b => Returned b
  | None => Raised IndexError
  end.

(** [l[lo:hi]] for non-negative bounds: a slice never raises, it clamps. *)
Definition py_slice {A} (l : list A) (lo hi : nat) : list A :=
  take (hi - lo) (drop lo l).

(** [struct.unpack("!H", bs)[0]]. *)
Definition unpack_H (bs : list byte) : outcome nat :=
  match bs with
  | [a; b] => Returned (256 * byte_val a + byte_val b)
  | _ => Raised StructError
  end.

(** [struct.unpack("!HHIH", bs)]; the 32-bit field is an [N]. *)
Definition unpack_HHIH (bs : list byte) : outcome (nat * nat * N * nat) :=
  match bs with
  | [t0; t1; c0; c1; l0; l1; l2; l3; n0; n1] =>
      Returned (256 * byte_val t0 + byte_val t1,
                256 * byte_val c0 + byte_val c1,
                (16777216 * Byte.to_N l0 + 65536 * Byte.to_N l1
                  + 256 * Byte.to_N l2 + Byte.to_N l3)%N,
                256 * byte_val n0 + byte_val n1)
  | _ => Raised StructError
  end.

(** *** Text *)

Definition code (c : ascii) : nat := nat_of_ascii c.

(** [str.isspace] on one character, which is also the class [\s] of a
    [str] pattern. *)
Definition is_space (c : ascii) : bool :=
  let n := code c in
  ((9 <=? n) && (n <=? 13)) || ((28 <=? n) && (n <=? 32))
  || (n =? 133) || (n =? 160).

Definition lower_char (c : ascii) : ascii :=
  let n := code c in
  if ((65 <=? n) && (n <=? 90))
     || ((192 <=? n) && (n <=? 222) && negb (n =? 215))
  then ascii_of_nat (n + 32) else c.

(** [s.lower()]. *)
Fixpoint py_lower (s : string) : string :=
  match s with
  | EmptyString => EmptyString
  | String c r => String (lower_char c) (py_lower r)
  end.

Fixpoint lstrip_by (p : ascii → bool) (s : string) : string :=
  match s with
  | EmptyString => EmptyString
  | String c r => if p c then lstrip_by p r else s
  end.

Fixpoint rstrip_by (p : ascii → bool) (s : string) : string :=
  match s with
  | EmptyString => EmptyString
  | String c r =>
      match rstrip_by p r with
      | EmptyString => if p c then EmptyString else String c EmptyString
      | r' => String c r'
      end
  end.

Definition strip_by (p : ascii → bool) (s : string) : string :=
  rstrip_by p (lstrip_by p s).

(** [s.strip()]. *)
Definition py_strip : string → string := strip_by is_space.

Definition is_dot (c : ascii) : bool := code c =? 46.

(** [s.strip(".")]. *)
Definition py_strip_dots : string → string := strip_by is_dot.

(** [sep.join(parts)]. *)
Fixpoint py_join (sep : string) (parts : list string) : string :=
  match parts with
  | [] => EmptyString
  | [p] => p
  | p :: rest => p +:+ sep +:+ py_join sep rest
  end.

(** [s.split(sep)] for a separator of one character. *)
Fixpoint py_split (sep : ascii) (s : string) : list string :=
  match s with
  | EmptyString => [EmptyString]
  | String c r =>
      if Ascii.eqb c sep then EmptyString :: py_split sep r
      else
        match py_split sep r with
        | part :: parts => String c part :: parts
        | [] => [String c EmptyString]
        end
  end.

(** Does [p] hold of every character of [s]? *)
Fixpoint all_chars (p : ascii → bool) (s : string) : bool :=
  match s with
  | EmptyString => true
  | String c r => p c && all_chars p r
  end.

(** Truth of a [str]: the empty string is false. *)
Definition nonempty (s : string) : bool :=
  match s with EmptyString => false | _ => true end.

(** [sorted(s)] for a set of strings: the order of [str] is the order of
    the code points. *)
Definition py_sorted (s : gset string) : list string :=
  merge_sort String.le (elements s).

Fixpoint decimal_digits (fuel n : nat) (acc : string) : string :=
  match fuel with
  | 0 => acc
  | S fuel' =>
      let acc' := String (ascii_of_nat (48 + n mod 10)) acc in
      if bool_decide (n < 10) then acc' else decimal_digits fuel' (n / 10) acc'
  end.

(** [str(n)] for a natural number. *)
Definition decimal (n : nat) : string := decimal_digits (S n) n "".

(** The decimal values of the bytes, joined by dots. *)
Definition dotted_quad (rdata : list byte) : string :=
  py_join "." (decimal ∘ byte_val <$> rdata).

(** [a or b] on two strings. *)
Definition py_or (a b : string) : string := if nonempty a then a else b.

(** *** The platform *)

Class Platform : Type := {
  (** [bs.decode("utf-8", errors="ignore")]. *)
  utf8_decode_ignore : list byte → string;
  (** The text [socket.inet_ntop(socket.AF_INET6, rdata)] gives for
      sixteen bytes. *)
  inet_ntop6 : list byte → string;
  (** [str(ipaddress.ip_address(token))], [None] for its [ValueError]. *)
  ip_address : string → option string;
}.

(** *** dns_middleman.py: the message codec *)

Section codec.

Context {platform : Platform}.

(** The local variables of [decode_dns_name]. [seen_pointers] lists the
    pointer values in the order they were added, the latest first. *)
Record name_walk : Type := NameWalk {
  labels : list string;
  cursor : nat;
  end_offset : nat;
  jumped : bool;
  seen_pointers : list nat;
}.

(** The [while True] loop of [decode_dns_name]: one unit of fuel per
    iteration, the result is the state at [break]. *)
Fixpoint decode_loop (fuel : nat) (data : list byte) (w : name_walk)
  : outcome name_walk :=
  match fuel with
  | 0 => OutOfFuel
  | S fuel' =>
    if bool_decide (length data ≤ cursor w) then Returned w
    else
      b ← py_index data (cursor w);
      let len := byte_val b in
      if bool_decide (len = 0) then
        let cursor' := cursor w + 1 in
        Returned (NameWalk (labels w) cursor'
                    (if jumped w then end_offset w else cursor')
                    (jumped w) (seen_pointers w))
      else if bool_decide (Nat.land len 192 = 192) then
        if bool_decide (length data ≤ cursor w + 1) then Returned w
        else
          b1 ← py_index data (cursor w + 1);
          let pointer := Nat.lor (Nat.shiftl (Nat.land len 63) 8) (byte_val b1) in
          if bool_decide (pointer ∈ seen_pointers w) then Returned w
          else
            decode_loop fuel' data
              (NameWalk (labels w) pointer
                 (if jumped w then end_offset w else cursor w + 2)
                 true (pointer :: seen_pointers w))
      else if bool_decide (Nat.land len 192 ≠ 0) then Returned w
      else
        let cursor' := cursor w + 1 in
        if bool_decide (length data < cursor' + len) then
          Returned (NameWalk (labels w) cursor' (end_offset w)
                      (jumped w) (seen_pointers w))
        else
          let label := utf8_decode_ignore (py_slice data cursor' (cursor' + len)) in
          let cursor'' := cursor' + len in
          decode_loop fuel' data
            (NameWalk (labels w ++ [label]) cursor''
               (if jumped w then end_offset w else cursor'')
               (jumped w) (seen_pointers w))
  end.

(** The pointer value read at position [i], when the two bytes of a
    compression pointer stand there. *)
Definition pointer_at (data : list byte) (i : nat) : option nat :=
  match data !! i, data !! (i + 1) with
  | Some b, Some b1 =>
      if bool_decide (Nat.land (byte_val b) 192 = 192)
      then Some (Nat.lor (Nat.shiftl (Nat.land (byte_val b) 63) 8) (byte_val b1))
      else None
  | _, _ => None
  end.

Definition pointer_values (data : list byte) : list nat :=
  omap (pointer_at data) (seq 0 (length data)).

(** Fuel that the loop never exhausts (see [decode_loop_total]): between
    two jumps the cursor only advances, and every jump follows a pointer
    value of the buffer that was not followed before. *)
Definition decode_fuel (data : list byte) : nat :=
  S ((length data + 1) * (length data + 1)).

(** The pointer values of the buffer that were not followed yet. *)
Definition unseen (data : list byte) (seen : list nat) : nat :=
  length (filter (λ p, p ∉ seen) (pointer_values data)).

(** What is left of a walk: a jump uses up one of the unseen pointer
    values, a label moves the cursor towards the end of the buffer. *)
Definition walk_measure (data : list byte) (w : name_walk) : nat :=
  unseen data (seen_pointers w) * (length data + 1) + (length data - cursor w).

(** [".".join(part for part in labels if part).strip(".").lower()]. *)
Definition name_of_labels (ls : list string) : string :=
  py_lower (py_strip_dots (py_join "." (filter (λ part, nonempty part = true) ls))).

Definition decode_walk (data : list byte) (offset : nat) : outcome name_walk :=
  decode_loop (decode_fuel data) data (NameWalk [] offset offset false []).

(** [decode_dns_name] at an offset that is not negative, as every call in
    the program has it: 12, and offsets that come from the function
    itself. *)
Definition decode_dns_name (data : list byte) (offset : nat)
  : outcome (string * nat) :=
  w ← decode_walk data offset;
  let name := name_of_labels (labels w) in
  let end_offset' :=
    if bool_decide (end_offset w ≤ offset) then cursor w else end_offset w in
  Returned (name, end_offset').

(** [data[i]] for any [int]: a negative index counts from the end. *)
Definition py_index_int (data : list byte) (i : Z) : outcome byte :=
  let n := Z.of_nat (length data) in
  if bool_decide (0 ≤ i)%Z then py_index data (Z.to_nat i)
  else if bool_decide (- n ≤ i)%Z then py_index data (Z.to_nat (n + i))
  else Raised IndexError.

(** A bound of a slice: a negative one counts from the end, and it is
    clamped to the list. *)
Definition slice_bound (n i : Z) : nat :=
  Z.to_nat (if bool_decide (i < 0)%Z then Z.max 0 (n + i) else Z.min i n).

(** [l[lo:hi]] for any two [int]s. *)
Definition py_slice_int {A} (l : list A) (lo hi : Z) : list A :=
  let n := Z.of_nat (length l) in
  py_slice l (slice_bound n lo) (slice_bound n hi).

(** The local variables of [decode_dns_name] as the [int]s they are. *)
Record name_walk_int : Type := NameWalkInt {
  labels_int : list string;
  cursor_int : Z;
  end_offset_int : Z;
  jumped_int : bool;
  seen_pointers_int : list nat;
}.

(** The loop of [decode_dns_name] over [int]s. *)
Fixpoint decode_loop_int (fuel : nat) (data : list byte) (w : name_walk_int)
  : outcome name_walk_int :=
  match fuel with
  | 0 => OutOfFuel
  | S fuel' =>
    let n := Z.of_nat (length data) in
    if bool_decide (n ≤ cursor_int w)%Z then Returned w
    else
      b ← py_index_int data (cursor_int w);
      let len := byte_val b in
      if bool_decide (len = 0) then
        let cursor' := (cursor_int w + 1)%Z in
        Returned (NameWalkInt (labels_int w) cursor'
                    (if jumped_int w then end_offset_int w else cursor')
                    (jumped_int w) (seen_pointers_int w))
      else if bool_decide (Nat.land len 192 = 192) then
        if bool_decide (n ≤ cursor_int w + 1)%Z then Returned w
        else
          b1 ← py_index_int data (cursor_int w + 1);
          let pointer := Nat.lor (Nat.shiftl (Nat.land len 63) 8) (byte_val b1) in
          if bool_decide (pointer ∈ seen_pointers_int w) then Returned w
          else
            decode_loop_int fuel' data
              (NameWalkInt (labels_int w) (Z.of_nat pointer)
                 (if jumped_int w then end_offset_int w
                  else (cursor_int w + 2)%Z)
                 true (pointer :: seen_pointers_int w))
      else if bool_decide (Nat.land len 192 ≠ 0) then Returned w
      else
        let cursor' := (cursor_int w + 1)%Z in
        if bool_decide (n < cursor' + Z.of_nat len)%Z then
          Returned (NameWalkInt (labels_int w) cursor' (end_offset_int w)
                      (jumped_int w) (seen_pointers_int w))
        else
          let label :=
            utf8_decode_ignore
              (py_slice_int data cursor' (cursor' + Z.of_nat len)) in
          let cursor'' := (cursor' + Z.of_nat len)%Z in
          decode_loop_int fuel' data
            (NameWalkInt (labels_int w ++ [label]) cursor''
               (if jumped_int w then end_offset_int w else cursor'')
               (jumped_int w) (seen_pointers_int w))
  end.

(** [decode_dns_name] at any [int]. From a negative offset the cursor
    comes to an offset that is not negative, or the loop ends, within as
    many iterations as the buffer has bytes; the fuel is that and the fuel
    of [decode_dns_name]. *)
Definition decode_dns_name_int (data : list byte) (offset : Z)
  : outcome (string * Z) :=
  w ← decode_loop_int (length data + decode_fuel data) data
        (NameWalkInt [] offset offset false []);
  let name := name_of_labels (labels_int w) in
  let end_offset' :=
    if bool_decide (end_offset_int w ≤ offset)%Z
    then cursor_int w else end_offset_int w in
  Returned (name, end_offset').

(** A walk at offsets that are not negative, as a walk over [int]s. *)
Definition walk_int (w : name_walk) : name_walk_int :=
  NameWalkInt (labels w) (Z.of_nat (cursor w)) (Z.of_nat (end_offset w))
    (jumped w) (seen_pointers w).

(** [None] is Python's [None]. *)
Definition extract_query_domain (payload : list byte) : outcome (option string) :=
  if bool_decide (length payload < 12) then Returned None
  else
    qdcount ← unpack_H (py_slice payload 4 6);
    if bool_decide (qdcount = 0) then Returned None
    else
      '(domain, _) ← decode_dns_name payload 12;
      Returned (if nonempty domain then Some domain else None).

(** The first [for] loop of [extract_answer_ips]: [None] is its
    [return []], [Some offset] the offset after the questions. *)
Fixpoint skip_questions (n : nat) (payload : list byte) (offset : nat)
  : outcome (option nat) :=
  match n with
  | 0 => Returned (Some offset)
  | S n' =>
      '(_, offset) ← decode_dns_name payload offset;
      if bool_decide (length payload < offset + 4) then Returned None
      else skip_questions n' payload (offset + 4)
  end.

(** [socket.inet_ntoa(rdata)]: the dotted quad of four bytes. *)
Definition inet_ntoa (rdata : list byte) : outcome string :=
  if bool_decide (length rdata = 4)
  then Returned (dotted_quad rdata)
  else Raised OSError.

(** [socket.inet_ntop(socket.AF_INET6, rdata)]. *)
Definition inet_ntop (rdata : list byte) : outcome string :=
  if bool_decide (length rdata = 16)
  then Returned (inet_ntop6 rdata)
  else Raised ValueError.

(** The second [for] loop: one iteration per declared answer, [break]
    leaves with the set collected so far. *)
Fixpoint collect_answers (n : nat) (payload : list byte) (offset : nat)
    (ips : gset string) : outcome (gset string) :=
  match n with
  | 0 => Returned ips
  | S n' =>
      '(_, offset) ← decode_dns_name payload offset;
      if bool_decide (length payload < offset + 10) then Returned ips
      else
        '(rtype, rclass, _ttl, rdlen) ←
          unpack_HHIH (py_slice payload offset (offset + 10));
        let offset := offset + 10 in
        if bool_decide (length payload < offset + rdlen) then Returned ips
        else
          let rdata := py_slice payload offset (offset + rdlen) in
          let offset := offset + rdlen in
          if bool_decide (rclass ≠ 1) then collect_answers n' payload offset ips
          else if bool_decide (rtype = 1 ∧ rdlen = 4) then
            ip ← inet_ntoa rdata;
            collect_answers n' payload offset ({[ip]} ∪ ips)
          else if bool_decide (rtype = 28 ∧ rdlen = 16) then
            ip ← inet_ntop rdata;
            collect_answers n' payload offset ({[ip]} ∪ ips)
          else collect_answers n' payload offset ips
  end.

Definition extract_answer_ips (payload : list byte) : outcome (list string) :=
  if bool_decide (length payload < 12) then Returned []
  else
    qdcount ← unpack_H (py_slice payload 4 6);
    ancount ← unpack_H (py_slice payload 6 8);
    after_questions ← skip_questions qdcount payload 12;
    match after_questions with
    | None => Returned []
    | Some offset =>
        ips ← collect_answers ancount payload offset ∅;
        Returned (py_sorted ips)
    end.

(** [None] is Python's [None]. *)
Definition make_servfail (query : list byte) : option (list byte) :=
  if bool_decide (length query < 12) then None
  else
    let qdcount := py_slice query 4 6 in
    let header :=
      take 2 query ++ [x81; x82] ++ qdcount ++ [x00; x00; x00; x00; x00; x00] in
    Some (header ++ drop 12 query).

End codec.

(** *** The wire format of a DNS message (RFC 1035)

    These definitions build messages; they state what the codec is
    expected to read back. *)

Definition byte_of (n : nat) : byte := default x00 (Byte.of_nat n).

Definition u16 (n : nat) : list byte := [byte_of (n / 256); byte_of (n `mod` 256)].

Definition u32 (n : N) : list byte :=
  (λ k, byte_of (N.to_nat ((n / 256 ^ k) `mod` 256)%N)) <$> [3; 2; 1; 0]%N.

(** A label is between 1 and 63 bytes; on the wire its length comes first. *)
Definition label_ok (l : list byte) : Prop := 1 ≤ length l ≤ 63.

Definition encode_labels (ls : list (list byte)) : list byte :=
  ls ≫= λ l, byte_of (length l) :: l.

(** A name ends with the root label or with a compression pointer. *)
Inductive name_end : Type :=
  | Root
  | Pointer (b0 b1 : byte).

Record wire_name : Type := WireName {
  name_labels : list (list byte);
  name_tail : name_end;
}.

Definition encode_name (n : wire_name) : list byte :=
  encode_labels (name_labels n)
  ++ match name_tail n with
     | Root => [x00]
     | Pointer b0 b1 => [b0; b1]
     end.

Definition name_ok (n : wire_name) : Prop :=
  Forall label_ok (name_labels n)
  ∧ match name_tail n with
    | Root => True
    | Pointer b0 _ => Nat.land (byte_val b0) 192 = 192
    end.

Record question : Type := Question {
  q_name : wire_name;
  q_type : nat;
  q_class : nat;
}.

Definition encode_question (q : question) : list byte :=
  encode_name (q_name q) ++ u16 (q_type q) ++ u16 (q_class q).

Record resource_record : Type := RR {
  rr_name : wire_name;
  rr_type : nat;
  rr_class : nat;
  rr_ttl : N;
  rr_rdata : list byte;
}.

Definition encode_rr (r : resource_record) : list byte :=
  encode_name (rr_name r) ++ u16 (rr_type r) ++ u16 (rr_class r)
  ++ u32 (rr_ttl r) ++ u16 (length (rr_rdata r)) ++ rr_rdata r.

Definition rr_ok (r : resource_record) : Prop :=
  name_ok (rr_name r) ∧ rr_type r < 256 * 256 ∧ rr_class r < 256 * 256
  ∧ length (rr_rdata r) < 256 * 256.

Definition encode_questions (qs : list question) : list byte :=
  qs ≫= encode_question.

Definition encode_rrs (rrs : list resource_record) : list byte :=
  rrs ≫= encode_rr.

(** The twelve bytes of the header. *)
Definition dns_header (id flags qdcount ancount nscount arcount : nat) : list byte :=
  u16 id ++ u16 flags ++ u16 qdcount ++ u16 ancount ++ u16 nscount ++ u16 arcount.

(** A record cut short by the end of the buffer after its name: in its
    ten fixed bytes, or in its rdata. Nothing at all is the first case with
    no name either. *)
Inductive truncated_rr : list byte → Prop :=
  | truncated_absent : truncated_rr []
  | truncated_fixed n fixed :
      name_ok n → length fixed < 10 → truncated_rr (encode_name n ++ fixed)
  | truncated_rdata n rtype rclass ttl rdlen rdata :
      name_ok n → rtype < 256 * 256 → rclass < 256 * 256 → rdlen < 256 * 256 →
      length rdata < rdlen →
      truncated_rr (encode_name n ++ u16 rtype ++ u16 rclass ++ u32 ttl
                      ++ u16 rdlen ++ rdata).

Section addresses.

Context {platform : Platform}.

(** The text of the address of an A or AAAA record of class IN. *)
Definition address_of (r : resource_record) : option string :=
  if bool_decide (rr_class r = 1) then
    if bool_decide (rr_type r = 1 ∧ length (rr_rdata r) = 4)
    then Some (dotted_quad (rr_rdata r))
    else if bool_decide (rr_type r = 28 ∧ length (rr_rdata r) = 16)
    then Some (inet_ntop6 (rr_rdata r))
    else None
  else None.

(** What the answer loop adds to its set for one record. *)
Definition add_address (r : resource_record) (ips : gset string) : gset string :=
  match address_of r with
  | Some a => {[a]} ∪ ips
  | None => ips
  end.

End addresses.

(** *** A platform for the examples

    The codec on ASCII bytes (bytes from 0x80 on are left out), a text for
    IPv6 addresses in examples that carry none, and [ip_address] on the
    dotted quads of IPv4, which are their own canonical text. *)
Definition ascii_decode (bs : list byte) : string :=
  String.string_of_list_byte (filter (λ b, byte_val b < 128) bs).

Definition ipv6_placeholder (rdata : list byte) : string := "::".

Fixpoint digits_value (s : string) (acc : nat) : option nat :=
  match s with
  | EmptyString => Some acc
  | String c r =>
      if (48 <=? code c) && (code c <=? 57)
      then digits_value r (10 * acc + (code c - 48))
      else None
  end.

(** A decimal number from 0 to 255 without a leading zero. *)
Definition is_octet (s : string) : bool :=
  match s with
  | EmptyString => false
  | String c r =>
      (String.length s <=? 3)
      && negb (Ascii.eqb c "0" && nonempty r)
      && match digits_value s 0 with
         | Some n => n <=? 255
         | None => false
         end
  end.

Definition ipv4_address (token : string) : option string :=
  let parts := py_split "." token in
  if (length parts =? 4) && forallb is_octet parts then Some token else None.

Definition example_platform : Platform :=
  {| utf8_decode_ignore := ascii_decode;
     inet_ntop6 := ipv6_placeholder;
     ip_address := ipv4_address |}.

(** A query for [example.com], type A, with transaction id 0x1234. *)
Definition example_query : list byte :=
  [x12; x34; x01; x00; x00; x01; x00; x00; x00; x00; x00; x00;
   x07; x65; x78; x61; x6d; x70; x6c; x65; x03; x63; x6f; x6d; x00;
   x00; x01; x00; x01].

Definition example_com : wire_name :=
  WireName [[x65; x78; x61; x6d; x70; x6c; x65]; [x63; x6f; x6d]] Root.

(** A pointer to offset 12, where the question name stands. *)
Definition to_question_name : wire_name := WireName [] (Pointer xc0 x0c).

(** The answer to [example_query] with two A records. *)
Definition example_answers : list resource_record :=
  [RR to_question_name 1 1 300 [x8e; xfa; x01; x01];
   RR to_question_name 1 1 300 [x01; x02; x03; x04]].

Definition example_response : list byte :=
  dns_header (18 * 256 + 52) (129 * 256 + 128) 1 2 0 0
  ++ encode_questions [Question example_com 1 1]
  ++ encode_rrs example_answers ++ [].

(** A payload with one declared answer whose name starts with a label of
    20 bytes, 14 bytes before the end of the buffer. *)
Definition cut_label_payload : list byte :=
  dns_header 0 0 0 1 0 0
  ++ [x14; x00; x01; x00; x01; x00; x00; x00; x00; x00; x04; x01; x02; x03; x04].

(** *** dns_middleman.py: the event log and one exchange of the UDP loop *)

(** The f-string of [record_event]:
    [[<domain>] @ [<ts>] using [<ips joined by ", ">]]. *)
Definition event_line (domain ts : string) (ips : list string) : string :=
  "[" +:+ domain +:+ "] @ [" +:+ ts +:+ "] using [" +:+ py_join ", " ips +:+ "]".

Definition newline : string := String (ascii_of_nat 10) "".

(** The fields of [DNSMiddleman] that [record_event] touches.
    [ordered_fp] is the text written to the ordered log so far, [None]
    when the file is not open. *)
Record DNSMiddleman : Type := Middleman {
  ordered_fp : option string;
  domain_times : gmap string (list string);
  domain_ips : gmap string (gset string);
  query_count : nat;
}.

(** [record_event] when its write to the ordered log goes through, with
    [ts] the value of [event_timestamp()]. *)
Definition record_event (ts : string) (domain : string) (ips : list string)
    (m : DNSMiddleman) : DNSMiddleman :=
  let line := event_line domain ts ips in
  Middleman
    ((λ written, written +:+ line +:+ newline) <$> ordered_fp m)
    (<[domain := default [] (domain_times m !! domain) ++ [ts]]> (domain_times m))
    (match ips with
     | [] => domain_ips m
     | _ => <[domain := list_to_set ips ∪ default ∅ (domain_ips m !! domain)]>
              (domain_ips m)
     end)
    (query_count m + 1).

(** A call of [record_event]. [write] is how [ordered_fp.write] and
    [flush] end when the file object is there: [None] when they go
    through, else the exception, which nothing in the proxy catches:
    [ValueError] on a file that [start] has closed, an [OSError] of the
    system. The file is written before any field is changed, so a call
    that raises leaves the fields as they were. *)
Definition record_event_call (write : option py_error) (ts domain : string)
    (ips : list string) (m : DNSMiddleman) : outcome DNSMiddleman :=
  match write, ordered_fp m with
  | Some e, Some _ => Raised e
  | _, _ => Returned (record_event ts domain ips m)
  end.

Section udp.

Context {platform : Platform}.

(** The body of the [while] loop of [udp_loop] once a datagram [query]
    arrived. [upstream] is what [forward_udp] returned, [send_ok] tells
    whether [server.sendto] went through, [write] how the write to the
    ordered log ends, [ts] is the clock. The result is the middleman
    afterwards and the datagram the client was sent; an exception of
    [record_event] gets out of the loop. *)
Definition udp_iteration (write : option py_error) (ts : string)
    (query : list byte) (upstream : option (list byte)) (send_ok : bool)
    (m : DNSMiddleman) : outcome (DNSMiddleman * option (list byte)) :=
  d ← extract_query_domain query;
  let domain := default "unknown" d in
  let response :=
    match upstream with
    | Some r => Some r
    | None => make_servfail query
    end in
  match response with
  | None => Returned (m, None)
  | Some response =>
      if send_ok then
        ips ← extract_answer_ips response;
        m' ← record_event_call write ts domain ips m;
        Returned (m', Some response)
      else Returned (m, None)
  end.

End udp.

(** *** dns_middleman.py: DNS over TCP *)

(** What a stream socket answers to one [recv]: bytes that have arrived
    (no bytes stand for the end of the stream), [socket.timeout], or
    another [OSError]. *)
Inductive arrival : Type :=
  | Segment (bs : list byte)
  | Timeout
  | Failure.

Abbreviation stream := (list arrival).

(** How a call on a socket ends; [Unfinished] marks a loop that ran out
    of fuel. *)
Inductive received (A : Type) : Type :=
  | Received (a : A)
  | SocketTimeout
  | SocketError
  | Unfinished.
Arguments Received {A} a.
Arguments SocketTimeout {A}.
Arguments SocketError {A}.
Arguments Unfinished {A}.

(** [sock.recv(n)]: at most [n] bytes of the segment at the head of the
    stream, and what is left of the segment stays at the head. A stream
    with nothing left is at its end. *)
Definition recv (n : nat) (s : stream) : received (list byte) * stream :=
  match s with
  | [] => (Received [], [])
  | Segment bs :: s' =>
      if bool_decide (length bs ≤ n) then (Received bs, s')
      else (Received (take n bs), Segment (drop n bs) :: s')
  | Timeout :: s' => (SocketTimeout, s')
  | Failure :: s' => (SocketError, s')
  end.

(** The [while len(buf) < size] loop of [recv_exact]. *)
Fixpoint recv_loop (fuel size : nat) (buf : list byte) (s : stream)
  : received (option (list byte)) * stream :=
  match fuel with
  | 0 => (Unfinished, s)
  | S fuel' =>
      if bool_decide (length buf < size) then
        match recv (size - length buf) s with
        | (Received [], s') => (Received None, s')
        | (Received chunk, s') => recv_loop fuel' size (buf ++ chunk) s'
        | (SocketTimeout, s') => (SocketTimeout, s')
        | (SocketError, s') => (SocketError, s')
        | (Unfinished, s') => (Unfinished, s')
        end
      else (Received (Some buf), s)
  end.

(** [recv_exact]: every chunk that is not empty makes the buffer longer,
    so [size] iterations and the last test are enough. *)
Definition recv_exact (s : stream) (size : nat)
  : received (option (list byte)) * stream :=
  recv_loop (S size) size [] s.

(** [struct.pack("!H", n)]. *)
Definition pack_H (n : nat) : outcome (list byte) :=
  if bool_decide (n < 256 * 256) then Returned (u16 n) else Raised StructError.

(** [forward_tcp]. [conn] is the stream of the connection to the
    resolver, [None] when [create_connection] raised, and [send_ok] tells
    whether [sendall] went through. Every [OSError], [socket.timeout]
    among them, is caught and gives [None]. *)
Definition forward_tcp (conn : option stream) (send_ok : bool)
    (query : list byte) : outcome (option (list byte)) :=
  match conn with
  | None => Returned None
  | Some upstream =>
      _ ← pack_H (length query);
      if send_ok then
        match recv_exact upstream 2 with
        | (Received (Some raw_len), upstream) =>
            response_len ← unpack_H raw_len;
            match recv_exact upstream response_len with
            | (Received response, _) => Returned response
            | (Unfinished, _) => OutOfFuel
            | (_, _) => Returned None
            end
        | (Unfinished, _) => OutOfFuel
        | (_, _) => Returned None
        end
      else Returned None
  end.

(** How an iteration of the loop of [handle_tcp_client] ends. *)
Inductive control : Type :=
  | Continue
  | Stop.

Section tcp.

Context {platform : Platform}.

(** One iteration of the [while] loop of [handle_tcp_client] on the
    connection [conn] of a client. [upstream] and [upstream_send_ok] are
    what [forward_tcp] meets, [client_send_ok] tells whether
    [conn.sendall] went through, [write] how the write to the ordered log
    ends, [ts] is the clock. The result is how the loop goes on, the
    stream that is left, the middleman afterwards and the bytes the client
    was sent. An exception of the second [recv_exact], which no handler
    catches, is [Raised OSError], and an exception of [record_event] gets
    out as well. *)
Definition tcp_iteration (write : option py_error) (ts : string)
    (conn : stream) (upstream : option stream)
    (upstream_send_ok client_send_ok : bool) (m : DNSMiddleman)
  : outcome (control * stream * DNSMiddleman * option (list byte)) :=
  match recv_exact conn 2 with
  | (SocketTimeout, conn) => Returned (Continue, conn, m, None)
  | (SocketError, conn) => Returned (Stop, conn, m, None)
  | (Unfinished, _) => OutOfFuel
  | (Received None, conn) => Returned (Stop, conn, m, None)
  | (Received (Some raw_len), conn) =>
      query_len ← unpack_H raw_len;
      match recv_exact conn query_len with
      | (Received None, conn) => Returned (Stop, conn, m, None)
      | (Received (Some query), conn) =>
          d ← extract_query_domain query;
          let domain := default "unknown" d in
          forwarded ← forward_tcp upstream upstream_send_ok query;
          let response :=
            match forwarded with
            | Some r => Some r
            | None => make_servfail query
            end in
          match response with
          | None => Returned (Continue, conn, m, None)
          | Some response =>
              prefix ← pack_H (length response);
              if client_send_ok then
                ips ← extract_answer_ips response;
                m' ← record_event_call write ts domain ips m;
                Returned (Continue, conn, m', Some (prefix ++ response))
              else Returned (Stop, conn, m, None)
          end
      | (Unfinished, _) => OutOfFuel
      | (_, _) => Raised OSError
      end
  end.

(** The iteration when the write to the ordered log goes through. *)
Definition tcp_exchange (ts : string) (conn : stream) (upstream : option stream)
    (upstream_send_ok client_send_ok : bool) (m : DNSMiddleman)
  : outcome (control * stream * DNSMiddleman * option (list byte)) :=
  tcp_iteration None ts conn upstream upstream_send_ok client_send_ok m.

End tcp.

(** The bytes a stream holds before its end, a timeout or a failure. *)
Fixpoint available (s : stream) : list byte :=
  match s with
  | Segment (b :: bs) :: s' => (b :: bs) ++ available s'
  | _ => []
  end.

(** What follows these bytes. *)
Fixpoint interruption (s : stream) : stream :=
  match s with
  | Segment (_ :: _) :: s' => interruption s'
  | _ => s
  end.

(** *** youtube_ip_blocker.py: the log tailer *)

(** The pieces of [ORDERED_LINE_RE]. *)
Definition expect (c : ascii) (s : string) : option string :=
  match s with
  | String c' r => if Ascii.eqb c c' then Some r else None
  | EmptyString => None
  end.

Fixpoint expect_word (w s : string) : option string :=
  match w with
  | EmptyString => Some s
  | String c w' => s' ← expect c s; expect_word w' s'
  end.

(** The group [[^\]]*]: the characters before the first ["]"]. *)
Fixpoint until_rbracket (s : string) : string * string :=
  match s with
  | EmptyString => (EmptyString, EmptyString)
  | String c r =>
      if Ascii.eqb c "]" then (EmptyString, s)
      else let '(g, rest) := until_rbracket r in (String c g, rest)
  end.

(** [\s*]. *)
Definition skip_spaces : string → string := lstrip_by is_space.

(** [ORDERED_LINE_RE.match(s)] with its three groups. The pattern reads:
    start, an opening bracket, the group domain (any characters but a
    closing bracket), a closing bracket, spaces, an at sign, spaces, the
    bracketed group time, spaces, the word using, spaces, the bracketed
    group ips, spaces, end. No part of it can match in two ways, so the
    match is a single pass from left to right. *)
Definition ORDERED_LINE_RE (s : string) : option (string * string * string) :=
  s ← expect "[" s;
  let '(domain, s) := until_rbracket s in
  s ← expect "]" s;
  s ← expect "@" (skip_spaces s);
  s ← expect "[" (skip_spaces s);
  let '(time, s) := until_rbracket s in
  s ← expect "]" s;
  s ← expect_word "using" (skip_spaces s);
  s ← expect "[" (skip_spaces s);
  let '(ips, s) := until_rbracket s in
  s ← expect "]" s;
  if nonempty (skip_spaces s) then None else Some (domain, time, ips).


(** [s.startswith(p)]. *)
Definition starts_with (p s : string) : bool := String.prefix p s.

Definition build_target_domains (target_domain : string) : gset string :=
  let base := py_strip_dots (py_lower target_domain) in
  if negb (starts_with "www." base) then {[ "www." +:+ base ]} ∪ {[ base ]}
  else {[ base ]}.

Definition is_target_domain (domain : string) (target_domains : gset string) : bool :=
  bool_decide (py_strip_dots (py_lower domain) ∈ target_domains).

(** A reference to a [set] object and the store of these objects. *)
Abbreviation ref := nat.
Abbreviation store := (list (gset string)).

(** The set a reference points to. *)
Definition deref (h : store) (r : ref) : gset string := default ∅ (h !! r).
(** [s.add(x)] and [s.update(xs)] change the object in place. *)
Definition set_add (r : ref) (x : string) (h : store) : store :=
  alter (λ s, {[x]} ∪ s) r h.
Definition set_update (r : ref) (xs : list string) (h : store) : store :=
  alter (λ s, list_to_set xs ∪ s) r h.
(** [set(s)] makes a new object with the elements of [s]. *)
Definition set_copy (r : ref) (h : store) : ref * store :=
  (length h, h ++ [deref h r]).

(** A position in the ordered log as [consumed_bytes] holds it, an
    [int]. [Offset n]: the number is [n], which is the place in the text.
    [Opaque place]: a number this model does not give, which [f.seek]
    takes to [place]; it is a cookie of the decoder's state behind a line
    that ended with a lone carriage return, or a byte offset behind
    characters outside ASCII, which take more than one byte. *)
Inductive file_position : Type :=
  | Offset (n : nat)
  | Opaque (place : nat).

Definition place_of (c : file_position) : nat :=
  match c with
  | Offset n => n
  | Opaque place => place
  end.

Definition is_ascii (c : ascii) : bool := code c <? 128.

(** Are the first [n] characters of [s] ASCII, and is the last of them
    no carriage return? *)
Fixpoint plain_prefix (n : nat) (s : string) : bool :=
  match n, s with
  | 0, _ => true
  | S n', String c r =>
      is_ascii c
      && match n' with
         | 0 => negb (Ascii.eqb c "013")
         | S _ => plain_prefix n' r
         end
  | S _, EmptyString => true
  end.

(** [f.tell()] at [place] of [text], behind a line that was read. *)
Definition tell (text : string) (place : nat) : file_position :=
  if plain_prefix place text then Offset place else Opaque place.

(** [BlockerState]. The fields that hold paths and the run stamp, which
    no step below reads, are left out; the log file is given by its text. *)
Record BlockerState : Type := Blocker {
  target_domain : string;
  target_domains : gset string;
  anchor : string;
  label : string;
  consumed_bytes : file_position;
  total_dns_events : nat;
  youtube_dns_query_seen : bool;
  youtube_dns_returned : bool;
  youtube_events : list (string * string * list string);
  youtube_ips : ref;
  blocked_ips : ref;
  observed_domains : ref;
  unblocked_domains : ref;
  cumulative_blocked_packets : nat;
}.

(** The synchronizer process: its state object and the sets it points to. *)
Record process : Type := Process {
  state : BlockerState;
  heap : store;
}.

(** [BlockerState(...)] as [main] builds it: every [field(default_factory=set)]
    is a set object of its own. *)
Definition initial_process (target anchor label : string) : process :=
  Process
    (Blocker (py_strip_dots (py_lower target)) (build_target_domains target)
       anchor label (Offset 0) 0 false false [] 0 1 2 3 0)
    [∅; ∅; ∅; ∅].

Definition with_consumed_bytes (n : file_position) (s : BlockerState)
  : BlockerState :=
  Blocker (target_domain s) (target_domains s) (anchor s) (label s)
    n (total_dns_events s) (youtube_dns_query_seen s) (youtube_dns_returned s)
    (youtube_events s) (youtube_ips s) (blocked_ips s) (observed_domains s)
    (unblocked_domains s) (cumulative_blocked_packets s).

Definition with_blocked_ips (r : ref) (s : BlockerState) : BlockerState :=
  Blocker (target_domain s) (target_domains s) (anchor s) (label s)
    (consumed_bytes s) (total_dns_events s) (youtube_dns_query_seen s)
    (youtube_dns_returned s) (youtube_events s) (youtube_ips s) r
    (observed_domains s) (unblocked_domains s) (cumulative_blocked_packets s).

Definition with_cumulative_blocked_packets (n : nat) (s : BlockerState)
  : BlockerState :=
  Blocker (target_domain s) (target_domains s) (anchor s) (label s)
    (consumed_bytes s) (total_dns_events s) (youtube_dns_query_seen s)
    (youtube_dns_returned s) (youtube_events s) (youtube_ips s) (blocked_ips s)
    (observed_domains s) (unblocked_domains s) n.

(** The statements of [consume_new_events] after a line parsed to
    [(domain, event_time, ips)] on a target domain. *)
Definition with_target_event (domain event_time : string) (ips : list string)
    (s : BlockerState) : BlockerState :=
  Blocker (target_domain s) (target_domains s) (anchor s) (label s)
    (consumed_bytes s) (total_dns_events s) true
    (match ips with [] => youtube_dns_returned s | _ => true end)
    (youtube_events s ++ [(domain, event_time, ips)])
    (youtube_ips s) (blocked_ips s) (observed_domains s) (unblocked_domains s)
    (cumulative_blocked_packets s).

Definition with_one_more_event (s : BlockerState) : BlockerState :=
  Blocker (target_domain s) (target_domains s) (anchor s) (label s)
    (consumed_bytes s) (total_dns_events s + 1) (youtube_dns_query_seen s)
    (youtube_dns_returned s) (youtube_events s) (youtube_ips s) (blocked_ips s)
    (observed_domains s) (unblocked_domains s) (cumulative_blocked_packets s).

(** [f.readline()] on the text that is left, in Python's universal
    newlines mode: the line with its terminator (["\n"], ["\r"] or
    ["\r\n"], handed over as ["\n"]) and what is left after it. At the end
    of the file a line has no terminator; [""] is the end of the file. *)
Fixpoint readline (s : string) : string * string :=
  match s with
  | EmptyString => (EmptyString, EmptyString)
  | String c r =>
      if Ascii.eqb c "010" then (newline, r)
      else if Ascii.eqb c "013" then
        (newline,
         match r with
         | String c' r' => if Ascii.eqb c' "010" then r' else r
         | EmptyString => r
         end)
      else let '(line, rest) := readline r in (String c line, rest)
  end.

(** [f.seek(n)] from the start of the text, for the place [n]. *)
Fixpoint seek (n : nat) (s : string) : string :=
  match n, s with
  | 0, _ => s
  | S n', String _ r => seek n' r
  | S _, EmptyString => EmptyString
  end.

Section blocker.

Context {platform : Platform}.

Definition normalize_ip (raw : string) : option string :=
  let token := py_strip raw in
  if nonempty token then ip_address token else None.

(** The [for part in ips_raw.split(",")] loop of [parse_ordered_line]. *)
Fixpoint collect_ips (parts : list string) (seen : gset string)
    (ips : list string) : list string :=
  match parts with
  | [] => ips
  | part :: rest =>
      match normalize_ip part with
      | Some ip =>
          if nonempty ip && negb (bool_decide (ip ∈ seen))
          then collect_ips rest ({[ip]} ∪ seen) (ips ++ [ip])
          else collect_ips rest seen ips
      | None => collect_ips rest seen ips
      end
  end.

Definition parse_ordered_line (line : string)
  : option (string * string * list string) :=
  '(domain, time, ips) ← ORDERED_LINE_RE (py_strip line);
  let domain := py_strip_dots (py_lower (py_strip domain)) in
  let event_time := py_strip time in
  let ips_raw := py_strip ips in
  let ips :=
    if nonempty ips_raw then collect_ips (py_split "," ips_raw) ∅ [] else [] in
  Some (domain, event_time, ips).

(** The body of the [while] loop of [consume_new_events] for a line that
    was read, with [pos] the value of [f.tell()] after it. *)
Definition consume_line (line : string) (pos : file_position) (p : process)
  : process :=
  let s := with_consumed_bytes pos (state p) in
  match parse_ordered_line line with
  | None => Process s (heap p)
  | Some (domain, event_time, ips) =>
      let s := with_one_more_event s in
      let h := set_add (observed_domains s) domain (heap p) in
      if is_target_domain domain (target_domains s) then
        Process (with_target_event domain event_time ips s)
                (set_update (youtube_ips s) ips h)
      else Process s (set_add (unblocked_domains s) domain h)
  end.

(** The [while True] loop of [consume_new_events] over what is left,
    [rest], of the file with the text [text]. *)
Fixpoint read_loop (fuel : nat) (text rest : string) (p : process)
  : outcome process :=
  match fuel with
  | 0 => OutOfFuel
  | S fuel' =>
      let '(line, rest') := readline rest in
      if nonempty line then
        read_loop fuel' text rest'
          (consume_line line
             (tell text (String.length text - String.length rest')) p)
      else Returned p
  end.

(** [consume_new_events]; [log] is the text of the ordered log at this
    moment, [None] when the file does not exist. *)
Definition consume_new_events (log : option string) (p : process)
  : outcome process :=
  match log with
  | None => Returned p
  | Some text =>
      read_loop (S (String.length text)) text
        (seek (place_of (consumed_bytes (state p))) text) p
  end.

End blocker.

(** *** youtube_ip_blocker.py: the firewall synchronizer *)

(** [subprocess.CompletedProcess] of a [pfctl] call. *)
Record completed : Type := Completed {
  returncode : Z;
  stdout : string;
  stderr : string;
}.

(** The dictionary of [build_snapshot], without the clock, the run stamp
    and the paths. *)
Record snapshot : Type := Snapshot {
  snap_target_domain : string;
  snap_target_domains : list string;
  snap_total_dns_events : nat;
  snap_youtube_dns_query_seen : bool;
  snap_youtube_dns_returned : bool;
  snap_youtube_dns_events : list (string * string * list string);
  snap_youtube_ips : list string;
  snap_blocked_ips : list string;
  snap_observed_domains : list string;
  snap_unblocked_domains : list string;
  snap_pf_anchor : string;
  snap_pf_label : string;
  snap_pf_ready : bool;
  snap_pf_status : string;
  snap_blocked_packets_so_far : nat;
}.

(** What [main] does to the world outside, in the order it does it. *)
Inductive effect : Type :=
  | ReadBlockedPacketCount (anchor label : string)
  | ClearAnchorRules (anchor : string)
  | LoadAnchorRules (anchor rules : string)
  | WriteJson (payload : snapshot).

Definition dquote : string := String (ascii_of_nat 34) "".

Definition build_anchor_rules (ips : list string) (label : string) : string :=
  let table_name := "exp3_yt_block_ips" in
  let joined := py_join ", " ips in
  "table <" +:+ table_name +:+ "> persist { " +:+ joined +:+ " }" +:+ newline
  +:+ "block drop out quick to <" +:+ table_name +:+ "> label "
  +:+ dquote +:+ label +:+ dquote +:+ newline.

(** [apply_anchor_rules]; [proc] is what [pfctl -a anchor -f -] answers
    when it is run. *)
Definition apply_anchor_rules (proc : completed) (anchor : string)
    (ips : gset string) (label : string) : bool * string * list effect :=
  if bool_decide (ips = ∅) then
    (true, "cleared rules (no YouTube IPs yet)", [ClearAnchorRules anchor])
  else
    let ordered_ips := py_sorted ips in
    let rules := build_anchor_rules ordered_ips label in
    if bool_decide (returncode proc ≠ 0%Z) then
      let reason :=
        py_strip (py_or (py_strip (stderr proc))
                    (py_or (py_strip (stdout proc)) "pfctl rule load failed")) in
      (false, reason, [LoadAnchorRules anchor rules])
    else
      (true,
       "loaded " +:+ decimal (length ordered_ips) +:+ " blocked IPs into " +:+ anchor,
       [LoadAnchorRules anchor rules]).

Definition build_snapshot (p : process) (blocked_packets : nat)
    (pf_ready : bool) (last_pf_message : string) : snapshot :=
  let s := state p in
  Snapshot (target_domain s) (py_sorted (target_domains s))
    (total_dns_events s) (youtube_dns_query_seen s) (youtube_dns_returned s)
    (youtube_events s)
    (py_sorted (deref (heap p) (youtube_ips s)))
    (py_sorted (deref (heap p) (blocked_ips s)))
    (py_sorted (deref (heap p) (observed_domains s)))
    (py_sorted (deref (heap p) (unblocked_domains s)))
    (anchor s) (label s) pf_ready last_pf_message blocked_packets.

(** What the world answers during one poll cycle. *)
Record poll_env : Type := PollEnv {
  log_text : option string;
  packets_before_reload : nat;
  load_result : completed;
  packets_at_report : nat;
}.

(** The variables of [main] that live across the iterations of its loop. *)
Record main_vars : Type := MainVars {
  proc : process;
  last_pf_message : string;
}.

(** Is this effect a change of the rules of the anchor? *)
Definition is_reload (e : effect) : bool :=
  match e with
  | ClearAnchorRules _ | LoadAnchorRules _ _ => true
  | _ => false
  end.

Section main.

Context {platform : Platform}.
(** [pf_ready] is set once, before the loop. *)
Variable pf_ready : bool.

(** The [if pf_ready and state.youtube_ips != state.blocked_ips] block. *)
Definition converge (env : poll_env) (v : main_vars) : main_vars * list effect :=
  let p := proc v in
  let s := state p in
  if pf_ready
     && bool_decide (deref (heap p) (youtube_ips s) ≠ deref (heap p) (blocked_ips s))
  then
    let s :=
      with_cumulative_blocked_packets
        (cumulative_blocked_packets s + packets_before_reload env) s in
    let '(ok, msg, fx) :=
      apply_anchor_rules (load_result env) (anchor s)
        (deref (heap p) (youtube_ips s)) (label s) in
    let fx := ReadBlockedPacketCount (anchor s) (label s) :: fx in
    if ok then
      let '(r, h) := set_copy (youtube_ips s) (heap p) in
      (MainVars (Process (with_blocked_ips r s) h) msg, fx)
    else
      (MainVars (Process s (heap p)) ("Failed to apply PF rules: " +:+ msg), fx)
  else (v, []).

(** One iteration of the [while not stop_event.is_set()] loop of [main]. *)
Definition main_iteration (env : poll_env) (v : main_vars)
  : outcome (main_vars * list effect) :=
  p ← consume_new_events (log_text env) (proc v);
  let '(v, fx) := converge env (MainVars p (last_pf_message v)) in
  let s := state (proc v) in
  let current_packets := if pf_ready then packets_at_report env else 0 in
  let fx_read :=
    if pf_ready then [ReadBlockedPacketCount (anchor s) (label s)] else [] in
  let payload :=
    build_snapshot (proc v) (cumulative_blocked_packets s + current_packets)
      pf_ready (last_pf_message v) in
  Returned (v, fx ++ fx_read ++ [WriteJson payload]).

(** The loop, one [poll_env] per iteration until the stop event is set. *)
Fixpoint main_loop (envs : list poll_env) (v : main_vars)
  : outcome (main_vars * list effect) :=
  match envs with
  | [] => Returned (v, [])
  | env :: envs' =>
      '(v, fx) ← main_iteration env v;
      '(v, fx') ← main_loop envs' v;
      Returned (v, fx ++ fx')
  end.

End main.

(** *** What the properties are stated with *)

Definition not_rbracket (c : ascii) : bool := negb (Ascii.eqb c "]").

Definition no_comma (c : ascii) : bool := negb (Ascii.eqb c ",").

(** A character that ends a line for [readline]. *)
Definition is_line_end (c : ascii) : bool := Ascii.eqb c "010" || Ascii.eqb c "013".
Definition not_line_end (c : ascii) : bool := negb (is_line_end c).

(** A character of the text of an address: no space, comma or bracket. *)
Definition is_ip_char (c : ascii) : bool :=
  negb (is_space c) && negb (Ascii.eqb c ",") && negb (Ascii.eqb c "]").

Section statements.

Context {platform : Platform}.

(** The text of an address as [ip_address] writes it. *)
Definition canonical_ip (ip : string) : Prop :=
  ip_address ip = Some ip ∧ nonempty ip = true ∧ all_chars is_ip_char ip = true.

(** Is the last character of [s] a newline? *)
Fixpoint ends_with_newline (s : string) : bool :=
  match s with
  | EmptyString => false
  | String c EmptyString => Ascii.eqb c "010"
  | String _ r => ends_with_newline r
  end.

(** The sets of a process, by field. *)
Definition target_ips (p : process) : gset string :=
  deref (heap p) (youtube_ips (state p)).
Definition enforced_ips (p : process) : gset string :=
  deref (heap p) (blocked_ips (state p)).

(** What tailing the log leaves as it is: the references and the
    settings of the state, the number of objects, and every set but the
    three it adds to; no set loses an element. *)
Definition tailed (p p' : process) : Prop :=
  youtube_ips (state p') = youtube_ips (state p)
  ∧ blocked_ips (state p') = blocked_ips (state p)
  ∧ observed_domains (state p') = observed_domains (state p)
  ∧ unblocked_domains (state p') = unblocked_domains (state p)
  ∧ anchor (state p') = anchor (state p)
  ∧ label (state p') = label (state p)
  ∧ target_domains (state p') = target_domains (state p)
  ∧ cumulative_blocked_packets (state p') = cumulative_blocked_packets (state p)
  ∧ length (heap p') = length (heap p)
  ∧ (∀ r, r ≠ youtube_ips (state p) → r ≠ observed_domains (state p) →
          r ≠ unblocked_domains (state p) → heap p' !! r = heap p !! r)
  ∧ (∀ r, deref (heap p) r ⊆ deref (heap p') r).

(** The shape of the process in every run: the four references point to
    objects, the enforced set is an object of its own, and it holds only
    target addresses. *)
Definition synchronizer_ok (p : process) : Prop :=
  youtube_ips (state p) < length (heap p)
  ∧ blocked_ips (state p) < length (heap p)
  ∧ observed_domains (state p) < length (heap p)
  ∧ unblocked_domains (state p) < length (heap p)
  ∧ blocked_ips (state p) ≠ youtube_ips (state p)
  ∧ blocked_ips (state p) ≠ observed_domains (state p)
  ∧ blocked_ips (state p) ≠ unblocked_domains (state p)
  ∧ enforced_ips p ⊆ target_ips p.

(** The states the loop of [main] can be in, for some run so far. *)
Definition reachable (pf_ready : bool) (v : main_vars) : Prop :=
  ∃ target anchor label message envs fx,
    main_loop pf_ready envs
      (MainVars (initial_process target anchor label) message)
    = Returned (v, fx).

(** Along the iterations [envs] from [v], tailing the log never changes
    the set of target addresses. *)
Fixpoint targets_unchanged (pf_ready : bool) (envs : list poll_env)
    (v : main_vars) : Prop :=
  match envs with
  | [] => True
  | env :: envs' =>
      ∀ p, consume_new_events (log_text env) (proc v) = Returned p →
        target_ips p = target_ips (proc v)
        ∧ ∀ v' fx, main_iteration pf_ready env v = Returned (v', fx) →
            targets_unchanged pf_ready envs' v'
  end.

End statements.

(** *** What the further properties are stated with *)

Section further_statements.

Context {platform : Platform}.

(** The text of four or of sixteen bytes that stand in the payload. *)
Definition address_in (payload : list byte) (a : string) : Prop :=
  ∃ lo, (lo + 4 ≤ length payload ∧ a = dotted_quad (py_slice payload lo (lo + 4)))
      ∨ (lo + 16 ≤ length payload ∧ a = inet_ntop6 (py_slice payload lo (lo + 16))).

(** What the tailer keeps true of its records: the three sets it adds to
    are three objects; a domain counted as not blocked was observed and is
    no target; the target addresses are those of the target events, each
    of which is on a target domain that was observed; the two flags say
    whether there is a target event and whether there is a target address;
    and no more target events are kept than events were counted. *)
Definition events_ok (p : process) : Prop :=
  let s := state p in
  let h := heap p in
  youtube_ips s < length h ∧ observed_domains s < length h
  ∧ unblocked_domains s < length h
  ∧ youtube_ips s ≠ observed_domains s ∧ youtube_ips s ≠ unblocked_domains s
  ∧ observed_domains s ≠ unblocked_domains s
  ∧ deref h (unblocked_domains s) ⊆ deref h (observed_domains s)
  ∧ (∀ d, d ∈ deref h (unblocked_domains s) → d ∉ target_domains s)
  ∧ deref h (youtube_ips s) = ⋃ ((λ e, list_to_set e.2) <$> youtube_events s)
  ∧ Forall (λ e, e.1.1 ∈ target_domains s ∧ e.1.1 ∈ deref h (observed_domains s))
      (youtube_events s)
  ∧ (youtube_dns_query_seen s = true ↔ youtube_events s ≠ [])
  ∧ (youtube_dns_returned s = true ↔ deref h (youtube_ips s) ≠ ∅)
  ∧ length (youtube_events s) ≤ total_dns_events s.

(** An event that is read back from its line as it was recorded: no
    bracket and no end of line in the domain and the time, both as the
    parser writes them, and addresses that are distinct canonical texts. *)
Definition loggable (e : string * string * list string) : Prop :=
  let '(domain, ts, ips) := e in
  all_chars not_rbracket domain = true ∧ all_chars not_line_end domain = true
  ∧ py_strip_dots (py_lower (py_strip domain)) = domain
  ∧ all_chars not_rbracket ts = true ∧ all_chars not_line_end ts = true
  ∧ py_strip ts = ts
  ∧ Forall canonical_ip ips ∧ NoDup ips.

(** The body of the loop of [consume_new_events] on each of the lines in
    turn, which stand whole, each with its newline, in [text] from [place]
    on. *)
Fixpoint read_lines (text : string) (place : nat) (lines : list string)
    (p : process) : process :=
  match lines with
  | [] => p
  | line :: rest =>
      let place' := place + String.length line + 1 in
      read_lines text place' rest
        (consume_line (line +:+ newline) (tell text place') p)
  end.

End further_statements.

(** The text of lines that are each written whole. *)
Fixpoint lines_text (lines : list string) : string :=
  match lines with
  | [] => ""
  | line :: rest => line +:+ newline +:+ lines_text rest
  end.

(** The middleman after the events [(domain, ts, ips)] were recorded, in
    this order. *)
Definition after_events (events : list (string * string * list string))
    (m : DNSMiddleman) : DNSMiddleman :=
  foldl (λ m e, record_event e.1.2 e.1.1 e.2 m) m events.

(** The lines of these events in the ordered log. *)
Fixpoint log_lines (events : list (string * string * list string)) : string :=
  match events with
  | [] => ""
  | e :: rest => event_line e.1.1 e.1.2 e.2 +:+ newline +:+ log_lines rest
  end.

(** The part of an effect list that one iteration of [main] makes: the
    counter is read before the rules are changed, then read for the
    report when the filter is ready, then the report is written. *)
Definition iteration_effects (pf_ready : bool) (anchor label : string)
    (fx : list effect) : Prop :=
  ∃ reload payload,
    (reload = []
     ∨ pf_ready = true
       ∧ ∃ e, is_reload e = true
              ∧ reload = [ReadBlockedPacketCount anchor label; e])
    ∧ fx = reload
           ++ (if pf_ready then [ReadBlockedPacketCount anchor label] else [])
           ++ [WriteJson payload].

(** *** A run of the blocker for the examples *)

Definition blocker_start : process := initial_process "youtube.com" "anchor" "label".

Definition youtube_line : string :=
  event_line "youtube.com" "20240101-00:00:00" ["142.250.1.1"].

(** The same line when the writer has written its first 50 bytes. *)
Definition youtube_fragment : string :=
  "[youtube.com] @ [20240101-00:00:00] using [142.250".

Definition blocker_vars : main_vars := MainVars blocker_start "pf already enabled".

(** A poll that finds one line for [youtube.com] in the log; the load of
    the rules answers with [returncode]. *)
Definition poll_youtube (returncode : Z) : poll_env :=
  PollEnv (Some (youtube_line +:+ newline)) 0 (Completed returncode "" "denied") 7.

(** The middleman when [start] has opened the ordered log. *)
Definition started_middleman : DNSMiddleman := Middleman (Some "") ∅ ∅ 0.

(** Two events as the proxy records them: an answer for the target and a
    SERVFAIL for another domain. *)
Definition example_events : list (string * string * list string) :=
  [("youtube.com", "20240101-00:00:00", ["142.250.1.1"]);
   ("example.com", "20240101-00:00:01", [])].

(** The name [www] followed by a pointer to offset 12. *)
Definition www_of_question_name : wire_name :=
  WireName [[x77; x77; x77]] (Pointer xc0 x0c).

(** The stream of a client: [example_query] behind its length, 29, cut
    into three segments, and one byte of the next message. *)
Definition example_client_stream : stream :=
  [Segment [x00]; Segment (x1d :: take 10 example_query);
   Segment (drop 10 example_query ++ [xff])].

(** The stream of a resolver: a response of four bytes behind its
    length, cut into three segments, and one byte more. *)
Definition example_upstream_stream : stream :=
  [Segment [x00]; Segment [x04; x01; x02]; Segment [x03; x04; x05]].

(** *** Proof tactics *)

(** Lists that differ by the grouping of [++] and [::]. *)
Ltac list_assoc :=
  repeat (rewrite <- ?app_assoc; simpl); rewrite ?app_nil_r; try done.

(** Reads the fields of a walk that is given by its constructor. *)
Ltac walk_fields := cbn [labels cursor end_offset jumped seen_pointers].
(** ** Part II: properties *)

(** *** Python values and control *)

Lemma bind_Returned {A B} (m : outcome A) (k : A → outcome B) (b : B) :
  m ≫= k = Returned b ↔ ∃ a, m = Returned a ∧ k a = Returned b.
Proof.
  destruct m as [a| |]; simpl; split.
  - intros Hk. exists a. done.
  - intros (a' & [= <-] & Hk). done.
  - discriminate.
  - intros (? & [=] & _).
  - discriminate.
  - intros (? & [=] & _).
Qed.

Lemma py_index_lt (data : list byte) (i : nat) :
  i < length data → ∃ b, data !! i = Some b ∧ py_index data i = Returned b.
Proof.
  intros Hi. destruct (lookup_lt_is_Some_2 data i Hi) as [b Hb].
  exists b. unfold py_index. rewrite Hb. done.
Qed.

Lemma py_slice_length {A} (l : list A) (lo hi : nat) :
  hi ≤ length l → length (py_slice l lo hi) = hi - lo.
Proof. intros Hhi. unfold py_slice. rewrite length_take, length_drop. lia. Qed.

Lemma py_slice_app_middle {A} (pre mid post : list A) :
  py_slice (pre ++ mid ++ post) (length pre) (length pre + length mid) = mid.
Proof.
  unfold py_slice. rewrite drop_app_length.
  replace (length pre + length mid - length pre) with (length mid) by lia.
  apply take_app_length.
Qed.

(** *** make_servfail *)

Section codec_facts.

Context {platform : Platform}.

Lemma make_servfail_short (query : list byte) :
  length query < 12 → make_servfail query = None.
Proof. intros Hlen. unfold make_servfail. rewrite bool_decide_eq_true_2; done. Qed.

Lemma make_servfail_long (query : list byte) :
  12 ≤ length query →
  make_servfail query =
    Some (take 2 query ++ [x81; x82] ++ py_slice query 4 6
            ++ replicate 6 x00 ++ drop 12 query).
Proof.
  intros Hlen. unfold make_servfail.
  rewrite bool_decide_eq_false_2 by lia. f_equal.
  rewrite <- !app_assoc. done.
Qed.


(** *** Appending texts *)

Lemma append_cons (x : ascii) (a b : string) : String x a +:+ b = String x (a +:+ b).
Proof. done. Qed.

Lemma append_nil_l (s : string) : "" +:+ s = s.
Proof. done. Qed.

Lemma append_nil_r (s : string) : s +:+ "" = s.
Proof. induction s as [|c s IH]; [done|]. by rewrite append_cons, IH. Qed.

Lemma append_assoc (a b c : string) : (a +:+ b) +:+ c = a +:+ (b +:+ c).
Proof. induction a as [|x a IH]; [done|]. by rewrite !append_cons, IH. Qed.

Lemma append_length (a b : string) :
  String.length (a +:+ b) = String.length a + String.length b.
Proof. induction a as [|x a IH]; [done|]. rewrite append_cons. simpl. by rewrite IH. Qed.

(** *** decode_dns_name: the loop finishes *)

Lemma pointer_at_elem (data : list byte) (i p : nat) :
  pointer_at data i = Some p → p ∈ pointer_values data.
Proof.
  intros Hp. unfold pointer_values. apply list_elem_of_omap.
  exists i. split; [|done]. apply elem_of_seq. split; [lia|]. simpl.
  unfold pointer_at in Hp. destruct (data !! i) eqn:Hi; [|done].
  by apply lookup_lt_Some in Hi.
Qed.

Lemma filter_length_drop_one {A} (P Q : A → Prop) `{!∀ x, Decision (P x)}
    `{!∀ x, Decision (Q x)} (l : list A) (a : A) :
  (∀ x, Q x → P x) → a ∈ l → P a → ¬ Q a →
  length (filter Q l) < length (filter P l).
Proof.
  intros HQP. induction l as [|x l IH]; intros Hin HPa HQa.
  - by apply elem_of_nil in Hin.
  - assert (Hle : length (filter Q l) ≤ length (filter P l)).
    { clear -HQP. induction l as [|y l IH]; [done|].
      rewrite !filter_cons. destruct (decide (Q y)) as [Hq|Hq].
      - rewrite decide_True by auto. simpl. lia.
      - destruct (decide (P y)); simpl; lia. }
    rewrite !filter_cons. apply elem_of_cons in Hin as [<-|Hin].
    + rewrite decide_False by done. rewrite decide_True by done. simpl. lia.
    + specialize (IH Hin HPa HQa).
      destruct (decide (Q x)) as [Hq|Hq].
      * rewrite decide_True by auto. simpl. lia.
      * destruct (decide (P x)); simpl; lia.
Qed.

Lemma omap_length_le {A B} (f : A → option B) (l : list A) :
  length (omap f l) ≤ length l.
Proof.
  induction l as [|x l IH]; [done|].
  change (omap f (x :: l)) with
    (match f x with Some y => y :: omap f l | None => omap f l end).
  destruct (f x); simpl; lia.
Qed.

Lemma unseen_le (data : list byte) (seen : list nat) : unseen data seen ≤ length data.
Proof.
  unfold unseen. etrans; [apply length_filter|].
  pose proof (omap_length_le (pointer_at data) (seq 0 (length data))) as Hle.
  by rewrite length_seq in Hle.
Qed.

Lemma unseen_follow (data : list byte) (seen : list nat) (i p : nat) :
  pointer_at data i = Some p → p ∉ seen →
  unseen data (p :: seen) < unseen data seen.
Proof.
  intros Hp Hnew. unfold unseen.
  apply (filter_length_drop_one _ _ _ p).
  - intros x Hx Hin. apply Hx. by right.
  - by eapply pointer_at_elem.
  - done.
  - intros Hx. apply Hx. by left.
Qed.

Lemma decode_loop_total (fuel : nat) (data : list byte) (w : name_walk) :
  walk_measure data w < fuel → ∃ w', decode_loop fuel data w = Returned w'.
Proof.
  revert w. induction fuel as [|fuel IH]; intros w Hm; [lia|].
  cbn [decode_loop]. case_bool_decide as Hend; [by eexists|].
  destruct (py_index_lt data (cursor w)) as (b & Hb & ->); [lia|]. cbn [mbind outcome_bind].
  case_bool_decide as Hzero; [by eexists|].
  case_bool_decide as Hptr.
  - case_bool_decide as Hend1; [by eexists|].
    destruct (py_index_lt data (cursor w + 1)) as (b1 & Hb1 & ->); [lia|]. cbn [mbind outcome_bind].
    case_bool_decide as Hseen; [by eexists|].
    apply IH. unfold walk_measure in *. walk_fields.
    assert (Hless := unseen_follow data (seen_pointers w) (cursor w) _
      ltac:(unfold pointer_at; rewrite Hb, Hb1, bool_decide_eq_true_2; done) Hseen).
    match goal with
    | |- ?u' * ?k + ?r < _ =>
        assert (r ≤ length data) by lia;
        pose proof (Nat.mul_le_mono_r (S u') _ k Hless) as Hmul
    end.
    rewrite Nat.mul_succ_l in Hmul. lia.
  - case_bool_decide as Hbad; [by eexists|].
    case_bool_decide as Hover; [by eexists|].
    apply IH. unfold walk_measure in *. walk_fields.
    assert (byte_val b ≠ 0) by done. lia.
Qed.

Lemma decode_fuel_enough (data : list byte) (offset : nat) :
  walk_measure data (NameWalk [] offset offset false []) < decode_fuel data.
Proof.
  unfold walk_measure, decode_fuel. simpl.
  pose proof (unseen_le data []). nia.
Qed.

Lemma decode_walk_total (data : list byte) (offset : nat) :
  ∃ w, decode_walk data offset = Returned w.
Proof. apply decode_loop_total, decode_fuel_enough. Qed.

Lemma decode_loop_more_fuel (fuel fuel' : nat) (data : list byte) (w w' : name_walk) :
  decode_loop fuel data w = Returned w' → fuel ≤ fuel' →
  decode_loop fuel' data w = Returned w'.
Proof.
  revert fuel' w. induction fuel as [|fuel IH]; intros fuel' w Hrun Hle; [done|].
  destruct fuel' as [|fuel']; [lia|]. cbn [decode_loop] in *.
  case_bool_decide; [done|].
  destruct (py_index data (cursor w)) as [b| |]; cbn [mbind outcome_bind] in *;
    [|done..].
  case_bool_decide; [done|].
  case_bool_decide.
  - case_bool_decide; [done|].
    destruct (py_index data (cursor w + 1)) as [b1| |];
      cbn [mbind outcome_bind] in *; [|done..].
    case_bool_decide; [done|]. apply IH; [done|lia].
  - case_bool_decide; [done|]. case_bool_decide; [done|].
    apply IH; [done|lia].
Qed.

Lemma decode_loop_agree (f1 f2 : nat) (data : list byte) (w r1 r2 : name_walk) :
  decode_loop f1 data w = Returned r1 → decode_loop f2 data w = Returned r2 →
  r1 = r2.
Proof.
  intros H1 H2.
  apply (decode_loop_more_fuel _ (f1 `max` f2)) in H1; [|lia].
  apply (decode_loop_more_fuel _ (f1 `max` f2)) in H2; [|lia].
  congruence.
Qed.

(** The rule of the loop: a property of the walk that every iteration
    keeps, the two that end by moving the cursor too, holds at the end. *)
Lemma decode_loop_invariant (P : name_walk → Prop) (data : list byte) :
  (∀ w, P w →
     P (NameWalk (labels w) (cursor w + 1)
          (if jumped w then end_offset w else cursor w + 1)
          (jumped w) (seen_pointers w))) →
  (∀ w p, P w → pointer_at data (cursor w) = Some p → p ∉ seen_pointers w →
     P (NameWalk (labels w) p
          (if jumped w then end_offset w else cursor w + 2)
          true (p :: seen_pointers w))) →
  (∀ w, P w →
     P (NameWalk (labels w) (cursor w + 1) (end_offset w)
          (jumped w) (seen_pointers w))) →
  (∀ w label len, P w → cursor w + 1 + len ≤ length data → 0 < len →
     P (NameWalk (labels w ++ [label]) (cursor w + 1 + len)
          (if jumped w then end_offset w else cursor w + 1 + len)
          (jumped w) (seen_pointers w))) →
  ∀ fuel w r, decode_loop fuel data w = Returned r → P w → P r.
Proof.
  intros Hzero Hjump Hover Hlabel.
  induction fuel as [|fuel IH]; intros w r Hrun HP; [done|].
  cbn [decode_loop] in Hrun.
  case_bool_decide as Hend; [by injection Hrun as <-|].
  destruct (py_index_lt data (cursor w)) as (b & Hb & Hib); [lia|].
  rewrite Hib in Hrun. cbn [mbind outcome_bind] in Hrun.
  case_bool_decide as Hz; [injection Hrun as <-; by apply Hzero|].
  case_bool_decide as Hptr.
  - case_bool_decide as Hend1; [by injection Hrun as <-|].
    destruct (py_index_lt data (cursor w + 1)) as (b1 & Hb1 & Hib1); [lia|].
    rewrite Hib1 in Hrun. cbn [mbind outcome_bind] in Hrun.
    case_bool_decide as Hseen; [by injection Hrun as <-|].
    apply IH in Hrun; [done|]. apply Hjump; [done| |done].
    unfold pointer_at. by rewrite Hb, Hb1, bool_decide_eq_true_2.
  - case_bool_decide as Hbad; [by injection Hrun as <-|].
    case_bool_decide as Hover'; [injection Hrun as <-; by apply Hover|].
    apply IH in Hrun; [done|]. apply Hlabel; [done|lia|].
    assert (byte_val b ≠ 0) by done. lia.
Qed.

Lemma decode_loop_seen_NoDup (fuel : nat) (data : list byte) (w r : name_walk) :
  decode_loop fuel data w = Returned r →
  NoDup (seen_pointers w) → NoDup (seen_pointers r).
Proof.
  apply (decode_loop_invariant (λ w, NoDup (seen_pointers w))); simpl; try done.
  intros w' p Hnd _ Hnew. by constructor.
Qed.

Lemma decode_loop_jumped (fuel : nat) (data : list byte) (w r : name_walk) :
  decode_loop fuel data w = Returned r → jumped w = true →
  jumped r = true ∧ end_offset r = end_offset w.
Proof.
  intros Hrun Hj.
  apply (decode_loop_invariant
           (λ w', jumped w' = true ∧ end_offset w' = end_offset w) data)
    with (fuel := fuel) (w := w); simpl; try done.
  - by intros w' [-> ->].
  - by intros w' p [-> ->] _ _.
  - by intros w' label len [-> ->] _ _.
Qed.


(** *** decode_dns_name: names on the wire *)

Lemma byte_val_byte_of (n : nat) : n < 256 → byte_val (byte_of n) = n.
Proof.
  intros Hn. unfold byte_val, byte_of.
  destruct (Byte.of_nat n) as [b|] eqn:Hb; simpl.
  - by apply Byte.to_of_nat.
  - apply Byte.of_nat_None_iff in Hb. lia.
Qed.

Lemma byte_val_bounded (b : byte) : byte_val b < 256.
Proof. pose proof (Byte.to_nat_bounded b). unfold byte_val. lia. Qed.

Lemma land_192_label (n : nat) : n ≤ 63 → Nat.land n 192 = 0.
Proof.
  intros Hn. do 64 (destruct n as [|n]; [reflexivity|]). lia.
Qed.

Lemma encode_labels_cons (l : list byte) (ls : list (list byte)) :
  encode_labels (l :: ls) = byte_of (length l) :: l ++ encode_labels ls.
Proof. done. Qed.

Lemma py_index_Some (data : list byte) (i : nat) (b : byte) :
  data !! i = Some b → py_index data i = Returned b.
Proof. intros Hb. unfold py_index. by rewrite Hb. Qed.

(** One iteration on a label. *)
Lemma decode_loop_label (fuel : nat) (data : list byte) (w : name_walk) (b : byte) :
  data !! cursor w = Some b → 1 ≤ byte_val b ≤ 63 →
  cursor w + 1 + byte_val b ≤ length data →
  decode_loop (S fuel) data w =
  decode_loop fuel data
    (NameWalk
       (labels w ++ [utf8_decode_ignore
                       (py_slice data (cursor w + 1) (cursor w + 1 + byte_val b))])
       (cursor w + 1 + byte_val b)
       (if jumped w then end_offset w else cursor w + 1 + byte_val b)
       (jumped w) (seen_pointers w)).
Proof.
  intros Hb Hlen Hfit. cbn [decode_loop].
  assert (cursor w < length data) by (by eapply lookup_lt_Some).
  rewrite bool_decide_eq_false_2 by lia.
  rewrite (py_index_Some _ _ _ Hb). cbn [mbind outcome_bind].
  rewrite bool_decide_eq_false_2 by lia.
  rewrite land_192_label by lia.
  rewrite bool_decide_eq_false_2 by lia.
  rewrite bool_decide_eq_false_2 by (intros ?; done).
  rewrite bool_decide_eq_false_2 by lia. done.
Qed.

(** One iteration on the root label. *)
Lemma decode_loop_root (fuel : nat) (data : list byte) (w : name_walk) :
  data !! cursor w = Some x00 →
  decode_loop (S fuel) data w =
  Returned (NameWalk (labels w) (cursor w + 1)
              (if jumped w then end_offset w else cursor w + 1)
              (jumped w) (seen_pointers w)).
Proof.
  intros Hb. cbn [decode_loop].
  assert (cursor w < length data) by (by eapply lookup_lt_Some).
  rewrite bool_decide_eq_false_2 by lia.
  rewrite (py_index_Some _ _ _ Hb). done.
Qed.

(** One iteration on a compression pointer. *)
Lemma decode_loop_pointer (fuel : nat) (data : list byte) (w : name_walk) (p : nat) :
  pointer_at data (cursor w) = Some p →
  decode_loop (S fuel) data w =
  if bool_decide (p ∈ seen_pointers w) then Returned w
  else decode_loop fuel data
         (NameWalk (labels w) p
            (if jumped w then end_offset w else cursor w + 2)
            true (p :: seen_pointers w)).
Proof.
  unfold pointer_at. intros Hp.
  destruct (data !! cursor w) as [b|] eqn:Hb; [|done].
  destruct (data !! (cursor w + 1)) as [b1|] eqn:Hb1; [|done].
  case_bool_decide as Hbits; [|done]. injection Hp as <-.
  cbn [decode_loop].
  apply lookup_lt_Some in Hb as Hlt. apply lookup_lt_Some in Hb1 as Hlt1.
  rewrite bool_decide_eq_false_2 by lia.
  rewrite (py_index_Some _ _ _ Hb). cbn [mbind outcome_bind].
  assert (byte_val b ≠ 0) by (intros Hz; by rewrite Hz in Hbits).
  rewrite bool_decide_eq_false_2 by done.
  rewrite bool_decide_eq_true_2 by done.
  rewrite bool_decide_eq_false_2 by lia.
  rewrite (py_index_Some _ _ _ Hb1). done.
Qed.

(** A run of labels is walked one label per iteration. *)
Lemma walk_labels (ls : list (list byte)) (pre rest : list byte)
    (fuel : nat) (w : name_walk) :
  Forall label_ok ls → cursor w = length pre → end_offset w = cursor w →
  jumped w = false →
  decode_loop (length ls + fuel) (pre ++ encode_labels ls ++ rest) w =
  decode_loop fuel (pre ++ encode_labels ls ++ rest)
    (NameWalk (labels w ++ (utf8_decode_ignore <$> ls))
       (length pre + length (encode_labels ls))
       (length pre + length (encode_labels ls))
       false (seen_pointers w)).
Proof.
  revert pre w. induction ls as [|l ls IH]; intros pre w Hok Hcur Hend Hj.
  - destruct w as [lbs c e j seen]. simpl in *. subst.
    by rewrite ?app_nil_r, ?Nat.add_0_r.
  - apply Forall_cons in Hok as [[Hl1 Hl63] Hok].
    rewrite encode_labels_cons.
    remember (pre ++ (byte_of (length l) :: l ++ encode_labels ls) ++ rest)
      as data eqn:Hd.
    assert (Hdata : data = (pre ++ byte_of (length l) :: l) ++ encode_labels ls ++ rest).
    { subst data. by list_assoc. }
    assert (Hlen : length data =
      length pre + 1 + length l + length (encode_labels ls) + length rest).
    { subst data. rewrite !length_app. simpl. rewrite !length_app. lia. }
    assert (Hb : data !! cursor w = Some (byte_of (length l))).
    { subst data. rewrite Hcur. by rewrite lookup_app_r, Nat.sub_diag by lia. }
    change (length (l :: ls) + fuel) with (S (length ls + fuel)).
    rewrite (decode_loop_label _ _ _ _ Hb); rewrite byte_val_byte_of by lia;
      [|lia|lia].
    assert (Hslice : py_slice data (cursor w + 1) (cursor w + 1 + length l) = l).
    { rewrite Hcur. subst data.
      replace (pre ++ (byte_of (length l) :: l ++ encode_labels ls) ++ rest)
        with ((pre ++ [byte_of (length l)]) ++ l ++ (encode_labels ls ++ rest))
        by (by list_assoc).
      replace (length pre + 1) with (length (pre ++ [byte_of (length l)])).
      2:{ rewrite length_app. simpl. lia. }
      apply py_slice_app_middle. }
    rewrite Hslice, Hj, Hdata.
    rewrite (IH (pre ++ byte_of (length l) :: l)); simpl; try done.
    + do 2 f_equal; [by list_assoc|..];
        rewrite !length_app; simpl; rewrite ?length_app; lia.
    + rewrite length_app. simpl. lia.
Qed.


Lemma decode_dns_name_total (data : list byte) (offset : nat) :
  ∃ name end_, decode_dns_name data offset = Returned (name, end_).
Proof.
  destruct (decode_walk_total data offset) as [w Hw].
  unfold decode_dns_name. rewrite Hw. simpl. by eexists _, _.
Qed.

Lemma decode_dns_name_of_walk (fuel : nat) (data : list byte) (offset : nat)
    (w : name_walk) :
  decode_loop fuel data (NameWalk [] offset offset false []) = Returned w →
  offset < end_offset w →
  decode_dns_name data offset = Returned (name_of_labels (labels w), end_offset w).
Proof.
  intros Hrun Hend. destruct (decode_walk_total data offset) as [w' Hw'].
  assert (w' = w) as -> by (by eapply decode_loop_agree).
  unfold decode_dns_name. rewrite Hw'. simpl.
  by rewrite bool_decide_eq_false_2 by lia.
Qed.

Lemma encode_labels_length_pos (n : wire_name) : 0 < length (encode_name n).
Proof. unfold encode_name. rewrite length_app. destruct (name_tail n); simpl; lia. Qed.

(** After a name on the wire the decoder stands right behind it, whatever
    a pointer at its end leads to. *)
Lemma decode_dns_name_end (n : wire_name) (pre rest : list byte) :
  name_ok n →
  ∃ name, decode_dns_name (pre ++ encode_name n ++ rest) (length pre)
          = Returned (name, length pre + length (encode_name n)).
Proof.
  destruct n as [ls tail]. intros [Hls Htail]. unfold encode_name. simpl in *.
  set (pos := length pre + length (encode_labels ls)).
  pose (w0 := NameWalk [] (length pre) (length pre) false []).
  destruct tail as [|b0 b1].
  - remember (pre ++ (encode_labels ls ++ [x00]) ++ rest) as data eqn:Hd.
    assert (Hdata : data = pre ++ encode_labels ls ++ ([x00] ++ rest))
      by (subst; by list_assoc).
    eexists. rewrite length_app. simpl.
    replace (length pre + (length (encode_labels ls) + 1)) with (pos + 1) by (unfold pos; lia).
    assert (Hrun : decode_loop (length ls + 1) data w0 =
      Returned (NameWalk (utf8_decode_ignore <$> ls) (pos + 1) (pos + 1) false [])).
    { rewrite Hdata. rewrite walk_labels by done.
      rewrite decode_loop_root; [done|]. simpl.
      rewrite app_assoc. apply list_lookup_middle. by rewrite length_app. }
    apply decode_dns_name_of_walk in Hrun; [|simpl; unfold pos; lia]. apply Hrun.
  - remember (pre ++ (encode_labels ls ++ [b0; b1]) ++ rest) as data eqn:Hd.
    assert (Hdata : data = pre ++ encode_labels ls ++ ([b0; b1] ++ rest))
      by (subst; by list_assoc).
    assert (Hp : ∃ p, pointer_at data pos = Some p).
    { eexists. unfold pointer_at.
      assert (data !! pos = Some b0) as ->.
      { rewrite Hdata, app_assoc. apply list_lookup_middle.
        unfold pos. by rewrite length_app. }
      assert (data !! (pos + 1) = Some b1) as ->.
      { replace data with ((pre ++ encode_labels ls ++ [b0]) ++ b1 :: rest)
          by (subst; by list_assoc).
        apply list_lookup_middle. unfold pos. rewrite !length_app. simpl. lia. }
      by rewrite bool_decide_eq_true_2. }
    destruct Hp as [p Hp].
    set (w2 := NameWalk (utf8_decode_ignore <$> ls) p (pos + 2) true [p]).
    destruct (decode_loop_total (S (walk_measure data w2)) data w2) as [r Hr]; [lia|].
    destruct (decode_loop_jumped _ _ _ _ Hr) as [_ Hend]; [done|].
    rewrite length_app. simpl.
    replace (length pre + (length (encode_labels ls) + 2)) with (pos + 2) by (unfold pos; lia).
    assert (Hrun : decode_loop (length ls + S (S (walk_measure data w2))) data w0
                   = Returned r).
    { rewrite Hdata. rewrite walk_labels by done. rewrite <- Hdata.
      erewrite decode_loop_pointer by exact Hp. walk_fields.
      rewrite bool_decide_eq_false_2 by apply not_elem_of_nil. exact Hr. }
    apply decode_dns_name_of_walk in Hrun; [|rewrite Hend; simpl; unfold pos; lia].
    rewrite Hend in Hrun. simpl in Hrun. eexists. exact Hrun.
Qed.

(** A pointer that points at itself ends the walk: the labels before it
    are the name. *)
Lemma decode_dns_name_self_pointer (pre rest : list byte) (ls : list (list byte)) :
  Forall label_ok ls →
  let data := pre ++ encode_labels ls ++ rest in
  let pos := length pre + length (encode_labels ls) in
  pointer_at data pos = Some pos →
  decode_dns_name data (length pre)
  = Returned (name_of_labels (utf8_decode_ignore <$> ls), pos + 2).
Proof.
  intros Hls data pos Hp.
  pose (w0 := NameWalk [] (length pre) (length pre) false []).
  assert (Hrun : decode_loop (length ls + 2) data w0 =
    Returned (NameWalk (utf8_decode_ignore <$> ls) pos (pos + 2) true [pos])).
  { unfold data. rewrite walk_labels by done. fold data. fold pos.
    erewrite decode_loop_pointer by exact Hp. walk_fields.
    rewrite bool_decide_eq_false_2 by apply not_elem_of_nil.
    erewrite decode_loop_pointer by exact Hp. walk_fields.
    rewrite bool_decide_eq_true_2; [done|]. by left. }
  apply decode_dns_name_of_walk in Hrun; [done|]. simpl. unfold pos. lia.
Qed.


(** *** The claims on the codec *)

Lemma unpack_H_slice (payload : list byte) (lo hi : nat) :
  hi = lo + 2 → hi ≤ length payload →
  ∃ a b, payload !! lo = Some a ∧ payload !! (lo + 1) = Some b
    ∧ unpack_H (py_slice payload lo hi) = Returned (256 * byte_val a + byte_val b).
Proof.
  intros -> Hlen. unfold py_slice.
  replace (lo + 2 - lo) with 2 by lia.
  destruct (drop lo payload) as [|a [|b rest]] eqn:Hdrop.
  - apply (f_equal length) in Hdrop. rewrite length_drop in Hdrop. simpl in Hdrop. lia.
  - apply (f_equal length) in Hdrop. rewrite length_drop in Hdrop. simpl in Hdrop. lia.
  - exists a, b. split_and!; [| |done].
    + rewrite <- (Nat.add_0_r lo), <- lookup_drop, Hdrop. done.
    + rewrite <- lookup_drop, Hdrop. done.
Qed.

Lemma extract_query_domain_total (payload : list byte) :
  ∃ r, extract_query_domain payload = Returned r ∧ r ≠ Some "".
Proof.
  unfold extract_query_domain. case_bool_decide as Hlen; [by eexists|].
  destruct (unpack_H_slice payload 4 6) as (a & b & _ & _ & ->); [lia..|].
  cbn [mbind outcome_bind].
  case_bool_decide; [by eexists|].
  destruct (decode_dns_name_total payload 12) as (name & e & ->).
  cbn [mbind outcome_bind]. destruct name; by eexists.
Qed.

(** C10: [extract_query_domain] returns and never returns the empty
    string; when the name at offset 12 decodes to the empty name (the root
    domain, a malformed label sequence) it returns [None], as it does for a
    payload shorter than twelve bytes and for a question count of zero. *)
Theorem extract_query_domain_never_empty (payload : list byte) :
  (∃ r, extract_query_domain payload = Returned r ∧ r ≠ Some "")
  ∧ (∀ end_, decode_dns_name payload 12 = Returned ("", end_) →
       extract_query_domain payload = Returned None)
  ∧ (length payload < 12 → extract_query_domain payload = Returned None)
  ∧ (unpack_H (py_slice payload 4 6) = Returned 0 →
       extract_query_domain payload = Returned None).
Proof.
  split_and!.
  - apply extract_query_domain_total.
  - intros e Hname. unfold extract_query_domain.
    case_bool_decide as Hlen; [done|].
    destruct (unpack_H_slice payload 4 6) as (a & b & _ & _ & ->); [lia..|].
  cbn [mbind outcome_bind].
    case_bool_decide; [done|]. by rewrite Hname.
  - intros Hlen. unfold extract_query_domain. by rewrite bool_decide_eq_true_2.
  - intros Hq. unfold extract_query_domain. case_bool_decide; [done|].
    by rewrite Hq.
Qed.

(** *** decode_dns_name over ints *)

Lemma py_index_int_nat (data : list byte) (i : nat) :
  py_index_int data (Z.of_nat i) = py_index data i.
Proof.
  unfold py_index_int. rewrite bool_decide_eq_true_2 by lia. by rewrite Nat2Z.id.
Qed.

Lemma py_slice_int_nat {A} (l : list A) (lo hi : nat) :
  py_slice_int l (Z.of_nat lo) (Z.of_nat hi) = py_slice l lo hi.
Proof.
  unfold py_slice_int, slice_bound, py_slice.
  rewrite !bool_decide_eq_false_2 by lia.
  rewrite !Z2Nat.inj_min, !Nat2Z.id.
  destruct (decide (length l ≤ lo)) as [Hlo|Hlo].
  { rewrite (Nat.min_r lo) by lia. rewrite !drop_ge by lia. by rewrite !take_nil. }
  rewrite (Nat.min_l lo) by lia.
  destruct (decide (hi ≤ length l)) as [Hhi|Hhi].
  { by rewrite (Nat.min_l hi) by lia. }
  rewrite (Nat.min_r hi) by lia.
  rewrite !take_ge; [done|rewrite length_drop; lia..].
Qed.

(** At offsets that are not negative the loop over ints is the loop over
    naturals. *)
Lemma decode_loop_int_nat (fuel : nat) (data : list byte) (w : name_walk) :
  decode_loop_int fuel data (walk_int w)
  = w' ← decode_loop fuel data w; Returned (walk_int w').
Proof.
  revert w. induction fuel as [|fuel IH]; intros w; [done|].
  cbn [decode_loop_int decode_loop walk_int cursor_int labels_int end_offset_int
       jumped_int seen_pointers_int].
  rewrite (bool_decide_ext (Z.of_nat (length data) ≤ Z.of_nat (cursor w))%Z
             (length data ≤ cursor w)) by lia.
  case_bool_decide as Hend; [done|].
  rewrite py_index_int_nat.
  destruct (py_index data (cursor w)) as [b| |]; cbn [mbind outcome_bind]; [|done..].
  case_bool_decide as Hzero.
  { cbn [mbind outcome_bind]. unfold walk_int. walk_fields.
    destruct (jumped w); do 2 f_equal; lia. }
  case_bool_decide as Hptr.
  - rewrite (bool_decide_ext (Z.of_nat (length data) ≤ Z.of_nat (cursor w) + 1)%Z
               (length data ≤ cursor w + 1)) by lia.
    case_bool_decide as Hend1; [done|].
    replace (Z.of_nat (cursor w) + 1)%Z with (Z.of_nat (cursor w + 1)) by lia.
    rewrite py_index_int_nat.
    destruct (py_index data (cursor w + 1)) as [b1| |]; cbn [mbind outcome_bind];
      [|done..].
    case_bool_decide as Hseen; [done|].
    rewrite <- IH. unfold walk_int. walk_fields.
    replace (Z.of_nat (cursor w) + 2)%Z with (Z.of_nat (cursor w + 2)) by lia.
    by destruct (jumped w).
  - case_bool_decide as Hbad; [done|].
    rewrite (bool_decide_ext
               (Z.of_nat (length data) < Z.of_nat (cursor w) + 1 + Z.of_nat (byte_val b))%Z
               (length data < cursor w + 1 + byte_val b)) by lia.
    case_bool_decide as Hover.
    { cbn [mbind outcome_bind]. unfold walk_int. walk_fields.
      do 2 f_equal. lia. }
    rewrite <- IH. unfold walk_int. walk_fields.
    replace (Z.of_nat (cursor w) + 1)%Z with (Z.of_nat (cursor w + 1)) by lia.
    replace (Z.of_nat (cursor w + 1) + Z.of_nat (byte_val b))%Z
      with (Z.of_nat (cursor w + 1 + byte_val b)) by lia.
    rewrite py_slice_int_nat. by destruct (jumped w).
Qed.

Lemma decode_dns_name_int_walk (data : list byte) (offset : nat) :
  ∃ w, decode_walk data offset = Returned w
    ∧ decode_loop_int (length data + decode_fuel data) data
        (NameWalkInt [] (Z.of_nat offset) (Z.of_nat offset) false [])
      = Returned (walk_int w).
Proof.
  destruct (decode_walk_total data offset) as [w Hw]. exists w. split; [done|].
  change (NameWalkInt [] (Z.of_nat offset) (Z.of_nat offset) false [])
    with (walk_int (NameWalk [] offset offset false [])).
  rewrite decode_loop_int_nat.
  by rewrite (decode_loop_more_fuel _ _ _ _ _ Hw) by lia.
Qed.

(** At an offset that is not negative [decode_dns_name_int] is
    [decode_dns_name]. *)
Lemma decode_dns_name_int_nat (data : list byte) (offset : nat) :
  decode_dns_name_int data (Z.of_nat offset)
  = r ← decode_dns_name data offset; Returned (r.1, Z.of_nat r.2).
Proof.
  destruct (decode_dns_name_int_walk data offset) as (w & Hw & Hint).
  unfold decode_dns_name_int, decode_dns_name. rewrite Hint, Hw.
  cbn [mbind outcome_bind walk_int labels_int cursor_int end_offset_int fst snd].
  rewrite (bool_decide_ext (Z.of_nat (end_offset w) ≤ Z.of_nat offset)%Z
             (end_offset w ≤ offset)) by lia.
  by case_bool_decide.
Qed.

(** Below the buffer the first index raises. *)
Lemma decode_dns_name_int_below (data : list byte) (offset : Z) :
  (offset < - Z.of_nat (length data))%Z →
  decode_dns_name_int data offset = Raised IndexError.
Proof.
  intros Hlow. unfold decode_dns_name_int.
  replace (length data + decode_fuel data)
    with (S (length data + (length data + 1) * (length data + 1)))
    by (unfold decode_fuel; lia).
  cbn [decode_loop_int cursor_int].
  rewrite bool_decide_eq_false_2 by lia.
  unfold py_index_int.
  rewrite (bool_decide_eq_false_2 (0 ≤ offset)%Z) by lia.
  by rewrite (bool_decide_eq_false_2 (- Z.of_nat (length data) ≤ offset)%Z) by lia.
Qed.

(** C3, as amended: for every buffer and every offset that is not
    negative [decode_dns_name] returns (the loop runs out of neither fuel
    nor buffer: no index is read past the end); the pointer values it
    followed are pairwise distinct, since a value that was seen ends the
    walk; and a pointer that points at itself yields the name of the
    labels read before it: those that are not empty, joined by dots,
    without the dots at the ends, in lower case. *)
Theorem decode_dns_name_terminates (data : list byte) (offset : Z) :
  (0 ≤ offset)%Z →
  (∃ name end_, decode_dns_name_int data offset = Returned (name, end_))
  ∧ (∃ w, decode_loop_int (length data + decode_fuel data) data
            (NameWalkInt [] offset offset false []) = Returned w
          ∧ NoDup (seen_pointers_int w))
  ∧ (∀ fuel w p,
       pointer_at data (cursor w) = Some p → p ∈ seen_pointers w →
       decode_loop_int (S fuel) data (walk_int w) = Returned (walk_int w))
  ∧ (∀ pre ls rest,
       data = pre ++ encode_labels ls ++ rest → offset = Z.of_nat (length pre) →
       Forall label_ok ls →
       pointer_at data (length pre + length (encode_labels ls))
         = Some (length pre + length (encode_labels ls)) →
       decode_dns_name_int data offset
       = Returned
           (py_lower
              (py_strip_dots
                 (py_join "."
                    (filter (λ part, nonempty part = true)
                       (utf8_decode_ignore <$> ls)))),
            (offset + Z.of_nat (length (encode_labels ls)) + 2)%Z)).
Proof.
  intros Hpos. rewrite <- (Z2Nat.id offset Hpos).
  generalize (Z.to_nat offset). clear offset Hpos. intros offset.
  split_and!.
  - rewrite decode_dns_name_int_nat.
    destruct (decode_dns_name_total data offset) as (name & e & ->).
    by eexists _, _.
  - destruct (decode_dns_name_int_walk data offset) as (w & Hw & Hint).
    exists (walk_int w). split; [done|]. cbn [walk_int seen_pointers_int].
    eapply decode_loop_seen_NoDup; [exact Hw|]. simpl. constructor.
  - intros fuel w p Hp Hseen. rewrite decode_loop_int_nat.
    rewrite (decode_loop_pointer _ _ _ _ Hp).
    by rewrite bool_decide_eq_true_2.
  - intros pre ls rest -> Hoff Hls Hp. apply Nat2Z.inj in Hoff. subst offset.
    rewrite decode_dns_name_int_nat.
    rewrite decode_dns_name_self_pointer by done.
    cbn [mbind outcome_bind fst snd]. unfold name_of_labels. do 2 f_equal. lia.
Qed.

(** C2: on a query of twelve bytes or more [make_servfail] keeps the
    transaction id and the question count, sets the flag bytes to 0x81
    0x82, zeroes the answer, authority and additional counts and keeps the
    bytes after the header, where the question section is; on a shorter
    query it returns [None]. *)
Theorem make_servfail_header (query : list byte) :
  (12 ≤ length query →
     ∃ response, make_servfail query = Some response
       ∧ take 2 response = take 2 query
       ∧ py_slice response 2 4 = [x81; x82]
       ∧ py_slice response 4 6 = py_slice query 4 6
       ∧ unpack_H (py_slice response 6 8) = Returned 0
       ∧ unpack_H (py_slice response 8 10) = Returned 0
       ∧ unpack_H (py_slice response 10 12) = Returned 0
       ∧ drop 12 response = drop 12 query)
  ∧ (length query < 12 → make_servfail query = None).
Proof.
  split; [|apply make_servfail_short].
  intros Hlen. rewrite make_servfail_long by done. eexists. split; [done|].
  do 12 (destruct query as [|? query]; [simpl in Hlen; lia|]).
  by split_and!.
Qed.

(** The flag bytes 0x81 0x82: the response bit is set and the response
    code is 2, SERVFAIL. *)
Lemma servfail_flags :
  Nat.testbit (byte_val x81) 7 = true ∧ Nat.land (byte_val x82) 15 = 2.
Proof. done. Qed.

(** C9: on a query of twelve bytes or more the response of
    [make_servfail] is as long as the query and equal to it from offset 12
    on, so whatever sections follow the header are carried over as they
    are. *)
Theorem make_servfail_keeps_tail (query : list byte) :
  12 ≤ length query →
  ∃ response, make_servfail query = Some response
    ∧ length response = length query
    ∧ drop 12 response = drop 12 query
    ∧ ∀ i, 12 ≤ i → response !! i = query !! i.
Proof.
  intros Hlen. rewrite make_servfail_long by done. eexists. split; [done|].
  do 12 (destruct query as [|? query]; [simpl in Hlen; lia|]).
  split_and!; [done..|].
  intros i Hi. do 12 (destruct i as [|i]; [lia|]). done.
Qed.

Lemma skip_questions_total (n : nat) (payload : list byte) (offset : nat) :
  ∃ r, skip_questions n payload offset = Returned r.
Proof.
  revert offset. induction n as [|n IH]; intros offset; simpl; [by eexists|].
  destruct (decode_dns_name_total payload offset) as (name & e & ->).
  cbn [mbind outcome_bind].
  case_bool_decide; [by eexists|]. apply IH.
Qed.

Lemma py_sorted_empty : py_sorted ∅ = [].
Proof. unfold py_sorted. by rewrite elements_empty. Qed.

Lemma extract_answer_ips_servfail (query response : list byte) :
  make_servfail query = Some response →
  extract_answer_ips response = Returned [].
Proof.
  intros Hmk.
  destruct (decide (length query < 12)) as [Hshort|Hlong].
  { by rewrite make_servfail_short in Hmk. }
  rewrite make_servfail_long in Hmk by lia. injection Hmk as <-.
  do 12 (destruct query as [|? query]; [simpl in Hlong; lia|]).
  unfold extract_answer_ips. rewrite bool_decide_eq_false_2 by (simpl; lia).
  cbn [py_slice take drop app replicate Nat.sub unpack_H mbind outcome_bind].
  match goal with
  | |- context [skip_questions ?n ?p ?o] =>
      destruct (skip_questions_total n p o) as [[off|] ->]
  end; simpl; [|done].
  by rewrite py_sorted_empty.
Qed.

(** C8: when forwarding failed on a query of twelve bytes or more and the
    send to the client goes through, the client is sent the SERVFAIL built
    from the query, no address is extracted from it, and [record_event] is
    called with no address, under the domain of the query or [unknown].
    When its write goes through, the line of the event in the ordered log
    ends with an empty list of addresses, the time is added to the history
    of the domain, the addresses are left as they are and the counter
    grows by one. *)
Theorem servfail_event_has_no_ips (write : option py_error) (ts : string)
    (query : list byte) (m : DNSMiddleman) :
  12 ≤ length query →
  ∃ response d,
    make_servfail query = Some response
    ∧ extract_answer_ips response = Returned []
    ∧ extract_query_domain query = Returned d
    ∧ udp_iteration write ts query None true m
      = (m' ← record_event_call write ts (default "unknown" d) [] m;
         Returned (m', Some response))
    ∧ (write = None ∨ ordered_fp m = None →
       ∃ m',
         udp_iteration write ts query None true m = Returned (m', Some response)
         ∧ ordered_fp m'
           = (λ written,
                written +:+ "[" +:+ default "unknown" d +:+ "] @ [" +:+ ts
                +:+ "] using []" +:+ newline) <$> ordered_fp m
         ∧ domain_times m'
           = <[default "unknown" d :=
                 default [] (domain_times m !! default "unknown" d) ++ [ts]]>
               (domain_times m)
         ∧ domain_ips m' = domain_ips m
         ∧ query_count m' = query_count m + 1).
Proof.
  intros Hlen.
  destruct (make_servfail query) as [response|] eqn:Hmk.
  2:{ by rewrite make_servfail_long in Hmk. }
  pose proof (extract_answer_ips_servfail _ _ Hmk) as Hips.
  destruct (extract_query_domain_total query) as (d & Hd & _).
  exists response, d.
  assert (Hit : udp_iteration write ts query None true m
    = (m' ← record_event_call write ts (default "unknown" d) [] m;
       Returned (m', Some response))).
  { unfold udp_iteration. rewrite Hd. cbn [mbind outcome_bind].
    rewrite Hmk, Hips. done. }
  split_and!; [done..|].
  intros Hwrite.
  assert (Hcall : record_event_call write ts (default "unknown" d) [] m
                  = Returned (record_event ts (default "unknown" d) [] m)).
  { unfold record_event_call. destruct Hwrite as [->| ->]; [done|].
    by destruct write. }
  rewrite Hit, Hcall. cbn [mbind outcome_bind]. eexists. split; [done|].
  cbn [record_event ordered_fp domain_times domain_ips query_count].
  split_and!; [|done..].
  destruct (ordered_fp m) as [written|]; [|done].
  cbn [fmap option_fmap option_map]. f_equal. unfold event_line.
  cbn [py_join]. by rewrite !append_assoc.
Qed.


(** *** extract_answer_ips on messages in wire format *)

Lemma py_sorted_elem (s : gset string) (a : string) : a ∈ py_sorted s ↔ a ∈ s.
Proof. unfold py_sorted. by rewrite merge_sort_Permutation, elem_of_elements. Qed.

Lemma py_sorted_NoDup (s : gset string) : NoDup (py_sorted s).
Proof. unfold py_sorted. rewrite merge_sort_Permutation. apply NoDup_elements. Qed.

Lemma py_sorted_sorted (s : gset string) : StronglySorted String.le (py_sorted s).
Proof. unfold py_sorted. apply StronglySorted_merge_sort; apply _. Qed.

Lemma u16_length (n : nat) : length (u16 n) = 2.
Proof. done. Qed.

Lemma u32_length (n : N) : length (u32 n) = 4.
Proof. done. Qed.

Lemma u16_value (n : nat) :
  n < 256 * 256 →
  256 * byte_val (byte_of (n / 256)) + byte_val (byte_of (n `mod` 256)) = n.
Proof.
  intros Hn.
  rewrite !byte_val_byte_of.
  - symmetry. apply Nat.div_mod_eq.
  - apply Nat.mod_upper_bound. lia.
  - apply Nat.Div0.div_lt_upper_bound. lia.
Qed.

Lemma unpack_H_u16 (n : nat) : n < 256 * 256 → unpack_H (u16 n) = Returned n.
Proof. intros Hn. unfold u16, unpack_H. by rewrite u16_value. Qed.

Lemma unpack_HHIH_fixed (rtype rclass rdlen : nat) (ttl : N) :
  rtype < 256 * 256 → rclass < 256 * 256 → rdlen < 256 * 256 →
  ∃ ttl', unpack_HHIH (u16 rtype ++ u16 rclass ++ u32 ttl ++ u16 rdlen)
          = Returned (rtype, rclass, ttl', rdlen).
Proof.
  intros Ht Hc Hl. eexists. unfold u16, u32, unpack_HHIH.
  cbn [app fmap list_fmap]. by rewrite !u16_value.
Qed.

Lemma unpack_HHIH_total (bs : list byte) :
  length bs = 10 → ∃ r, unpack_HHIH bs = Returned r.
Proof.
  intros Hlen. do 10 (destruct bs as [|? bs]; [done|]).
  destruct bs; [|done]. by eexists.
Qed.

Lemma decode_dns_name_at_end (data : list byte) (offset : nat) :
  length data ≤ offset →
  decode_dns_name data offset = Returned (name_of_labels [], offset).
Proof.
  intros Hend. unfold decode_dns_name, decode_walk, decode_fuel.
  cbn [decode_loop cursor]. rewrite bool_decide_eq_true_2 by done.
  simpl. by rewrite bool_decide_eq_true_2.
Qed.


Lemma skip_questions_wire (qs : list question) (pre rest : list byte) :
  Forall (λ q, name_ok (q_name q)) qs →
  skip_questions (length qs)
    (pre ++ encode_questions qs ++ rest) (length pre)
  = Returned (Some (length pre + length (encode_questions qs))).
Proof.
  revert pre. induction qs as [|q qs IH]; intros pre Hok.
  - simpl. by rewrite Nat.add_0_r.
  - apply Forall_cons in Hok as [Hq Hok].
    change (encode_questions (q :: qs)) with (encode_question q ++ encode_questions qs).
    cbn [length skip_questions].
    destruct (decode_dns_name_end (q_name q) pre
                (u16 (q_type q) ++ u16 (q_class q) ++ encode_questions qs ++ rest) Hq)
      as [name Hname].
    replace (pre ++ (encode_question q ++ encode_questions qs) ++ rest)
      with (pre ++ encode_name (q_name q)
              ++ u16 (q_type q) ++ u16 (q_class q) ++ encode_questions qs ++ rest)
      by (unfold encode_question; by rewrite <- !app_assoc).
    rewrite Hname. cbn [mbind outcome_bind].
    rewrite bool_decide_eq_false_2.
    2:{ rewrite !length_app, !u16_length. lia. }
    replace (pre ++ encode_name (q_name q)
              ++ u16 (q_type q) ++ u16 (q_class q) ++ encode_questions qs ++ rest)
      with ((pre ++ encode_question q) ++ encode_questions qs ++ rest)
      by (unfold encode_question; by rewrite <- !app_assoc).
    replace (length pre + length (encode_name (q_name q)) + 4)
      with (length (pre ++ encode_question q)).
    2:{ unfold encode_question. rewrite !length_app, !u16_length. lia. }
    rewrite IH by done. do 2 f_equal. rewrite !length_app. lia.
Qed.

Lemma collect_answers_rr (n : nat) (r : resource_record) (pre rest : list byte)
    (ips : gset string) :
  rr_ok r →
  collect_answers (S n)
    (pre ++ encode_rr r ++ rest) (length pre) ips
  = collect_answers n
      (pre ++ encode_rr r ++ rest) (length pre + length (encode_rr r))
      (add_address r ips).
Proof.
  intros (Hname & Ht & Hc & Hl).
  set (fixed := u16 (rr_type r) ++ u16 (rr_class r) ++ u32 (rr_ttl r)
                ++ u16 (length (rr_rdata r))).
  assert (Hfixed : length fixed = 10) by done.
  remember (pre ++ encode_rr r ++ rest) as payload eqn:Hp.
  assert (Hp1 : payload = pre ++ encode_name (rr_name r) ++ fixed ++ rr_rdata r ++ rest).
  { subst payload. unfold encode_rr, fixed. by rewrite <- !app_assoc. }
  assert (Hlen : length payload = length pre + length (encode_name (rr_name r)) + 10
                                  + length (rr_rdata r) + length rest).
  { rewrite Hp1, !length_app, Hfixed. lia. }
  assert (Hrr : length (encode_rr r) = length (encode_name (rr_name r)) + 10
                                       + length (rr_rdata r)).
  { unfold encode_rr. rewrite !length_app, !u16_length, u32_length. lia. }
  cbn [collect_answers].
  destruct (decode_dns_name_end (rr_name r) pre (fixed ++ rr_rdata r ++ rest) Hname)
    as [name Hdec].
  rewrite <- Hp1 in Hdec. rewrite Hdec. cbn [mbind outcome_bind].
  set (off := length pre + length (encode_name (rr_name r))).
  rewrite bool_decide_eq_false_2 by (unfold off; lia).
  assert (Hs1 : py_slice payload off (off + 10) = fixed).
  { rewrite Hp1, app_assoc. unfold off.
    rewrite <- (length_app pre), <- Hfixed. apply py_slice_app_middle. }
  rewrite Hs1.
  destruct (unpack_HHIH_fixed (rr_type r) (rr_class r) (length (rr_rdata r)) (rr_ttl r))
    as [ttl' Hun]; [lia..|].
  fold fixed in Hun. rewrite Hun. cbn [mbind outcome_bind].
  rewrite bool_decide_eq_false_2 by (unfold off; lia).
  assert (Hs2 : py_slice payload (off + 10) (off + 10 + length (rr_rdata r)) = rr_rdata r).
  { rewrite Hp1. rewrite (app_assoc (encode_name _)), (app_assoc pre).
    replace (off + 10) with (length (pre ++ encode_name (rr_name r) ++ fixed)).
    2:{ rewrite !length_app, Hfixed. unfold off. lia. }
    apply py_slice_app_middle. }
  rewrite Hs2.
  replace (off + 10 + length (rr_rdata r)) with (length pre + length (encode_rr r))
    by (unfold off; lia).
  unfold add_address, address_of.
  case_bool_decide as Hclass.
  { rewrite bool_decide_eq_false_2 by done. done. }
  rewrite (bool_decide_eq_true_2 (rr_class r = 1)) by done.
  case_bool_decide as HA.
  { unfold inet_ntoa. rewrite bool_decide_eq_true_2 by tauto. done. }
  case_bool_decide as HAAAA; [|done].
  unfold inet_ntop. rewrite bool_decide_eq_true_2 by tauto. done.
Qed.

Lemma collect_answers_wire (rrs : list resource_record) (n : nat)
    (pre rest : list byte) (ips : gset string) :
  Forall rr_ok rrs →
  collect_answers (length rrs + n)
    (pre ++ encode_rrs rrs ++ rest) (length pre) ips
  = collect_answers n
      (pre ++ encode_rrs rrs ++ rest) (length pre + length (encode_rrs rrs))
      (list_to_set (omap (address_of) rrs) ∪ ips).
Proof.
  revert pre ips. induction rrs as [|r rrs IH]; intros pre ips Hok.
  - simpl. rewrite Nat.add_0_r. f_equal. by rewrite (left_id_L ∅ (∪)).
  - apply Forall_cons in Hok as [Hr Hok].
    change (encode_rrs (r :: rrs)) with (encode_rr r ++ encode_rrs rrs).
    change (length (r :: rrs) + n) with (S (length rrs + n)).
    rewrite <- (app_assoc (encode_rr r)).
    rewrite collect_answers_rr by done.
    rewrite (app_assoc pre).
    rewrite <- (length_app pre).
    rewrite IH by done.
    rewrite !length_app, Nat.add_assoc. f_equal.
    unfold add_address.
    change (omap (address_of) (r :: rrs)) with
      (match address_of r with
       | Some a => a :: omap (address_of) rrs
       | None => omap (address_of) rrs
       end).
    destruct (address_of r) as [a|]; [|done].
    rewrite list_to_set_cons, (assoc_L (∪)).
    by rewrite (comm_L (∪) _ {[a]}).
Qed.


Lemma collect_answers_truncated (n : nat) (pre tail : list byte) (ips : gset string) :
  truncated_rr tail →
  collect_answers (S n) (pre ++ tail) (length pre) ips
  = Returned ips.
Proof.
  intros [|nm fixed Hname Hshort|nm rtype rclass ttl rdlen rdata Hname Ht Hc Hl Hshort];
    cbn [collect_answers].
  - rewrite decode_dns_name_at_end by (rewrite length_app; simpl; lia).
    cbn [mbind outcome_bind].
    by rewrite bool_decide_eq_true_2 by (rewrite length_app; simpl; lia).
  - destruct (decode_dns_name_end nm pre fixed Hname) as [name ->].
    cbn [mbind outcome_bind].
    by rewrite bool_decide_eq_true_2 by (rewrite !length_app; lia).
  - set (fixed := u16 rtype ++ u16 rclass ++ u32 ttl ++ u16 rdlen).
    assert (Hfixed : length fixed = 10) by done.
    replace (pre ++ encode_name nm ++ u16 rtype ++ u16 rclass ++ u32 ttl
               ++ u16 rdlen ++ rdata)
      with (pre ++ encode_name nm ++ fixed ++ rdata)
      by (unfold fixed; by rewrite <- !app_assoc).
    destruct (decode_dns_name_end nm pre (fixed ++ rdata) Hname) as [name ->].
    cbn [mbind outcome_bind].
    rewrite bool_decide_eq_false_2 by (rewrite !length_app, Hfixed; lia).
    assert (Hs : py_slice (pre ++ encode_name nm ++ fixed ++ rdata)
                   (length pre + length (encode_name nm))
                   (length pre + length (encode_name nm) + 10) = fixed).
    { rewrite app_assoc, <- (length_app pre), <- Hfixed.
      apply py_slice_app_middle. }
    rewrite Hs.
    destruct (unpack_HHIH_fixed rtype rclass rdlen ttl) as [ttl' Hun]; [lia..|].
    fold fixed in Hun. rewrite Hun. cbn [mbind outcome_bind].
    by rewrite bool_decide_eq_true_2 by (rewrite !length_app, Hfixed; lia).
Qed.

Lemma collect_answers_total (n : nat) (payload : list byte) (offset : nat)
    (ips : gset string) :
  ∃ r, collect_answers n payload offset ips = Returned r.
Proof.
  revert offset ips. induction n as [|n IH]; intros offset ips; [by eexists|].
  cbn [collect_answers].
  destruct (decode_dns_name_total payload offset) as (name & e & ->).
  cbn [mbind outcome_bind].
  case_bool_decide as Hfix; [by eexists|].
  destruct (unpack_HHIH_total (py_slice payload e (e + 10)))
    as [[[[rtype rclass] ttl] rdlen] ->].
  { rewrite py_slice_length; lia. }
  cbn [mbind outcome_bind].
  case_bool_decide as Hdata; [by eexists|].
  assert (Hlen : length (py_slice payload (e + 10) (e + 10 + rdlen)) = rdlen).
  { rewrite py_slice_length; lia. }
  case_bool_decide; [apply IH|].
  case_bool_decide as HA.
  { unfold inet_ntoa. rewrite bool_decide_eq_true_2 by (rewrite Hlen; tauto).
    cbn [mbind outcome_bind]. apply IH. }
  case_bool_decide as HAAAA; [|apply IH].
  unfold inet_ntop. rewrite bool_decide_eq_true_2 by (rewrite Hlen; tauto).
  cbn [mbind outcome_bind]. apply IH.
Qed.

Lemma extract_answer_ips_total (payload : list byte) :
  ∃ ips, extract_answer_ips payload = Returned ips.
Proof.
  unfold extract_answer_ips. case_bool_decide as Hlen; [by eexists|].
  destruct (unpack_H_slice payload 4 6) as (a & b & _ & _ & ->); [lia..|].
  destruct (unpack_H_slice payload 6 8) as (c & d & _ & _ & ->); [lia..|].
  cbn [mbind outcome_bind].
  destruct (skip_questions_total (256 * byte_val a + byte_val b) payload 12)
    as [[off|] ->]; cbn [mbind outcome_bind]; [|by eexists].
  destruct (collect_answers_total (256 * byte_val c + byte_val d) payload off ∅)
    as [ips ->].
  by eexists.
Qed.

Lemma dns_header_length (id flags qd an ns ar : nat) :
  length (dns_header id flags qd an ns ar) = 12.
Proof. done. Qed.

Lemma extract_answer_ips_wire (id flags ancount nscount arcount : nat)
    (qs : list question) (rrs : list resource_record) (tail : list byte) :
  Forall (λ q, name_ok (q_name q)) qs → length qs < 256 * 256 →
  Forall rr_ok rrs → ancount < 256 * 256 →
  length rrs = ancount ∨ (length rrs < ancount ∧ truncated_rr tail) →
  extract_answer_ips
    (dns_header id flags (length qs) ancount nscount arcount
       ++ encode_questions qs ++ encode_rrs rrs ++ tail)
  = Returned (py_sorted (list_to_set (omap (address_of) rrs))).
Proof.
  intros Hqs Hqd Hrrs Han Hcount.
  set (header := dns_header id flags (length qs) ancount nscount arcount).
  remember (header ++ encode_questions qs ++ encode_rrs rrs ++ tail) as payload eqn:Hp.
  unfold extract_answer_ips.
  rewrite bool_decide_eq_false_2.
  2:{ subst payload. rewrite length_app. unfold header.
      rewrite dns_header_length. lia. }
  assert (Hqd' : py_slice payload 4 6 = u16 (length qs)).
  { subst payload. unfold header, dns_header.
    rewrite (app_assoc (u16 id)), <- !app_assoc.
    apply (py_slice_app_middle (u16 id ++ u16 flags) (u16 (length qs))). }
  assert (Han' : py_slice payload 6 8 = u16 ancount).
  { subst payload. unfold header, dns_header.
    rewrite (app_assoc (u16 id)), (app_assoc (u16 id ++ u16 flags)), <- !app_assoc.
    rewrite (app_assoc (u16 id)), (app_assoc (u16 id ++ u16 flags)).
    apply (py_slice_app_middle ((u16 id ++ u16 flags) ++ u16 (length qs)) (u16 ancount)). }
  rewrite Hqd', Han', !unpack_H_u16 by done.
  cbn [mbind outcome_bind].
  replace 12 with (length header) by done.
  rewrite Hp, skip_questions_wire by done. cbn [mbind outcome_bind].
  rewrite (app_assoc header), <- (length_app header).
  assert (Hempty : ∀ X : gset string, X ∪ ∅ = X) by (intros; apply (right_id_L ∅ (∪))).
  destruct Hcount as [<-|[Hlt Htrunc]].
  - rewrite <- (Nat.add_0_r (length rrs)) at 1.
    rewrite collect_answers_wire by done. cbn [collect_answers mbind outcome_bind].
    by rewrite Hempty.
  - replace ancount with (length rrs + S (ancount - length rrs - 1)) by lia.
    rewrite collect_answers_wire by done.
    rewrite (app_assoc _ (encode_rrs rrs)), <- (length_app _ (encode_rrs rrs)).
    rewrite collect_answers_truncated by done. cbn [mbind outcome_bind].
    by rewrite Hempty.
Qed.

(** C4, as amended: [extract_answer_ips] returns on every payload. On a
    message in wire format (header, questions, answer records with names
    that are well formed) it returns the sorted list, without repetition,
    of the addresses of the A and AAAA records of class IN: records of
    another type or class add nothing. When fewer records than the header
    declares fit, and the next one is cut by the end of the buffer in its
    ten fixed bytes or in its rdata, the result is that list for the
    records before it. *)
Theorem extract_answer_ips_addresses :
  (∀ payload, ∃ ips, extract_answer_ips payload = Returned ips)
  ∧ (∀ id flags ancount nscount arcount qs rrs tail,
       Forall (λ q, name_ok (q_name q)) qs → length qs < 256 * 256 →
       Forall rr_ok rrs → ancount < 256 * 256 →
       length rrs = ancount ∨ (length rrs < ancount ∧ truncated_rr tail) →
       ∃ ips,
         extract_answer_ips
           (dns_header id flags (length qs) ancount nscount arcount
              ++ encode_questions qs ++ encode_rrs rrs ++ tail)
         = Returned ips
         ∧ StronglySorted String.le ips ∧ NoDup ips
         ∧ ∀ a, a ∈ ips ↔ ∃ r, r ∈ rrs ∧ address_of r = Some a).
Proof.
  split; [apply extract_answer_ips_total|].
  intros id flags ancount nscount arcount qs rrs tail Hqs Hqd Hrrs Han Hcount.
  eexists. split; [by apply extract_answer_ips_wire|].
  split_and!.
  - apply py_sorted_sorted.
  - apply py_sorted_NoDup.
  - intros a. by rewrite py_sorted_elem, elem_of_list_to_set, list_elem_of_omap.
Qed.

End codec_facts.

(** *** The codec on examples *)

Section codec_examples.

#[local] Existing Instance example_platform.

Example extract_query_domain_example :
  extract_query_domain example_query = Returned (Some "example.com").
Proof. vm_compute. reflexivity. Qed.

(** A query for the root domain has no domain. *)
Example extract_query_domain_root :
  extract_query_domain (dns_header 1 256 1 0 0 0 ++ [x00; x00; x01; x00; x01])
  = Returned None.
Proof. vm_compute. reflexivity. Qed.

Example make_servfail_example :
  make_servfail example_query
  = Some ([x12; x34; x81; x82; x00; x01; x00; x00; x00; x00; x00; x00]
            ++ drop 12 example_query).
Proof. reflexivity. Qed.

(** A pointer at offset 4 that points to offset 4. *)
Example decode_dns_name_self_pointer_example :
  decode_dns_name [x03; x77; x77; x77; xc0; x04] 0 = Returned ("www", 6).
Proof. vm_compute. reflexivity. Qed.

(** Two pointers that point to each other. *)
Example decode_dns_name_pointer_cycle :
  decode_dns_name [xc0; x02; xc0; x00] 0 = Returned ("", 2).
Proof. vm_compute. reflexivity. Qed.

Example extract_answer_ips_example :
  extract_answer_ips example_response = Returned ["1.2.3.4"; "142.250.1.1"].
Proof. vm_compute. reflexivity. Qed.

Lemma make_servfail_keeps_tail_witness :
  ∃ response, make_servfail example_query = Some response
    ∧ length response = length example_query
    ∧ drop 12 response = drop 12 example_query
    ∧ ∀ i, 12 ≤ i → response !! i = example_query !! i.
Proof. apply (make_servfail_keeps_tail example_query). simpl. lia. Defined.

Lemma servfail_event_has_no_ips_witness :
  ∃ response d,
    make_servfail example_query = Some response
    ∧ extract_answer_ips response = Returned []
    ∧ extract_query_domain example_query = Returned d
    ∧ udp_iteration None "20240101-00:00:00" example_query None true
        started_middleman
      = (m' ← record_event_call None "20240101-00:00:00" (default "unknown" d) []
                started_middleman;
         Returned (m', Some response))
    ∧ (@None py_error = None ∨ ordered_fp started_middleman = None →
       ∃ m',
         udp_iteration None "20240101-00:00:00" example_query None true
           started_middleman
         = Returned (m', Some response)
         ∧ ordered_fp m'
           = (λ written,
                written +:+ "[" +:+ default "unknown" d +:+ "] @ ["
                +:+ "20240101-00:00:00" +:+ "] using []" +:+ newline)
             <$> ordered_fp started_middleman
         ∧ domain_times m'
           = <[default "unknown" d :=
                 default [] (domain_times started_middleman !! default "unknown" d)
                 ++ ["20240101-00:00:00"]]>
               (domain_times started_middleman)
         ∧ domain_ips m' = domain_ips started_middleman
         ∧ query_count m' = query_count started_middleman + 1).
Proof.
  apply (servfail_event_has_no_ips None "20240101-00:00:00" example_query
           started_middleman).
  simpl. lia.
Defined.

(** C3 as it was stated fails: the offset is an [int], and below the
    start of the buffer the first index raises [IndexError], on the empty
    buffer and on a buffer that holds a name. *)
Lemma decode_dns_name_negative_offset :
  decode_dns_name_int [] (-1) = Raised IndexError
  ∧ decode_dns_name_int [x03; x63; x6f; x6d; x00] (-6) = Raised IndexError.
Proof. split; apply decode_dns_name_int_below; simpl; lia. Qed.

(** From the other negative offsets the code reads from the end of the
    buffer. *)
Example decode_dns_name_from_the_end :
  decode_dns_name_int [x03; x63; x6f; x6d; x00] (-5) = Returned ("com", 0%Z).
Proof. vm_compute. reflexivity. Qed.

Lemma decode_dns_name_terminates_witness :
  (∃ name end_, decode_dns_name_int example_query 12 = Returned (name, end_))
  ∧ (∃ w, decode_loop_int (length example_query + decode_fuel example_query)
            example_query (NameWalkInt [] 12 12 false []) = Returned w
          ∧ NoDup (seen_pointers_int w))
  ∧ (∀ fuel w p,
       pointer_at example_query (cursor w) = Some p → p ∈ seen_pointers w →
       decode_loop_int (S fuel) example_query (walk_int w)
       = Returned (walk_int w))
  ∧ (∀ pre ls rest,
       example_query = pre ++ encode_labels ls ++ rest →
       12%Z = Z.of_nat (length pre) →
       Forall label_ok ls →
       pointer_at example_query (length pre + length (encode_labels ls))
         = Some (length pre + length (encode_labels ls)) →
       decode_dns_name_int example_query 12
       = Returned
           (py_lower
              (py_strip_dots
                 (py_join "."
                    (filter (λ part, nonempty part = true)
                       (utf8_decode_ignore <$> ls)))),
            (12 + Z.of_nat (length (encode_labels ls)) + 2)%Z)).
Proof. apply (decode_dns_name_terminates example_query 12). lia. Defined.

Lemma example_names_ok :
  Forall (λ q, name_ok (q_name q)) [Question example_com 1 1]
  ∧ Forall rr_ok example_answers.
Proof.
  assert (Hroot : name_ok example_com).
  { split; [|exact I]. unfold example_com. cbn [name_labels].
    repeat (apply Forall_cons_2; [unfold label_ok; simpl; lia|]).
    apply Forall_nil_2. }
  assert (Hptr : name_ok to_question_name).
  { split; [apply Forall_nil_2|reflexivity]. }
  split.
  - apply Forall_cons_2; [exact Hroot|apply Forall_nil_2].
  - unfold example_answers.
    repeat (apply Forall_cons_2;
              [split; [exact Hptr|cbn [rr_type rr_class rr_rdata length]; lia]|]).
    apply Forall_nil_2.
Qed.

Lemma extract_answer_ips_addresses_witness :
  ∃ ips,
    extract_answer_ips example_response = Returned ips
    ∧ StronglySorted String.le ips ∧ NoDup ips
    ∧ ∀ a, a ∈ ips ↔ ∃ r, r ∈ example_answers ∧ address_of r = Some a.
Proof.
  apply (proj2 extract_answer_ips_addresses (18 * 256 + 52) (129 * 256 + 128) 2 0 0
           [Question example_com 1 1] example_answers []).
  - apply example_names_ok.
  - cbn [length]. lia.
  - apply example_names_ok.
  - lia.
  - by left.
Defined.

(** C4 as it was stated fails: the only answer record of
    [cut_label_payload] starts with a label that declares 20 bytes where 14
    are left, so it would read past the end of the buffer; the loop does
    not stop there with the empty list it had collected, it reads the
    bytes of the label as a record and returns an address. *)
Lemma extract_answer_ips_cut_label :
  cut_label_payload !! 12 = Some x14
  ∧ length cut_label_payload < 12 + 1 + byte_val x14
  ∧ extract_answer_ips cut_label_payload = Returned ["1.2.3.4"]
  ∧ extract_answer_ips cut_label_payload ≠ Returned [].
Proof. vm_compute. split_and!; (done || lia). Qed.

End codec_examples.

(** *** Text *)

Lemma all_chars_append (p : ascii → bool) (a b : string) :
  all_chars p (a +:+ b) = all_chars p a && all_chars p b.
Proof.
  induction a as [|x a IH]; [done|]. rewrite append_cons. simpl.
  by rewrite IH, andb_assoc.
Qed.

Lemma lstrip_by_first (p : ascii → bool) (c : ascii) (s : string) :
  p c = false → lstrip_by p (String c s) = String c s.
Proof. intros Hc. simpl. by rewrite Hc. Qed.

Lemma rstrip_by_none (p : ascii → bool) (s : string) :
  all_chars (λ c, negb (p c)) s = true → rstrip_by p s = s.
Proof.
  induction s as [|c s IH]; [done|]. simpl. intros [Hc Hs]%andb_true_iff.
  rewrite IH by done. apply negb_true_iff in Hc. rewrite Hc. by destruct s.
Qed.

(** Stripping on the right leaves what stands before a part that is not
    stripped away. *)
Lemma rstrip_by_append (p : ascii → bool) (a b : string) :
  nonempty (rstrip_by p b) = true →
  rstrip_by p (a +:+ b) = a +:+ rstrip_by p b.
Proof.
  intros Hb. induction a as [|x a IH]; [done|].
  rewrite !append_cons. simpl. rewrite IH.
  destruct (a +:+ rstrip_by p b) eqn:Hab; [|done].
  destruct a; [|done]. rewrite append_nil_l in Hab. by rewrite Hab in Hb.
Qed.

Lemma rstrip_by_append_stripped (p : ascii → bool) (a b : string) :
  rstrip_by p b = "" → rstrip_by p (a +:+ b) = rstrip_by p a.
Proof.
  intros Hb. induction a as [|x a IH]; [done|].
  rewrite append_cons. simpl. by rewrite IH.
Qed.

(** *** The grammar of a line of the ordered log *)

Lemma until_rbracket_stop (g r : string) :
  all_chars not_rbracket g = true →
  until_rbracket (g +:+ String "]" r) = (g, String "]" r).
Proof.
  induction g as [|c g IH]; [done|]. rewrite append_cons. simpl.
  intros [Hc Hg]%andb_true_iff. unfold not_rbracket in Hc.
  apply negb_true_iff in Hc. rewrite Hc, IH by done. done.
Qed.

Lemma is_space_literals :
  is_space " " = true ∧ is_space "@" = false ∧ is_space "[" = false
  ∧ is_space "u" = false ∧ is_space "]" = false ∧ is_space "010" = true.
Proof. vm_compute. done. Qed.

Lemma ORDERED_LINE_RE_event_line (domain ts ips : string) :
  all_chars not_rbracket domain = true → all_chars not_rbracket ts = true →
  all_chars not_rbracket ips = true →
  ORDERED_LINE_RE
    ("[" +:+ domain +:+ "] @ [" +:+ ts +:+ "] using [" +:+ ips +:+ "]")
  = Some (domain, ts, ips).
Proof.
  intros Hd Ht Hi. rewrite !append_cons, !append_nil_l.
  destruct is_space_literals as (Hsp & Hat & Hlb & Hu & _ & _).
  unfold ORDERED_LINE_RE, skip_spaces.
  cbn [expect Ascii.eqb Bool.eqb mbind option_bind].
  rewrite until_rbracket_stop by done.
  cbn [expect expect_word lstrip_by Ascii.eqb Bool.eqb mbind option_bind].
  rewrite Hsp, Hat.
  cbn [expect expect_word lstrip_by Ascii.eqb Bool.eqb mbind option_bind].
  rewrite Hsp, Hlb.
  cbn [expect expect_word lstrip_by Ascii.eqb Bool.eqb mbind option_bind].
  rewrite until_rbracket_stop by done.
  cbn [expect expect_word lstrip_by Ascii.eqb Bool.eqb mbind option_bind].
  rewrite Hsp, Hu.
  cbn [expect expect_word lstrip_by Ascii.eqb Bool.eqb mbind option_bind].
  rewrite Hsp, Hlb.
  cbn [expect expect_word lstrip_by Ascii.eqb Bool.eqb mbind option_bind].
  change (ips +:+ "]") with (ips +:+ String "]" "").
  rewrite until_rbracket_stop by done.
  done.
Qed.

Lemma all_chars_impl (p q : ascii → bool) (s : string) :
  (∀ c, p c = true → q c = true) → all_chars p s = true → all_chars q s = true.
Proof.
  intros Hpq. induction s as [|c s IH]; [done|]. simpl.
  intros [Hc Hs]%andb_true_iff. by rewrite (Hpq c Hc), IH.
Qed.

Lemma is_ip_char_spec (c : ascii) :
  is_ip_char c = true →
  is_space c = false ∧ Ascii.eqb c "," = false ∧ not_rbracket c = true.
Proof.
  unfold is_ip_char, not_rbracket.
  intros [[H1 H2]%andb_true_iff H3]%andb_true_iff.
  by rewrite !negb_true_iff in *.
Qed.

Lemma lstrip_by_none (p : ascii → bool) (s : string) :
  all_chars (λ c, negb (p c)) s = true → lstrip_by p s = s.
Proof.
  destruct s as [|c s]; [done|]. simpl. intros [Hc _]%andb_true_iff.
  apply negb_true_iff in Hc. by rewrite Hc.
Qed.

Lemma nonempty_append_r (a b : string) : nonempty b = true → nonempty (a +:+ b) = true.
Proof. by destruct a. Qed.

Lemma rstrip_by_fixed (p : ascii → bool) (a b : string) :
  rstrip_by p b = b → nonempty b = true → rstrip_by p (a +:+ b) = a +:+ b.
Proof. intros Hb Hne. rewrite rstrip_by_append; rewrite Hb; done. Qed.

(** A line that starts and ends with brackets has nothing to strip, and
    the newline after it is stripped. *)
Lemma py_strip_bracketed (x : string) :
  py_strip (String "[" (x +:+ "]")) = String "[" (x +:+ "]")
  ∧ py_strip (String "[" (x +:+ "]") +:+ newline) = String "[" (x +:+ "]").
Proof.
  destruct is_space_literals as (_ & _ & Hlb & _ & Hrb & Hnl).
  unfold py_strip, strip_by. split.
  - rewrite lstrip_by_first by done.
    change (String "[" (x +:+ "]")) with (("[" +:+ x) +:+ "]") at 1.
    rewrite rstrip_by_fixed; [done| |done]. cbn [rstrip_by]. by rewrite Hrb.
  - rewrite append_cons, lstrip_by_first by done.
    change (String "[" ((x +:+ "]") +:+ newline))
      with (("[" +:+ (x +:+ "]")) +:+ newline).
    rewrite rstrip_by_append_stripped.
    + change ("[" +:+ x +:+ "]") with (("[" +:+ x) +:+ "]").
      rewrite rstrip_by_fixed; [done| |done]. cbn [rstrip_by]. by rewrite Hrb.
    + unfold newline. change (ascii_of_nat 10) with "010"%char.
      cbn [rstrip_by]. by rewrite Hnl.
Qed.

Lemma event_line_shape (domain ts : string) (ips : list string) :
  event_line domain ts ips
  = String "[" ((domain +:+ "] @ [" +:+ ts +:+ "] using [" +:+ py_join ", " ips)
                +:+ "]").
Proof. unfold event_line. by rewrite append_cons, append_nil_l, !append_assoc. Qed.

(** *** Splitting and joining the addresses *)

Lemma py_split_no_comma (a : string) :
  all_chars no_comma a = true → py_split "," a = [a].
Proof.
  induction a as [|c a IH]; [done|]. simpl. intros [Hc Ha]%andb_true_iff.
  unfold no_comma in Hc. apply negb_true_iff in Hc. by rewrite Hc, IH.
Qed.

Lemma py_split_at_comma (a b : string) :
  all_chars no_comma a = true →
  py_split "," (a +:+ String "," b) = a :: py_split "," b.
Proof.
  induction a as [|c a IH]; [done|]. rewrite append_cons. simpl.
  intros [Hc Ha]%andb_true_iff.
  unfold no_comma in Hc. apply negb_true_iff in Hc. by rewrite Hc, IH.
Qed.

Lemma py_split_join (pre ip : string) (rest : list string) :
  all_chars no_comma pre = true → Forall (λ x, all_chars no_comma x = true) (ip :: rest) →
  py_split "," (pre +:+ py_join ", " (ip :: rest))
  = (pre +:+ ip) :: (String " " <$> rest).
Proof.
  revert pre ip. induction rest as [|ip2 rest IH]; intros pre ip Hpre Hall.
  - apply Forall_cons in Hall as [Hip _]. simpl. apply py_split_no_comma.
    by rewrite all_chars_append, Hpre, Hip.
  - apply Forall_cons in Hall as [Hip Hall].
    change (py_join ", " (ip :: ip2 :: rest))
      with (ip +:+ ", " +:+ py_join ", " (ip2 :: rest)).
    rewrite <- append_assoc.
    change (", " +:+ py_join ", " (ip2 :: rest))
      with (String "," (" " +:+ py_join ", " (ip2 :: rest))).
    rewrite py_split_at_comma by (by rewrite all_chars_append, Hpre, Hip).
    by rewrite IH.
Qed.

Lemma py_join_first (sep : string) (c : ascii) (ip : string) (ips : list string) :
  ∃ x, py_join sep (String c ip :: ips) = String c x.
Proof. destruct ips; by eexists. Qed.

Section tailer_facts.

Context {platform : Platform}.

Lemma canonical_ip_chars (ip : string) :
  canonical_ip ip →
  all_chars (λ c, negb (is_space c)) ip = true
  ∧ all_chars no_comma ip = true ∧ all_chars not_rbracket ip = true.
Proof.
  intros (_ & _ & Hchars).
  split_and!; eapply all_chars_impl; try exact Hchars; intros c Hc;
    apply is_ip_char_spec in Hc as (Hs & Hcm & Hrb); unfold no_comma;
    by rewrite ?Hs, ?Hcm.
Qed.

Lemma py_strip_canonical (ip : string) : canonical_ip ip → py_strip ip = ip.
Proof.
  intros [Hsp _]%canonical_ip_chars. unfold py_strip, strip_by.
  by rewrite lstrip_by_none, rstrip_by_none.
Qed.

Lemma normalize_ip_canonical (ip : string) :
  canonical_ip ip →
  normalize_ip ip = Some ip ∧ normalize_ip (String " " ip) = Some ip.
Proof.
  intros Hip. pose proof (py_strip_canonical ip Hip) as Hstrip.
  destruct Hip as (Haddr & Hne & _).
  assert (Hsp : py_strip (String " " ip) = py_strip ip).
  { unfold py_strip, strip_by. cbn [lstrip_by].
    by rewrite (proj1 is_space_literals). }
  unfold normalize_ip. by rewrite Hsp, Hstrip, Hne.
Qed.

(** The loop over the parts keeps the addresses that are new, in order. *)
Lemma collect_ips_canonical (raws ips : list string) (seen : gset string)
    (acc : list string) :
  Forall2 (λ raw ip, normalize_ip raw = Some ip ∧ nonempty ip = true) raws ips →
  NoDup ips → (∀ ip, ip ∈ ips → ip ∉ seen) →
  collect_ips raws seen acc = acc ++ ips.
Proof.
  intros Hraws. revert seen acc.
  induction Hraws as [|raw ip raws ips [Hnorm Hne] _ IH]; intros seen acc Hnd Hnew.
  - by rewrite app_nil_r.
  - apply NoDup_cons in Hnd as [Hip Hnd]. cbn [collect_ips].
    rewrite Hnorm, Hne. rewrite bool_decide_eq_false_2 by (apply Hnew; by left).
    cbn [negb andb]. rewrite IH; [by rewrite <- app_assoc|done|].
    intros ip' Hin. apply not_elem_of_union. split.
    + apply not_elem_of_singleton. by intros ->.
    + apply Hnew. by right.
Qed.

Lemma py_join_canonical (ips : list string) :
  Forall canonical_ip ips →
  all_chars not_rbracket (py_join ", " ips) = true
  ∧ (ips ≠ [] → py_strip (py_join ", " ips) = py_join ", " ips
                ∧ nonempty (py_join ", " ips) = true).
Proof.
  induction 1 as [|ip ips Hip Hips [IHrb IHstrip]]; [done|].
  pose proof (canonical_ip_chars ip Hip) as (Hsp & _ & Hrb).
  pose proof (py_strip_canonical ip Hip) as Hstrip.
  destruct Hip as (_ & Hne & _).
  destruct ips as [|ip2 ips]; [done|].
  change (py_join ", " (ip :: ip2 :: ips))
    with (ip +:+ ", " +:+ py_join ", " (ip2 :: ips)).
  destruct IHstrip as [IHstrip IHne]; [done|].
  split.
  - rewrite !all_chars_append, Hrb, IHrb. done.
  - intros _. split; [|by destruct ip].
    unfold py_strip, strip_by in *.
    destruct ip as [|c ip]; [done|].
    rewrite append_cons. cbn [all_chars] in Hsp.
    apply andb_true_iff in Hsp as [Hc _]. apply negb_true_iff in Hc.
    rewrite lstrip_by_first by done. rewrite <- append_cons.
    rewrite rstrip_by_fixed; [done| |by apply nonempty_append_r].
    rewrite rstrip_by_fixed; [done| |done].
    destruct ip2 as [|c2 ip2]; [by apply Forall_cons in Hips as [(_ & ? & _) _]|].
    apply Forall_cons in Hips as [Hip2 _].
    pose proof (canonical_ip_chars _ Hip2) as (Hsp2 & _ & _).
    cbn [all_chars] in Hsp2. apply andb_true_iff in Hsp2 as [Hc2 _].
    apply negb_true_iff in Hc2.
    destruct (py_join_first ", " c2 ip2 ips) as [x Hx]. rewrite Hx in *.
    by rewrite lstrip_by_first in IHstrip by done.
Qed.

Lemma parse_ips_canonical (ips : list string) :
  Forall canonical_ip ips → NoDup ips →
  (if nonempty (py_strip (py_join ", " ips))
   then collect_ips (py_split "," (py_strip (py_join ", " ips))) ∅ []
   else []) = ips.
Proof.
  intros Hips Hnd. destruct ips as [|ip rest]; [done|].
  destruct (py_join_canonical _ Hips) as [_ [-> ->]]; [done|].
  rewrite <- (append_nil_l (py_join ", " (ip :: rest))).
  rewrite py_split_join; [|done|].
  2:{ eapply Forall_impl; [exact Hips|]. intros x Hx.
      by apply canonical_ip_chars in Hx as (_ & ? & _). }
  rewrite append_nil_l.
  apply (collect_ips_canonical _ (ip :: rest) ∅ []); [|done|set_solver].
  apply Forall_cons in Hips as [Hip Hrest]. constructor.
  - split; [by apply normalize_ip_canonical|by destruct Hip as (_ & ? & _)].
  - clear -Hrest. induction Hrest as [|x l Hx _ IH]; [constructor|].
    cbn [fmap list_fmap]. constructor; [|done].
    split; [by apply normalize_ip_canonical|by destruct Hx as (_ & ? & _)].
Qed.

(** C6, as amended: a record whose domain has no closing bracket and is
    already as the parser writes a domain (stripped of white space, in
    lower case, stripped of dots), whose time has no closing bracket and no
    white space around it, and whose addresses are distinct canonical
    texts, is read back from its line as it was written, with or without
    the newline. *)
Theorem event_line_roundtrip (domain ts : string) (ips : list string) :
  all_chars not_rbracket domain = true →
  py_strip_dots (py_lower (py_strip domain)) = domain →
  all_chars not_rbracket ts = true → py_strip ts = ts →
  Forall canonical_ip ips → NoDup ips →
  parse_ordered_line (event_line domain ts ips) = Some (domain, ts, ips)
  ∧ parse_ordered_line (event_line domain ts ips +:+ newline)
    = Some (domain, ts, ips).
Proof.
  intros Hd Hdn Ht Htn Hips Hnd.
  destruct (py_join_canonical ips Hips) as [Hj _].
  pose proof (ORDERED_LINE_RE_event_line domain ts (py_join ", " ips) Hd Ht Hj)
    as Hre.
  fold (event_line domain ts ips) in Hre.
  assert (Hparse : ∀ line, py_strip line = event_line domain ts ips →
    parse_ordered_line line = Some (domain, ts, ips)).
  { intros line Hline. unfold parse_ordered_line. rewrite Hline, Hre.
    cbn [mbind option_bind]. by rewrite Hdn, Htn, parse_ips_canonical. }
  split; apply Hparse; rewrite event_line_shape.
  - apply (proj1 (py_strip_bracketed _)).
  - apply (proj2 (py_strip_bracketed _)).
Qed.

End tailer_facts.

(** *** consume_new_events *)

Lemma readline_unterminated (frag : string) :
  all_chars not_line_end frag = true → readline frag = (frag, "").
Proof.
  induction frag as [|c frag IH]; [done|]. simpl.
  intros [Hc Hfrag]%andb_true_iff. unfold not_line_end, is_line_end in Hc.
  apply negb_true_iff, orb_false_iff in Hc as [-> ->]. by rewrite IH.
Qed.

(** A read takes at least one character off a text that is not empty. *)
Lemma readline_progress (s : string) :
  nonempty s = true →
  nonempty (readline s).1 = true
  ∧ String.length (readline s).2 < String.length s.
Proof.
  induction s as [|c s IH]; [done|]. intros _. simpl.
  destruct (Ascii.eqb c "010"); [simpl; split; [done|lia]|].
  destruct (Ascii.eqb c "013").
  { simpl. split; [done|]. destruct s as [|c' s]; [simpl; lia|].
    destruct (Ascii.eqb c' "010"); simpl; lia. }
  destruct s as [|c' s]; [simpl; split; [done|lia]|].
  destruct IH as [_ IH]; [done|].
  destruct (readline (String c' s)) as [line rest]. simpl in *. split; [done|lia].
Qed.

Lemma seek_append (body frag : string) :
  seek (String.length body) (body +:+ frag) = frag.
Proof. induction body as [|c body IH]; [by destruct frag|]. done. Qed.

Lemma seek_length (n : nat) (s : string) :
  String.length (seek n s) = String.length s - n.
Proof.
  revert s. induction n as [|n IH]; intros s; [simpl; lia|].
  destruct s as [|c s]; [done|]. simpl. apply IH.
Qed.

Lemma string_length_0 (s : string) : String.length s = 0 → s = "".
Proof. by destruct s. Qed.

Lemma nonempty_length (s : string) : nonempty s = true ↔ 0 < String.length s.
Proof. destruct s; simpl; split; (done || lia). Qed.

Lemma readline_empty_line (s : string) : (readline s).1 = "" → s = "".
Proof.
  destruct s as [|c s]; [done|]. intros Hline.
  pose proof (readline_progress (String c s) eq_refl) as [Hne _].
  by rewrite Hline in Hne.
Qed.

Lemma readline_terminated (line rest : string) :
  all_chars not_line_end line = true →
  readline (line +:+ newline +:+ rest) = (line +:+ newline, rest).
Proof.
  induction line as [|c line IH]; [done|]. rewrite !append_cons. cbn [readline all_chars].
  intros [Hc Hline]%andb_true_iff. unfold not_line_end, is_line_end in Hc.
  apply negb_true_iff, orb_false_iff in Hc as [-> ->]. by rewrite IH.
Qed.

(** A line of a text that ends with a newline is read the same when more
    text follows, and what is left ends with a newline too or is empty. *)
Lemma readline_append (rest text : string) :
  ends_with_newline rest = true →
  readline (rest +:+ text) = ((readline rest).1, (readline rest).2 +:+ text)
  ∧ ((readline rest).2 = "" ∨ ends_with_newline (readline rest).2 = true).
Proof.
  induction rest as [|c rest IH]; [done|]. intros Hend.
  rewrite append_cons. cbn [readline].
  destruct (Ascii.eqb c "010") eqn:Hnl.
  { cbn [fst snd]. split; [done|]. destruct rest; [by left|by right]. }
  destruct rest as [|c' rest].
  { simpl in Hend. congruence. }
  assert (Hend' : ends_with_newline (String c' rest) = true) by done.
  destruct (Ascii.eqb c "013").
  - rewrite append_cons. destruct (Ascii.eqb c' "010"); cbn [fst snd].
    + split; [done|]. destruct rest; [by left|by right].
    + split; [done|]. by right.
  - destruct (IH Hend') as [-> Hleft].
    destruct (readline (String c' rest)) as [line left]. done.
Qed.

(** *** tell *)

Lemma place_of_tell (text : string) (place : nat) : place_of (tell text place) = place.
Proof. unfold tell. by destruct (plain_prefix place text). Qed.

Lemma plain_prefix_append (n : nat) (text more : string) :
  n ≤ String.length text → plain_prefix n (text +:+ more) = plain_prefix n text.
Proof.
  revert text. induction n as [|n IH]; intros text Hn; [done|].
  destruct text as [|c text]; [simpl in Hn; lia|].
  rewrite append_cons. cbn [plain_prefix]. destruct n as [|n]; [done|].
  rewrite IH; [done|]. simpl in Hn. lia.
Qed.

Lemma tell_append (n : nat) (text more : string) :
  n ≤ String.length text → tell (text +:+ more) n = tell text n.
Proof. intros Hn. unfold tell. by rewrite plain_prefix_append. Qed.

(** The whole of an ASCII text that ends with a newline is plain. *)
Lemma plain_prefix_whole (text : string) :
  all_chars is_ascii text = true → ends_with_newline text = true →
  plain_prefix (String.length text) text = true.
Proof.
  induction text as [|c text IH]; [done|]. cbn [all_chars String.length plain_prefix].
  intros [Hc Htext]%andb_true_iff Hend. rewrite Hc. cbn [andb].
  destruct text as [|c' text].
  - cbn [String.length]. cbn [ends_with_newline] in Hend.
    apply Ascii.eqb_eq in Hend. by subst c.
  - cbn [String.length]. apply IH; done.
Qed.

Section consume_facts.

Context {platform : Platform}.

Lemma consume_line_consumed_bytes (line : string) (pos : file_position)
    (p : process) :
  consumed_bytes (state (consume_line line pos p)) = pos.
Proof.
  unfold consume_line. destruct (parse_ordered_line line) as [[[d t] ips]|]; [|done].
  cbn zeta. by destruct (is_target_domain _ _).
Qed.

(** The loop returns, with the cursor behind the text when it read a
    line. *)
Lemma read_loop_cursor (fuel : nat) (text rest : string) (p : process) :
  String.length rest < fuel →
  ∃ p', read_loop fuel text rest p = Returned p'
    ∧ consumed_bytes (state p')
      = if nonempty rest then tell text (String.length text)
        else consumed_bytes (state p).
Proof.
  revert rest p. induction fuel as [|fuel IH]; intros rest p Hfuel; [lia|].
  cbn [read_loop]. destruct (readline rest) as [line rest'] eqn:Hread.
  destruct (nonempty line) eqn:Hline.
  - assert (Hrest : nonempty rest = true).
    { destruct rest; [|done]. simpl in Hread. by simplify_eq. }
    pose proof (readline_progress rest Hrest) as [_ Hless].
    rewrite Hread in Hless. cbn [snd] in Hless. rewrite Hrest.
    destruct (IH rest' (consume_line line
                          (tell text (String.length text - String.length rest')) p))
      as (p' & -> & Hcur); [lia|].
    exists p'. split; [done|]. rewrite Hcur, consume_line_consumed_bytes.
    destruct rest' as [|c r]; [|done]. cbn [nonempty String.length].
    by rewrite Nat.sub_0_r.
  - assert (rest = "") as ->.
    { apply readline_empty_line. rewrite Hread. by destruct line. }
    by eexists.
Qed.

Lemma read_loop_fuel (fuel fuel' : nat) (text rest : string) (p : process) :
  String.length rest < fuel → String.length rest < fuel' →
  read_loop fuel text rest p = read_loop fuel' text rest p.
Proof.
  revert fuel' rest p. induction fuel as [|fuel IH]; intros fuel' rest p H1 H2; [lia|].
  destruct fuel' as [|fuel']; [lia|]. cbn [read_loop].
  destruct (readline rest) as [line rest'] eqn:Hread.
  destruct (nonempty line) eqn:Hline; [|done].
  assert (Hrest : nonempty rest = true).
  { destruct rest; [|done]. simpl in Hread. by simplify_eq. }
  pose proof (readline_progress rest Hrest) as [_ Hless].
  rewrite Hread in Hless. cbn [snd] in Hless. apply IH; lia.
Qed.

(** Where the cursor is after a call. *)
Lemma consume_new_events_place (text : string) (p : process) :
  ∃ p', consume_new_events (Some text) p = Returned p'
    ∧ place_of (consumed_bytes (state p'))
      = place_of (consumed_bytes (state p)) `max` String.length text
    ∧ (place_of (consumed_bytes (state p)) < String.length text →
       consumed_bytes (state p') = tell text (String.length text)).
Proof.
  unfold consume_new_events.
  destruct (read_loop_cursor (S (String.length text)) text
              (seek (place_of (consumed_bytes (state p))) text) p)
    as (p' & Hrun & Hcur).
  { rewrite seek_length. lia. }
  exists p'. split; [done|]. rewrite Hcur. destruct (nonempty _) eqn:Hne.
  - apply nonempty_length in Hne. rewrite seek_length in Hne.
    rewrite place_of_tell. split; [lia|done].
  - destruct (seek _ text) eqn:Hseek; [|done].
    apply (f_equal String.length) in Hseek. rewrite seek_length in Hseek.
    simpl in Hseek. split; lia.
Qed.

(** Reading a text that ends with a newline, and then what follows it,
    is reading both. *)
Lemma read_loop_append (fuel : nat) (text rest more : string) (p : process) :
  String.length (rest +:+ more) < fuel →
  String.length rest ≤ String.length text →
  rest = "" ∨ ends_with_newline rest = true →
  ∃ p1, read_loop fuel text rest p = Returned p1
    ∧ read_loop fuel (text +:+ more) (rest +:+ more) p
      = read_loop fuel (text +:+ more) more p1.
Proof.
  revert rest p. induction fuel as [|fuel IH]; intros rest p Hfuel Hsize Hend; [lia|].
  destruct Hend as [->|Hend].
  { exists p. by destruct fuel. }
  destruct (readline_append rest more Hend) as [Happ Hleft].
  assert (Hrest : nonempty rest = true) by (by destruct rest).
  pose proof (readline_progress rest Hrest) as [Hline Hless].
  rewrite append_length in Hfuel.
  assert (Hlen : 0 < String.length rest) by (by apply nonempty_length).
  destruct (readline rest) as [line left] eqn:Hread. cbn [fst snd] in *.
  destruct (IH left (consume_line line
                       (tell text (String.length text - String.length left)) p))
    as (p1 & Hrun & Hrun'); [rewrite append_length; lia|lia|done|].
  exists p1. split.
  { cbn [read_loop]. by rewrite Hread, Hline. }
  rewrite (read_loop_fuel (S fuel) fuel _ more) by lia.
  cbn [read_loop]. rewrite Happ, Hline.
  replace (String.length (text +:+ more) - String.length (left +:+ more))
    with (String.length text - String.length left)
    by (rewrite !append_length; lia).
  rewrite tell_append by lia. done.
Qed.

(** Lines that stand whole in what is left are read one by one. *)
Lemma read_loop_lines (lines : list string) (fuel place : nat) (text : string)
    (p : process) :
  Forall (λ line, all_chars not_line_end line = true) lines →
  String.length (lines_text lines) < fuel →
  String.length text = place + String.length (lines_text lines) →
  read_loop fuel text (lines_text lines) p
  = Returned (read_lines text place lines p).
Proof.
  intros Hall. revert fuel place p.
  induction Hall as [|line lines Hline Hall IH]; intros fuel place p Hfuel Hlen.
  { destruct fuel as [|fuel]; [simpl in Hfuel; lia|]. done. }
  destruct fuel as [|fuel]; [lia|].
  cbn [lines_text read_lines] in *. rewrite !append_length in Hfuel, Hlen.
  change (String.length newline) with 1 in Hfuel, Hlen.
  cbn [read_loop]. rewrite readline_terminated by done.
  assert (nonempty (line +:+ newline) = true) as -> by (by apply nonempty_append_r).
  replace (String.length text - String.length (lines_text lines))
    with (place + String.length line + 1) by lia.
  apply IH; lia.
Qed.

Lemma read_lines_place (text : string) (place : nat) (lines : list string)
    (p : process) :
  lines ≠ [] →
  place_of (consumed_bytes (state (read_lines text place lines p)))
  = place + String.length (lines_text lines).
Proof.
  revert place p. induction lines as [|line lines IH]; intros place p Hne; [done|].
  cbn [read_lines lines_text]. rewrite !append_length.
  change (String.length newline) with 1.
  destruct lines as [|line' lines].
  - cbn [read_lines lines_text String.length].
    rewrite consume_line_consumed_bytes, place_of_tell. lia.
  - rewrite IH by done. lia.
Qed.

Lemma consume_line_total (line : string) (pos : file_position) (p : process) :
  total_dns_events (state (consume_line line pos p))
  = total_dns_events (state p)
    + (if bool_decide (is_Some (parse_ordered_line line)) then 1 else 0).
Proof.
  unfold consume_line. destruct (parse_ordered_line line) as [[[d t] ips]|].
  - rewrite bool_decide_eq_true_2 by done. cbn zeta.
    by destruct (is_target_domain _ _).
  - rewrite bool_decide_eq_false_2 by (by intros [? ?]). cbn. lia.
Qed.

Lemma read_lines_total (text : string) (place : nat) (lines : list string)
    (p : process) :
  total_dns_events (state (read_lines text place lines p))
  = total_dns_events (state p)
    + length (filter (λ line, is_Some (parse_ordered_line (line +:+ newline)))
                lines).
Proof.
  revert place p. induction lines as [|line lines IH]; intros place p.
  { cbn. lia. }
  cbn [read_lines]. rewrite IH, consume_line_total, filter_cons.
  case_bool_decide as Hparse.
  - rewrite decide_True by done. cbn [length]. lia.
  - rewrite decide_False by done. lia.
Qed.

(** C1, as amended: when every line of the log is terminated (the log is
    empty or ends with a newline), [consume_new_events] leaves the cursor
    at the end of the log, behind the last terminator; the number it holds
    is the length of the log when the log is ASCII. When lines are
    appended whole later, the next call reads each of them once, in order,
    as a line with its terminator: the state is updated by the body of the
    loop on each, every line that matches the line grammar is counted as
    one event, and the cursor ends behind the last line. *)
Theorem consume_new_events_whole_lines (text : string) (lines : list string)
    (p : process) :
  text = "" ∨ ends_with_newline text = true →
  place_of (consumed_bytes (state p)) ≤ String.length text →
  Forall (λ line, all_chars not_line_end line = true) lines →
  ∃ p1,
    consume_new_events (Some text) p = Returned p1
    ∧ place_of (consumed_bytes (state p1)) = String.length text
    ∧ (all_chars is_ascii text = true →
       place_of (consumed_bytes (state p)) < String.length text →
       consumed_bytes (state p1) = Offset (String.length text))
    ∧ consume_new_events (Some (text +:+ lines_text lines)) p1
      = Returned (read_lines (text +:+ lines_text lines) (String.length text)
                    lines p1)
    ∧ total_dns_events
        (state (read_lines (text +:+ lines_text lines) (String.length text)
                  lines p1))
      = total_dns_events (state p1)
        + length (filter (λ line, is_Some (parse_ordered_line (line +:+ newline)))
                    lines)
    ∧ (lines ≠ [] →
       place_of
         (consumed_bytes
            (state (read_lines (text +:+ lines_text lines) (String.length text)
                      lines p1)))
       = String.length (text +:+ lines_text lines)).
Proof.
  intros Hend Hcur Hlines.
  destruct (consume_new_events_place text p) as (p1 & Hp1 & Hplace & Htell).
  exists p1. split; [done|].
  assert (Hplace1 : place_of (consumed_bytes (state p1)) = String.length text) by lia.
  split_and!.
  - done.
  - intros Hascii Hless. rewrite (Htell Hless). unfold tell.
    destruct Hend as [->|Hend]; [simpl in Hless; lia|].
    by rewrite plain_prefix_whole.
  - unfold consume_new_events. rewrite Hplace1, seek_append.
    rewrite (read_loop_fuel _ (S (String.length (lines_text lines))))
      by (rewrite ?append_length; lia).
    apply read_loop_lines; [done|lia|]. by rewrite append_length.
  - apply read_lines_total.
  - intros Hne. rewrite read_lines_place by done. by rewrite append_length.
Qed.

End consume_facts.

(** *** The store of sets *)

Lemma deref_alter_ne (f : gset string → gset string) (h : store) (r r' : ref) :
  r ≠ r' → deref (alter f r h) r' = deref h r'.
Proof. intros Hne. unfold deref. by rewrite list_lookup_alter_ne. Qed.

Lemma deref_alter_grow (f : gset string → gset string) (h : store) (r r' : ref) :
  (∀ s, s ⊆ f s) → deref h r' ⊆ deref (alter f r h) r'.
Proof.
  intros Hf. destruct (decide (r = r')) as [<-|Hne].
  - unfold deref. rewrite list_lookup_alter, decide_True by done.
    destruct (h !! r); simpl; [apply Hf|done].
  - by rewrite deref_alter_ne.
Qed.

Lemma deref_app_l (h l : store) (r : ref) :
  r < length h → deref (h ++ l) r = deref h r.
Proof. intros Hr. unfold deref. by rewrite lookup_app_l. Qed.

Lemma deref_app_new (h : store) (s : gset string) : deref (h ++ [s]) (length h) = s.
Proof. unfold deref. by rewrite list_lookup_middle. Qed.

Lemma tailed_refl (p : process) : tailed p p.
Proof. unfold tailed. by split_and!. Qed.

Lemma tailed_trans (p1 p2 p3 : process) : tailed p1 p2 → tailed p2 p3 → tailed p1 p3.
Proof.
  unfold tailed.
  intros (Hy & Hb & Ho & Hu & Ha & Hl & Ht & Hc & Hn & Hsame & Hgrow)
         (Hy' & Hb' & Ho' & Hu' & Ha' & Hl' & Ht' & Hc' & Hn' & Hsame' & Hgrow').
  split_and!; try congruence.
  - intros r H1 H2 H3. rewrite Hsame' by congruence. by apply Hsame.
  - intros r. etrans; [apply Hgrow|apply Hgrow'].
Qed.

Section tailing_facts.

Context {platform : Platform}.

Lemma consume_line_tailed (line : string) (pos : file_position) (p : process) :
  tailed p (consume_line line pos p).
Proof.
  unfold consume_line.
  destruct (parse_ordered_line line) as [[[d t] ips]|]; cbn zeta;
    [destruct (is_target_domain _ _)|]; unfold tailed;
    cbn [state heap with_target_event with_one_more_event with_consumed_bytes
         youtube_ips blocked_ips observed_domains unblocked_domains anchor label
         target_domains cumulative_blocked_packets];
    unfold set_add, set_update; rewrite ?length_alter;
    (split_and!; [done..| |]).
  - intros r H1 H2 H3. by rewrite !list_lookup_alter_ne.
  - intros r. etrans; apply deref_alter_grow; intros s; apply union_subseteq_r.
  - intros r H1 H2 H3. by rewrite !list_lookup_alter_ne.
  - intros r. etrans; apply deref_alter_grow; intros s; apply union_subseteq_r.
  - done.
  - done.
Qed.

Lemma read_loop_tailed (fuel : nat) (text rest : string) (p : process) :
  String.length rest < fuel →
  ∃ p', read_loop fuel text rest p = Returned p' ∧ tailed p p'.
Proof.
  revert rest p. induction fuel as [|fuel IH]; intros rest p Hfuel; [lia|].
  cbn [read_loop]. destruct (readline rest) as [line rest'] eqn:Hread.
  destruct (nonempty line) eqn:Hline; [|eexists; split; [done|apply tailed_refl]].
  assert (Hrest : nonempty rest = true).
  { destruct rest; [|done]. simpl in Hread. by simplify_eq. }
  pose proof (readline_progress rest Hrest) as [_ Hless].
  rewrite Hread in Hless. simpl in Hless.
  destruct (IH rest' (consume_line line
                        (tell text (String.length text - String.length rest')) p))
    as (p' & -> & Htail); [lia|].
  exists p'. split; [done|].
  eapply tailed_trans; [apply consume_line_tailed|done].
Qed.

Lemma consume_new_events_tailed (log : option string) (p : process) :
  ∃ p', consume_new_events log p = Returned p' ∧ tailed p p'.
Proof.
  destruct log as [text|]; [|eexists; split; [done|apply tailed_refl]].
  apply read_loop_tailed. rewrite seek_length. lia.
Qed.

End tailing_facts.

(** *** The loop of main *)

Section main_facts.

Context {platform : Platform}.

Lemma initial_process_ok (target anchor label : string) :
  synchronizer_ok (initial_process target anchor label).
Proof. unfold synchronizer_ok. cbn. split_and!; (lia || done). Qed.

Lemma tailed_ok (p p' : process) :
  synchronizer_ok p → tailed p p' →
  synchronizer_ok p' ∧ enforced_ips p' = enforced_ips p
  ∧ target_ips p ⊆ target_ips p'.
Proof.
  intros (Hy & Hb & Ho & Hu & Hby & Hbo & Hbu & Hsub)
         (Ey & Eb & Eo & Eu & _ & _ & _ & _ & En & Esame & Egrow).
  assert (Henf : enforced_ips p' = enforced_ips p).
  { unfold enforced_ips, deref. by rewrite Eb, Esame. }
  assert (Htar : target_ips p ⊆ target_ips p').
  { unfold target_ips. rewrite Ey. apply Egrow. }
  split_and!; [| done..].
  unfold synchronizer_ok. rewrite Ey, Eb, Eo, Eu, En, Henf.
  split_and!; try done. by etrans.
Qed.

Lemma apply_anchor_rules_reloads (cp : completed) (a l : string) (ips : gset string) :
  Exists (λ e, is_reload e = true) (apply_anchor_rules cp a ips l).2.
Proof.
  unfold apply_anchor_rules. repeat case_bool_decide; by constructor.
Qed.

Lemma apply_anchor_rules_verdict (cp : completed) (a l : string) (ips : gset string) :
  ips ≠ ∅ →
  (apply_anchor_rules cp a ips l).1.1 = bool_decide (returncode cp = 0%Z).
Proof.
  intros Hips. unfold apply_anchor_rules.
  rewrite bool_decide_eq_false_2 by done.
  case_bool_decide as Hrc; simpl.
  - by rewrite bool_decide_eq_false_2.
  - rewrite bool_decide_eq_true_2; [done|]. by destruct (decide (returncode cp = 0%Z)).
Qed.

(** The block is skipped when the two sets are equal or the filter is
    not ready. *)
Lemma converge_skipped (pf_ready : bool) (env : poll_env) (v : main_vars) :
  pf_ready = false ∨ target_ips (proc v) = enforced_ips (proc v) →
  converge pf_ready env v = (v, []).
Proof.
  intros Hskip. unfold converge. destruct Hskip as [->|Heq]; [done|].
  unfold target_ips, enforced_ips in Heq.
  rewrite bool_decide_eq_false_2 by (intros Hne; by apply Hne).
  by rewrite andb_false_r.
Qed.

(** What the block does when it runs. *)
Lemma converge_attempted (env : poll_env) (v : main_vars) :
  synchronizer_ok (proc v) → target_ips (proc v) ≠ enforced_ips (proc v) →
  ∃ v' fx, converge true env v = (v', fx)
    ∧ Exists (λ e, is_reload e = true) fx
    ∧ synchronizer_ok (proc v')
    ∧ youtube_ips (state (proc v')) = youtube_ips (state (proc v))
    ∧ target_ips (proc v') = target_ips (proc v)
    ∧ (returncode (load_result env) = 0%Z →
         blocked_ips (state (proc v')) ≠ youtube_ips (state (proc v'))
         ∧ blocked_ips (state (proc v')) = length (heap (proc v))
         ∧ enforced_ips (proc v') = target_ips (proc v))
    ∧ (returncode (load_result env) ≠ 0%Z →
         blocked_ips (state (proc v')) = blocked_ips (state (proc v))
         ∧ heap (proc v') = heap (proc v)).
Proof.
  intros Hok Hne.
  pose proof Hok as (Hy & Hb & Ho & Hu & Hby & Hbo & Hbu & Hsub).
  assert (Hnonempty : target_ips (proc v) ≠ ∅).
  { intros Hempty. apply Hne. rewrite Hempty in Hsub |- *.
    symmetry. by apply (anti_symm (⊆)). }
  unfold converge. unfold target_ips, enforced_ips in Hne, Hnonempty.
  rewrite bool_decide_eq_true_2 by done. cbn [andb].
  cbn [anchor label with_cumulative_blocked_packets youtube_ips].
  pose proof (apply_anchor_rules_reloads (load_result env) (anchor (state (proc v)))
                (label (state (proc v)))
                (deref (heap (proc v)) (youtube_ips (state (proc v))))) as Hfx.
  pose proof (apply_anchor_rules_verdict (load_result env) (anchor (state (proc v)))
                (label (state (proc v))) _ Hnonempty) as Hverdict.
  destruct (apply_anchor_rules _ _ _ _) as [[ok msg] fx]. cbn [fst snd] in *.
  subst ok. case_bool_decide as Hrc.
  - unfold set_copy. eexists _, _. split; [done|].
    split; [by apply Exists_cons_tl|].
    cbn [proc state heap with_blocked_ips with_cumulative_blocked_packets
         youtube_ips blocked_ips].
    assert (Htar : target_ips
        (Process
           (with_blocked_ips (length (heap (proc v)))
              (with_cumulative_blocked_packets
                 (cumulative_blocked_packets (state (proc v))
                  + packets_before_reload env) (state (proc v))))
           (heap (proc v) ++ [deref (heap (proc v)) (youtube_ips (state (proc v)))]))
        = target_ips (proc v)).
    { unfold target_ips. cbn. by rewrite deref_app_l. }
    assert (Henf : enforced_ips
        (Process
           (with_blocked_ips (length (heap (proc v)))
              (with_cumulative_blocked_packets
                 (cumulative_blocked_packets (state (proc v))
                  + packets_before_reload env) (state (proc v))))
           (heap (proc v) ++ [deref (heap (proc v)) (youtube_ips (state (proc v)))]))
        = target_ips (proc v)).
    { unfold enforced_ips, target_ips. cbn. by rewrite deref_app_new. }
    split_and!; [|done|done|intros _; split_and!; [lia|done|done]|done].
    unfold synchronizer_ok. rewrite Htar, Henf.
    cbn [state heap with_blocked_ips with_cumulative_blocked_packets
         youtube_ips blocked_ips observed_domains unblocked_domains].
    rewrite length_app. cbn [length]. split_and!; (lia || done).
  - eexists _, _. split; [done|].
    split; [by apply Exists_cons_tl|].
    split_and!; [done..| |done]. intros Hzero. done.
Qed.

(** An iteration tails the log, runs the block, and reports. *)
Lemma main_iteration_unfold (pf_ready : bool) (env : poll_env) (v : main_vars) :
  ∃ p, consume_new_events (log_text env) (proc v) = Returned p
    ∧ tailed (proc v) p
    ∧ ∃ payload,
        main_iteration pf_ready env v
        = Returned
            ((converge pf_ready env (MainVars p (last_pf_message v))).1,
             (converge pf_ready env (MainVars p (last_pf_message v))).2
             ++ (if pf_ready
                 then [ReadBlockedPacketCount
                         (anchor (state (proc (converge pf_ready env
                                   (MainVars p (last_pf_message v))).1)))
                         (label (state (proc (converge pf_ready env
                                   (MainVars p (last_pf_message v))).1)))]
                 else [])
             ++ [WriteJson payload]).
Proof.
  destruct (consume_new_events_tailed (log_text env) (proc v)) as (p & Hp & Htail).
  exists p. split_and!; [done..|]. unfold main_iteration. rewrite Hp.
  cbn [mbind outcome_bind].
  destruct (converge pf_ready env (MainVars p (last_pf_message v))) as [v' fx].
  by eexists.
Qed.

Lemma converge_ok (pf_ready : bool) (env : poll_env) (v : main_vars) :
  synchronizer_ok (proc v) → synchronizer_ok (proc (converge pf_ready env v).1).
Proof.
  intros Hok.
  destruct (decide (pf_ready = false ∨ target_ips (proc v) = enforced_ips (proc v)))
    as [Hskip|Hrun].
  - by rewrite converge_skipped.
  - destruct pf_ready; [|by destruct Hrun; left].
    destruct (converge_attempted env v Hok) as (v' & fx & -> & _ & Hok' & _).
    + intros Heq. apply Hrun. by right.
    + done.
Qed.

Lemma main_iteration_ok (pf_ready : bool) (env : poll_env) (v v' : main_vars)
    (fx : list effect) :
  synchronizer_ok (proc v) → main_iteration pf_ready env v = Returned (v', fx) →
  synchronizer_ok (proc v').
Proof.
  intros Hok Hrun.
  destruct (main_iteration_unfold pf_ready env v) as (p & _ & Htail & payload & Heq).
  rewrite Heq in Hrun. injection Hrun as <- _.
  apply converge_ok. by apply (tailed_ok _ _ Hok).
Qed.

Lemma main_loop_ok (pf_ready : bool) (envs : list poll_env) (v v' : main_vars)
    (fx : list effect) :
  synchronizer_ok (proc v) → main_loop pf_ready envs v = Returned (v', fx) →
  synchronizer_ok (proc v').
Proof.
  revert v fx. induction envs as [|env envs IH]; intros v fx Hok Hrun.
  - by injection Hrun as <- _.
  - cbn [main_loop] in Hrun.
    destruct (main_iteration pf_ready env v) as [[v1 fx1]| |] eqn:Hit; [|done..].
    cbn [mbind outcome_bind] in Hrun.
    destruct (main_loop pf_ready envs v1) as [[v2 fx2]| |] eqn:Hloop; [|done..].
    cbn [mbind outcome_bind] in Hrun. injection Hrun as <- _.
    eapply IH; [|exact Hloop]. by eapply main_iteration_ok.
Qed.

Lemma reachable_ok (pf_ready : bool) (v : main_vars) :
  reachable pf_ready v → synchronizer_ok (proc v).
Proof.
  intros (target & anchor & label & message & envs & fx & Hrun).
  eapply main_loop_ok; [|exact Hrun]. apply initial_process_ok.
Qed.

(** C5: in an iteration that attempts a convergence, the rules are
    applied. When the load succeeds the enforced set becomes an object of
    its own with the elements of the target set, and tailing the log
    later, which adds to the target set, leaves it as it is. When the load
    fails the enforced set is the same object with the same elements, the
    two sets still differ, and the next iteration applies the rules
    again. *)
Theorem convergence_copies_or_retries (v : main_vars) (env : poll_env)
    (p : process) :
  reachable true v →
  consume_new_events (log_text env) (proc v) = Returned p →
  target_ips p ≠ enforced_ips p →
  ∃ v' fx,
    main_iteration true env v = Returned (v', fx)
    ∧ Exists (λ e, is_reload e = true) fx
    ∧ (returncode (load_result env) = 0%Z →
         blocked_ips (state (proc v')) ≠ youtube_ips (state (proc v'))
         ∧ enforced_ips (proc v') = target_ips p
         ∧ target_ips (proc v') = target_ips p
         ∧ ∀ log p', consume_new_events log (proc v') = Returned p' →
             enforced_ips p' = target_ips p)
    ∧ (returncode (load_result env) ≠ 0%Z →
         blocked_ips (state (proc v')) = blocked_ips (state (proc v))
         ∧ enforced_ips (proc v') = enforced_ips (proc v)
         ∧ target_ips (proc v') ≠ enforced_ips (proc v')
         ∧ ∀ env', ∃ v'' fx',
             main_iteration true env' v' = Returned (v'', fx')
             ∧ Exists (λ e, is_reload e = true) fx').
Proof.
  intros Hreach Hp Hne. apply reachable_ok in Hreach as Hok.
  destruct (main_iteration_unfold true env v) as (p0 & Hp0 & Htail & payload & Heq).
  assert (p0 = p) as -> by congruence.
  destruct (tailed_ok _ _ Hok Htail) as (Hokp & Henf & Hgrow).
  destruct (converge_attempted env (MainVars p (last_pf_message v)) Hokp Hne)
    as (v' & fx & Hconv & Hfx & Hok' & Hyt & Htar & Hgood & Hbad).
  rewrite Hconv in Heq. cbn [fst snd proc] in *.
  eexists _, _. split; [exact Heq|].
  split; [apply Exists_app; by left|]. split.
  - intros Hrc. destruct (Hgood Hrc) as (Hfresh & _ & Henf').
    split_and!; [done..|].
    intros log p' Hp'.
    destruct (consume_new_events_tailed log (proc v')) as (p'' & Hp'' & Htail').
    assert (p'' = p') as -> by congruence.
    destruct (tailed_ok _ _ Hok' Htail') as (_ & -> & _). done.
  - intros Hrc. destruct (Hbad Hrc) as (Hsame & Hheap).
    destruct Htail as (Ey & Eb & _).
    assert (Henf' : enforced_ips (proc v') = enforced_ips p).
    { unfold enforced_ips. by rewrite Hsame, Hheap. }
    split_and!.
    + by rewrite Hsame.
    + by rewrite Henf'.
    + by rewrite Htar, Henf'.
    + intros env'.
      destruct (main_iteration_unfold true env' v')
        as (p1 & Hp1 & Htail1 & payload1 & Heq1).
      destruct (tailed_ok _ _ Hok' Htail1) as (Hok1 & Henf1 & Hgrow1).
      assert (Hne1 : target_ips p1 ≠ enforced_ips p1).
      { rewrite Henf1, Henf'. intros Heq1'. apply Hne.
        apply (anti_symm (⊆)).
        - rewrite <- Htar. etrans; [exact Hgrow1|]. by rewrite Heq1'.
        - by destruct Hokp as (_ & _ & _ & _ & _ & _ & _ & ?). }
      destruct (converge_attempted env' (MainVars p1 (last_pf_message v')) Hok1 Hne1)
        as (v2 & fx2 & Hconv2 & Hfx2 & _).
      rewrite Hconv2 in Heq1. cbn [fst snd] in Heq1.
      eexists _, _. split; [exact Heq1|]. apply Exists_app. by left.
Qed.

(** C7: from a state in which the enforced set equals the target set,
    as a successful convergence leaves it, iterations whose tailing does
    not change the target set return, change no rule, leave the enforced
    set, the cumulative counter and the message as they are, and only read
    the packet counter (when the filter is ready) and write the report. *)
Theorem converged_polls_do_not_reload (pf_ready : bool) (envs : list poll_env)
    (v : main_vars) :
  reachable pf_ready v →
  target_ips (proc v) = enforced_ips (proc v) →
  targets_unchanged pf_ready envs v →
  ∃ v' fx,
    main_loop pf_ready envs v = Returned (v', fx)
    ∧ Forall (λ e, is_reload e = false) fx
    ∧ length fx = (if pf_ready then 2 else 1) * length envs
    ∧ blocked_ips (state (proc v')) = blocked_ips (state (proc v))
    ∧ enforced_ips (proc v') = enforced_ips (proc v)
    ∧ cumulative_blocked_packets (state (proc v'))
      = cumulative_blocked_packets (state (proc v))
    ∧ last_pf_message v' = last_pf_message v.
Proof.
  intros Hreach. apply reachable_ok in Hreach as Hok. clear Hreach.
  revert v Hok. induction envs as [|env envs IH]; intros v Hok Heq Hquiet.
  - eexists _, _. split; [done|]. split_and!; try done; by destruct pf_ready.
  - destruct (main_iteration_unfold pf_ready env v)
      as (p & Hp & Htail & payload & Hit).
    destruct (Hquiet p Hp) as [Hsame Hrest].
    destruct (tailed_ok _ _ Hok Htail) as (Hokp & Henf & _).
    rewrite converge_skipped in Hit by (right; cbn [proc]; congruence).
    cbn [fst snd proc app] in Hit.
    specialize (Hrest _ _ Hit).
    destruct (IH (MainVars p (last_pf_message v))) as (v' & fx & Hloop & Hfx & Hlen & Hb & He & Hc & Hm);
      [done|cbn [proc]; congruence|done|].
    cbn [proc last_pf_message] in *.
    destruct Htail as (_ & Eb & _ & _ & _ & _ & _ & Ec & _).
    eexists _, _. cbn [main_loop]. rewrite Hit. cbn [mbind outcome_bind].
    rewrite Hloop. cbn [mbind outcome_bind]. split; [done|].
    split_and!; try congruence.
    + apply Forall_app. split; [|done]. destruct pf_ready; repeat constructor.
    + rewrite length_app, Hlen. destruct pf_ready; simpl; lia.
Qed.

End main_facts.

(** *** The tailer and the loop on examples *)

Section blocker_examples.

#[local] Existing Instance example_platform.

Example parse_ordered_line_example :
  parse_ordered_line "[YouTube.com.] @ [20240101-00:00:00] using [142.250.1.1, 1.2.3.4, 142.250.1.1]"
  = Some ("youtube.com", "20240101-00:00:00", ["142.250.1.1"; "1.2.3.4"]).
Proof. vm_compute. reflexivity. Qed.

Lemma example_ips_canonical :
  Forall canonical_ip ["1.2.3.4"; "142.250.1.1"] ∧ NoDup ["1.2.3.4"; "142.250.1.1"].
Proof.
  split.
  - repeat (apply Forall_cons_2; [by vm_compute|]). apply Forall_nil_2.
  - apply (bool_decide_unpack _). by vm_compute.
Qed.

Lemma event_line_roundtrip_witness :
  parse_ordered_line
    (event_line "example.com" "20240101-00:00:00" ["1.2.3.4"; "142.250.1.1"])
  = Some ("example.com", "20240101-00:00:00", ["1.2.3.4"; "142.250.1.1"])
  ∧ parse_ordered_line
      (event_line "example.com" "20240101-00:00:00" ["1.2.3.4"; "142.250.1.1"]
       +:+ newline)
    = Some ("example.com", "20240101-00:00:00", ["1.2.3.4"; "142.250.1.1"]).
Proof.
  apply event_line_roundtrip.
  - vm_compute. reflexivity.
  - vm_compute. reflexivity.
  - vm_compute. reflexivity.
  - vm_compute. reflexivity.
  - apply example_ips_canonical.
  - apply example_ips_canonical.
Defined.

(** C6 as it was stated fails: the domain [" a"] has no bracket, the
    proxy logs it for a query whose only label is a space and an [a], and
    the parser reads it back without the space. *)
Lemma event_line_roundtrip_space :
  all_chars (λ c, not_rbracket c && negb (Ascii.eqb c "[")) " a" = true
  ∧ extract_query_domain
      (dns_header 1 256 1 0 0 0 ++ [x02; x20; x61; x00; x00; x01; x00; x01])
    = Returned (Some " a")
  ∧ parse_ordered_line (event_line " a" "20240101-00:00:00" [])
    = Some ("a", "20240101-00:00:00", [])
  ∧ parse_ordered_line (event_line " a" "20240101-00:00:00" [])
    ≠ Some (" a", "20240101-00:00:00", []).
Proof. vm_compute. split_and!; done. Qed.

Lemma consume_new_events_whole_lines_witness :
  ∃ p1,
    consume_new_events (Some (youtube_line +:+ newline)) blocker_start
    = Returned p1
    ∧ place_of (consumed_bytes (state p1))
      = String.length (youtube_line +:+ newline)
    ∧ (all_chars is_ascii (youtube_line +:+ newline) = true →
       place_of (consumed_bytes (state blocker_start))
       < String.length (youtube_line +:+ newline) →
       consumed_bytes (state p1)
       = Offset (String.length (youtube_line +:+ newline)))
    ∧ consume_new_events
        (Some ((youtube_line +:+ newline) +:+ lines_text [youtube_line])) p1
      = Returned
          (read_lines ((youtube_line +:+ newline) +:+ lines_text [youtube_line])
             (String.length (youtube_line +:+ newline)) [youtube_line] p1)
    ∧ total_dns_events
        (state
           (read_lines ((youtube_line +:+ newline) +:+ lines_text [youtube_line])
              (String.length (youtube_line +:+ newline)) [youtube_line] p1))
      = total_dns_events (state p1)
        + length (filter (λ line, is_Some (parse_ordered_line (line +:+ newline)))
                    [youtube_line])
    ∧ ([youtube_line] ≠ [] →
       place_of
         (consumed_bytes
            (state
               (read_lines
                  ((youtube_line +:+ newline) +:+ lines_text [youtube_line])
                  (String.length (youtube_line +:+ newline)) [youtube_line] p1)))
       = String.length ((youtube_line +:+ newline) +:+ lines_text [youtube_line])).
Proof.
  apply (consume_new_events_whole_lines (youtube_line +:+ newline) [youtube_line]
           blocker_start).
  - right. vm_compute. reflexivity.
  - vm_compute. lia.
  - apply Forall_cons_2; [vm_compute; reflexivity|apply Forall_nil_2].
Defined.

(** C1 as it was stated fails. A log whose only line has no newline yet
    is consumed: the cursor moves from 0 past the line and the event is
    counted. And when the writer is caught in the middle of a line, the
    cursor moves past the fragment, the rest of the line that comes later
    does not parse, and the event is never read. *)
Lemma unterminated_line_is_consumed :
  (∃ p, consume_new_events (Some youtube_line) blocker_start = Returned p
        ∧ consumed_bytes (state p) = Offset (String.length youtube_line)
        ∧ 0 < String.length youtube_line
        ∧ total_dns_events (state p) = 1
        ∧ target_ips p = {["142.250.1.1"]})
  ∧ (∃ p1 p2,
        consume_new_events (Some youtube_fragment) blocker_start = Returned p1
        ∧ consumed_bytes (state p1) = Offset (String.length youtube_fragment)
        ∧ consume_new_events (Some (youtube_line +:+ newline)) p1 = Returned p2
        ∧ consumed_bytes (state p2)
          = Offset (String.length (youtube_line +:+ newline))
        ∧ total_dns_events (state p2) = 0
        ∧ target_ips p2 = ∅).
Proof.
  split.
  - eexists. split; [vm_compute; reflexivity|]. vm_compute. split_and!; (done || lia).
  - eexists _, _. split; [vm_compute; reflexivity|]. split; [vm_compute; reflexivity|].
    split; [vm_compute; reflexivity|]. vm_compute. by split_and!.
Qed.

Lemma blocker_vars_reachable : reachable true blocker_vars.
Proof. exists "youtube.com", "anchor", "label", "pf already enabled", [], []. done. Qed.

Lemma convergence_copies_or_retries_witness :
  ∃ p, consume_new_events (log_text (poll_youtube 1)) (proc blocker_vars) = Returned p
  ∧ ∃ v' fx,
    main_iteration true (poll_youtube 1) blocker_vars = Returned (v', fx)
    ∧ Exists (λ e, is_reload e = true) fx
    ∧ (returncode (load_result (poll_youtube 1)) = 0%Z →
         blocked_ips (state (proc v')) ≠ youtube_ips (state (proc v'))
         ∧ enforced_ips (proc v') = target_ips p
         ∧ target_ips (proc v') = target_ips p
         ∧ ∀ log p', consume_new_events log (proc v') = Returned p' →
             enforced_ips p' = target_ips p)
    ∧ (returncode (load_result (poll_youtube 1)) ≠ 0%Z →
         blocked_ips (state (proc v')) = blocked_ips (state (proc blocker_vars))
         ∧ enforced_ips (proc v') = enforced_ips (proc blocker_vars)
         ∧ target_ips (proc v') ≠ enforced_ips (proc v')
         ∧ ∀ env', ∃ v'' fx',
             main_iteration true env' v' = Returned (v'', fx')
             ∧ Exists (λ e, is_reload e = true) fx').
Proof.
  eexists. split; [vm_compute; reflexivity|].
  apply (convergence_copies_or_retries blocker_vars (poll_youtube 1)).
  - apply blocker_vars_reachable.
  - vm_compute. reflexivity.
  - vm_compute. discriminate.
Defined.

(** One poll that converges, then two polls with the same log. *)
Lemma converged_polls_do_not_reload_witness :
  ∃ v fx0,
    main_iteration true (poll_youtube 0) blocker_vars = Returned (v, fx0)
    ∧ ∃ v' fx,
      main_loop true [poll_youtube 0; poll_youtube 0] v = Returned (v', fx)
      ∧ Forall (λ e, is_reload e = false) fx
      ∧ length fx = 2 * length [poll_youtube 0; poll_youtube 0]
      ∧ blocked_ips (state (proc v')) = blocked_ips (state (proc v))
      ∧ enforced_ips (proc v') = enforced_ips (proc v)
      ∧ cumulative_blocked_packets (state (proc v'))
        = cumulative_blocked_packets (state (proc v))
      ∧ last_pf_message v' = last_pf_message v.
Proof.
  eexists _, _. split; [vm_compute; reflexivity|].
  apply (converged_polls_do_not_reload true [poll_youtube 0; poll_youtube 0]).
  - exists "youtube.com", "anchor", "label", "pf already enabled", [poll_youtube 0].
    eexists. vm_compute. reflexivity.
  - vm_compute. reflexivity.
  - intros p Hp. vm_compute in Hp. injection Hp as <-.
    split; [vm_compute; reflexivity|].
    intros v' fx Hit. vm_compute in Hit. injection Hit as <- <-.
    intros p Hp. vm_compute in Hp. injection Hp as <-.
    split; [vm_compute; reflexivity|].
    intros v' fx Hit. exact I.
Defined.

End blocker_examples.
(** ** Part III: further properties of the code *)

(** *** consume_new_events: the cursor and two polls *)

Section cursor_facts.

Context {platform : Platform}.

(** X1: [consume_new_events] on a log that exists returns with the
    cursor placed at the end of the text, or where it was when it was at
    the end or beyond already, and then nothing is changed. The number the
    cursor holds is the length of the text when a line was read and the
    text is ASCII and does not end with a carriage return. A second call
    on the same text changes nothing. *)
Theorem consume_new_events_cursor (text : string) (p : process) :
  ∃ p', consume_new_events (Some text) p = Returned p'
    ∧ place_of (consumed_bytes (state p'))
      = place_of (consumed_bytes (state p)) `max` String.length text
    ∧ (place_of (consumed_bytes (state p)) < String.length text →
       plain_prefix (String.length text) text = true →
       consumed_bytes (state p') = Offset (String.length text))
    ∧ (String.length text ≤ place_of (consumed_bytes (state p)) → p' = p)
    ∧ consume_new_events (Some text) p' = Returned p'.
Proof.
  destruct (consume_new_events_place text p) as (p' & Hrun & Hplace & Htell).
  exists p'. split; [done|]. split; [done|].
  assert (Hnothing : ∀ q, String.length text ≤ place_of (consumed_bytes (state q)) →
            consume_new_events (Some text) q = Returned q).
  { intros q Hq. unfold consume_new_events.
    assert (seek (place_of (consumed_bytes (state q))) text = "") as ->; [|done].
    apply string_length_0. rewrite seek_length. lia. }
  split_and!.
  - intros Hless Hplain. rewrite (Htell Hless). unfold tell. by rewrite Hplain.
  - intros Hbeyond. rewrite (Hnothing p Hbeyond) in Hrun. congruence.
  - apply Hnothing. lia.
Qed.

Lemma seek_append_le (n : nat) (text more : string) :
  n ≤ String.length text → seek n (text +:+ more) = seek n text +:+ more.
Proof.
  revert text. induction n as [|n IH]; intros text Hn; [done|].
  destruct text as [|c text]; [simpl in Hn; lia|].
  rewrite append_cons. cbn [seek]. apply IH. simpl in Hn. lia.
Qed.

Lemma seek_ends_with_newline (n : nat) (text : string) :
  n ≤ String.length text → text = "" ∨ ends_with_newline text = true →
  seek n text = "" ∨ ends_with_newline (seek n text) = true.
Proof.
  intros Hn [->|Hend]; [left; by destruct n|].
  revert text Hn Hend. induction n as [|n IH]; intros text Hn Hend; [by right|].
  destruct text as [|c text]; [done|]. cbn [seek].
  destruct text as [|c' text]; [left; by destruct n|].
  apply IH; [simpl in *; lia|done].
Qed.

(** X2: when the log at one poll ends with a newline (or is empty) and
    has grown by the next poll, tailing at both polls gives the state that
    one tailing of the longer log gives. *)
Theorem consume_new_events_two_polls (text more : string) (p : process) :
  text = "" ∨ ends_with_newline text = true →
  consume_new_events (Some (text +:+ more)) p
  = consume_new_events (Some text) p
    ≫= consume_new_events (Some (text +:+ more)).
Proof.
  intros Hend.
  destruct (consume_new_events_place text p) as (p1 & Hp1 & Hplace & _).
  rewrite Hp1. cbn [mbind outcome_bind].
  destruct (decide (place_of (consumed_bytes (state p)) ≤ String.length text))
    as [Hle|Hgt].
  2:{ assert (p1 = p) as ->; [|done].
      unfold consume_new_events in Hp1.
      assert (seek (place_of (consumed_bytes (state p))) text = "") as Hseek.
      { apply string_length_0. rewrite seek_length. lia. }
      rewrite Hseek in Hp1. cbn in Hp1. congruence. }
  pose proof (seek_ends_with_newline _ _ Hle Hend) as Hleft.
  destruct (read_loop_append (S (String.length text + String.length more)) text
              (seek (place_of (consumed_bytes (state p))) text) more p)
    as (p1' & Hrun & Hrun'); [rewrite !append_length, seek_length; lia
                             |rewrite seek_length; lia|done|].
  assert (p1' = p1) as ->.
  { unfold consume_new_events in Hp1.
    rewrite (read_loop_fuel _ (S (String.length text + String.length more)))
      in Hp1 by (rewrite seek_length; lia).
    congruence. }
  unfold consume_new_events.
  rewrite seek_append_le, append_length, Hrun' by done.
  replace (place_of (consumed_bytes (state p1))) with (String.length text) by lia.
  by rewrite seek_append.
Qed.

End cursor_facts.
(** *** decode_dns_name: where a name ends *)

Section codec_bounds.

Context {platform : Platform}.

Lemma pointer_at_lt (data : list byte) (i p : nat) :
  pointer_at data i = Some p → i + 2 ≤ length data.
Proof.
  unfold pointer_at. intros Hp.
  destruct (data !! i) as [b|]; [|done].
  destruct (data !! (i + 1)) as [b1|] eqn:Hb1; [|done].
  apply lookup_lt_Some in Hb1. lia.
Qed.

(** The rule of the loop with what each iteration knows of the cursor. *)
Lemma decode_loop_invariant_in (P : name_walk → Prop) (data : list byte) :
  (∀ w, cursor w < length data → P w →
     P (NameWalk (labels w) (cursor w + 1)
          (if jumped w then end_offset w else cursor w + 1)
          (jumped w) (seen_pointers w))) →
  (∀ w p, P w → pointer_at data (cursor w) = Some p → p ∉ seen_pointers w →
     P (NameWalk (labels w) p
          (if jumped w then end_offset w else cursor w + 2)
          true (p :: seen_pointers w))) →
  (∀ w, cursor w < length data → P w →
     P (NameWalk (labels w) (cursor w + 1) (end_offset w)
          (jumped w) (seen_pointers w))) →
  (∀ w len, P w → cursor w + 1 + len ≤ length data → 0 < len →
     P (NameWalk
          (labels w ++ [utf8_decode_ignore
                          (py_slice data (cursor w + 1) (cursor w + 1 + len))])
          (cursor w + 1 + len)
          (if jumped w then end_offset w else cursor w + 1 + len)
          (jumped w) (seen_pointers w))) →
  ∀ fuel w r, decode_loop fuel data w = Returned r → P w → P r.
Proof.
  intros Hzero Hjump Hover Hlabel.
  induction fuel as [|fuel IH]; intros w r Hrun HP; [done|].
  cbn [decode_loop] in Hrun.
  case_bool_decide as Hend; [by injection Hrun as <-|].
  destruct (py_index_lt data (cursor w)) as (b & Hb & Hib); [lia|].
  rewrite Hib in Hrun. cbn [mbind outcome_bind] in Hrun.
  case_bool_decide as Hz; [injection Hrun as <-; apply Hzero; [lia|done]|].
  case_bool_decide as Hptr.
  - case_bool_decide as Hend1; [by injection Hrun as <-|].
    destruct (py_index_lt data (cursor w + 1)) as (b1 & Hb1 & Hib1); [lia|].
    rewrite Hib1 in Hrun. cbn [mbind outcome_bind] in Hrun.
    case_bool_decide as Hseen; [by injection Hrun as <-|].
    apply IH in Hrun; [done|]. apply Hjump; [done| |done].
    unfold pointer_at. by rewrite Hb, Hb1, bool_decide_eq_true_2.
  - case_bool_decide as Hbad; [by injection Hrun as <-|].
    case_bool_decide as Hover'; [injection Hrun as <-; apply Hover; [lia|done]|].
    apply IH in Hrun; [done|]. apply Hlabel; [done|lia|].
    assert (byte_val b ≠ 0) by done. lia.
Qed.

(** X3: the offset [decode_dns_name] returns is never before the offset
    it was given and never beyond the end of the buffer (or the given
    offset, when that is beyond already), whatever the bytes and wherever
    the pointers lead. *)
Theorem decode_dns_name_end_bounds (data : list byte) (offset : nat) :
  ∃ name end_,
    decode_dns_name data offset = Returned (name, end_)
    ∧ offset ≤ end_ ≤ offset `max` length data.
Proof.
  destruct (decode_walk_total data offset) as [w Hw].
  unfold decode_dns_name. rewrite Hw. cbn [mbind outcome_bind].
  eexists _, _. split; [done|].
  assert (Hinv :
    (jumped w = false →
       offset ≤ end_offset w ∧ end_offset w ≤ cursor w
       ∧ cursor w ≤ offset `max` length data)
    ∧ (jumped w = true → offset < end_offset w ≤ length data)).
  { apply (decode_loop_invariant_in
      (λ w, (jumped w = false →
               offset ≤ end_offset w ∧ end_offset w ≤ cursor w
               ∧ cursor w ≤ offset `max` length data)
            ∧ (jumped w = true → offset < end_offset w ≤ length data)) data)
      with (fuel := decode_fuel data) (w := NameWalk [] offset offset false []).
    - intros w' Hlt [Hn Hj]. walk_fields. destruct (jumped w'); [split; [done|auto]|].
      split; [|done]. intros _. lia.
    - intros w' p [Hn Hj] Hp _. walk_fields. split; [done|]. intros _.
      apply pointer_at_lt in Hp. destruct (jumped w'); [auto|]. lia.
    - intros w' Hlt [Hn Hj]. walk_fields. split; [|done]. intros Hf.
      specialize (Hn Hf). lia.
    - intros w' len [Hn Hj] Hfit Hpos. walk_fields.
      destruct (jumped w'); [split; [done|auto]|]. split; [|done]. intros _. lia.
    - exact Hw.
    - walk_fields. split; [|done]. intros _. lia. }
  destruct Hinv as [Hn Hj]. destruct (jumped w).
  - specialize (Hj eq_refl). rewrite bool_decide_eq_false_2 by lia. lia.
  - specialize (Hn eq_refl). case_bool_decide; lia.
Qed.


(** *** extract_answer_ips: on any payload *)

Lemma collect_answers_bounded (n : nat) (payload : list byte) (offset : nat)
    (ips r : gset string) :
  collect_answers n payload offset ips = Returned r →
  size r ≤ size ips + n
  ∧ ∀ a, a ∈ r → a ∈ ips ∨ address_in payload a.
Proof.
  revert offset ips. induction n as [|n IH]; intros offset ips Hrun.
  { injection Hrun as <-. split; [lia|auto]. }
  cbn [collect_answers] in Hrun.
  destruct (decode_dns_name_total payload offset) as (name & e & He).
  rewrite He in Hrun. cbn [mbind outcome_bind] in Hrun.
  case_bool_decide as Hfix; [injection Hrun as <-; split; [lia|auto]|].
  destruct (unpack_HHIH_total (py_slice payload e (e + 10)))
    as [[[[rtype rclass] ttl] rdlen] Hun].
  { rewrite py_slice_length; lia. }
  rewrite Hun in Hrun. cbn [mbind outcome_bind] in Hrun.
  case_bool_decide as Hdata; [injection Hrun as <-; split; [lia|auto]|].
  assert (Hadd : ∀ a, address_in payload a →
            collect_answers n payload (e + 10 + rdlen) ({[a]} ∪ ips) = Returned r →
            size r ≤ size ips + S n ∧ ∀ a, a ∈ r → a ∈ ips ∨ address_in payload a).
  { intros a Ha Hrun'. apply IH in Hrun' as [Hsize Helem]. split.
    - pose proof (size_union_alt {[a]} ips) as Hu.
      pose proof (subseteq_size (ips ∖ {[a]}) ips) as Hd.
      rewrite size_singleton in Hu.
      assert (ips ∖ {[a]} ⊆ ips) as Hsub by (apply subseteq_difference_l; done).
      specialize (Hd Hsub). lia.
    - intros a' Ha'. destruct (Helem a' Ha') as [Hin|Hin]; [|by right].
      apply elem_of_union in Hin as [Hin|Hin]; [|by left].
      apply elem_of_singleton in Hin as ->. by right. }
  assert (Hskip : collect_answers n payload (e + 10 + rdlen) ips = Returned r →
            size r ≤ size ips + S n ∧ ∀ a, a ∈ r → a ∈ ips ∨ address_in payload a).
  { intros Hrun'. apply IH in Hrun' as [Hsize Helem]. split; [lia|done]. }
  case_bool_decide; [by apply Hskip|].
  case_bool_decide as HA.
  { destruct HA as [_ ->]. unfold inet_ntoa in Hrun.
    rewrite bool_decide_eq_true_2 in Hrun by (rewrite py_slice_length; lia).
    cbn [mbind outcome_bind] in Hrun. eapply Hadd; [|exact Hrun].
    exists (e + 10). left. split; [lia|done]. }
  case_bool_decide as HAAAA; [|by apply Hskip].
  destruct HAAAA as [_ ->]. unfold inet_ntop in Hrun.
  rewrite bool_decide_eq_true_2 in Hrun by (rewrite py_slice_length; lia).
  cbn [mbind outcome_bind] in Hrun. eapply Hadd; [|exact Hrun].
  exists (e + 10). right. split; [lia|done].
Qed.

(** X4: on every payload [extract_answer_ips] returns a list that is
    sorted and without repetition, no longer than the answer count of the
    header, and made of the texts of four or sixteen bytes of the payload;
    on less than twelve bytes it is empty. *)
Theorem extract_answer_ips_bounded (payload : list byte) :
  ∃ ips,
    extract_answer_ips payload = Returned ips
    ∧ StronglySorted String.le ips ∧ NoDup ips
    ∧ Forall (address_in payload) ips
    ∧ (∀ ancount, unpack_H (py_slice payload 6 8) = Returned ancount →
         length ips ≤ ancount)
    ∧ (length payload < 12 → ips = []).
Proof.
  unfold extract_answer_ips. case_bool_decide as Hlen.
  { exists []. split_and!; [done|apply SSorted_nil|apply NoDup_nil_2|apply Forall_nil_2|intros; simpl; lia|done]. }
  destruct (unpack_H_slice payload 4 6) as (a & b & _ & _ & ->); [lia..|].
  destruct (unpack_H_slice payload 6 8) as (c & d & _ & _ & ->); [lia..|].
  cbn [mbind outcome_bind].
  destruct (skip_questions_total (256 * byte_val a + byte_val b) payload 12)
    as [[off|] ->]; cbn [mbind outcome_bind].
  2:{ exists []. split_and!; [done|apply SSorted_nil|apply NoDup_nil_2|apply Forall_nil_2|intros; simpl; lia|done]. }
  destruct (collect_answers_total (256 * byte_val c + byte_val d) payload off ∅)
    as [ips Hips].
  rewrite Hips. cbn [mbind outcome_bind].
  apply collect_answers_bounded in Hips as [Hsize Helem].
  exists (py_sorted ips). split_and!; [done|apply py_sorted_sorted|apply py_sorted_NoDup|..].
  - apply Forall_forall. intros x Hx. apply py_sorted_elem in Hx.
    destruct (Helem x Hx) as [Hin|Hin]; [|done]. by apply elem_of_empty in Hin.
  - intros ancount Han. injection Han as <-.
    unfold py_sorted. rewrite merge_sort_Permutation.
    rewrite size_empty in Hsize. done.
  - intros; lia.
Qed.

End codec_bounds.
(** *** decode_dns_name: compressed names *)

Section codec_names.

Context {platform : Platform}.

(** A run of labels after a jump: the end offset stays where the jump
    left it. *)
Lemma walk_labels_jumped (ls : list (list byte)) (pre rest : list byte)
    (fuel : nat) (w : name_walk) :
  Forall label_ok ls → cursor w = length pre → jumped w = true →
  decode_loop (length ls + fuel) (pre ++ encode_labels ls ++ rest) w =
  decode_loop fuel (pre ++ encode_labels ls ++ rest)
    (NameWalk (labels w ++ (utf8_decode_ignore <$> ls))
       (length pre + length (encode_labels ls))
       (end_offset w) true (seen_pointers w)).
Proof.
  revert pre w. induction ls as [|l ls IH]; intros pre w Hok Hcur Hj.
  - destruct w as [lbs c e j seen]. simpl in *. subst.
    by rewrite ?app_nil_r, ?Nat.add_0_r.
  - apply Forall_cons in Hok as [[Hl1 Hl63] Hok].
    rewrite encode_labels_cons.
    remember (pre ++ (byte_of (length l) :: l ++ encode_labels ls) ++ rest)
      as data eqn:Hd.
    assert (Hdata : data = (pre ++ byte_of (length l) :: l) ++ encode_labels ls ++ rest).
    { subst data. by list_assoc. }
    assert (Hlen : length data =
      length pre + 1 + length l + length (encode_labels ls) + length rest).
    { subst data. rewrite !length_app. simpl. rewrite !length_app. lia. }
    assert (Hb : data !! cursor w = Some (byte_of (length l))).
    { subst data. rewrite Hcur. by rewrite lookup_app_r, Nat.sub_diag by lia. }
    change (length (l :: ls) + fuel) with (S (length ls + fuel)).
    rewrite (decode_loop_label _ _ _ _ Hb); rewrite byte_val_byte_of by lia;
      [|lia|lia].
    assert (Hslice : py_slice data (cursor w + 1) (cursor w + 1 + length l) = l).
    { rewrite Hcur. subst data.
      replace (pre ++ (byte_of (length l) :: l ++ encode_labels ls) ++ rest)
        with ((pre ++ [byte_of (length l)]) ++ l ++ (encode_labels ls ++ rest))
        by (by list_assoc).
      replace (length pre + 1) with (length (pre ++ [byte_of (length l)])).
      2:{ rewrite length_app. simpl. lia. }
      apply py_slice_app_middle. }
    rewrite Hslice, Hj, Hdata.
    rewrite (IH (pre ++ byte_of (length l) :: l)); simpl; try done.
    + do 2 f_equal; [by list_assoc|..];
        rewrite !length_app; simpl; rewrite ?length_app; lia.
    + rewrite length_app. simpl. lia.
Qed.

(** A name that ends with the root label. *)
Lemma decode_dns_name_root (ls : list (list byte)) (pre rest : list byte) :
  Forall label_ok ls →
  decode_dns_name (pre ++ encode_name (WireName ls Root) ++ rest) (length pre)
  = Returned (name_of_labels (utf8_decode_ignore <$> ls),
              length pre + length (encode_name (WireName ls Root))).
Proof.
  intros Hls. unfold encode_name. cbn [name_labels name_tail].
  rewrite <- (app_assoc (encode_labels ls)).
  pose (w0 := NameWalk [] (length pre) (length pre) false []).
  pose proof (walk_labels ls pre ([x00] ++ rest) 1 w0 Hls eq_refl eq_refl eq_refl)
    as Hwalk.
  rewrite decode_loop_root in Hwalk.
  2:{ walk_fields. rewrite app_assoc, lookup_app_r by (rewrite length_app; lia).
      by rewrite length_app, Nat.sub_diag. }
  cbn [labels cursor end_offset jumped seen_pointers app] in Hwalk.
  cbn [app]. rewrite (decode_dns_name_of_walk _ _ _ _ Hwalk); walk_fields.
  - by rewrite length_app, Nat.add_assoc.
  - lia.
Qed.

(** X5: a name that ends with a compression pointer to a name written
    earlier in the message, which ends with the root label, decodes to its
    own labels followed by the labels of that name, and the decoder stops
    right behind the pointer. *)
Theorem decode_dns_name_compressed (pre mid rest : list byte)
    (target own : list (list byte)) (b0 b1 : byte) :
  let data :=
    pre ++ encode_name (WireName target Root) ++ mid
        ++ encode_name (WireName own (Pointer b0 b1)) ++ rest in
  let pos := length pre + length (encode_name (WireName target Root)) + length mid in
  Forall label_ok target → Forall label_ok own →
  pointer_at data (pos + length (encode_labels own)) = Some (length pre) →
  decode_dns_name data pos
  = Returned (name_of_labels (utf8_decode_ignore <$> (own ++ target)),
              pos + length (encode_labels own) + 2).
Proof.
  intros data pos Htarget Hown Hptr.
  unfold encode_name in *. cbn [name_labels name_tail] in *.
  set (before := pre ++ (encode_labels target ++ [x00]) ++ mid).
  assert (Hpos : pos = length before).
  { unfold pos, before. rewrite !length_app. lia. }
  assert (Hd1 : data = before ++ encode_labels own ++ ([b0; b1] ++ rest)).
  { unfold data, before. by list_assoc. }
  assert (Hd2 : data = pre ++ encode_labels target
                         ++ ([x00] ++ mid ++ (encode_labels own ++ [b0; b1]) ++ rest)).
  { unfold data. by list_assoc. }
  pose (w0 := NameWalk [] pos pos false []).
  pose proof (walk_labels own before ([b0; b1] ++ rest)
                (S (length target + 1)) w0 Hown Hpos eq_refl eq_refl) as Hwalk.
  rewrite <- Hd1, <- Hpos in Hwalk. cbn [labels seen_pointers app] in Hwalk.
  rewrite decode_loop_pointer with (p := length pre) in Hwalk by exact Hptr.
  cbn [labels cursor end_offset jumped seen_pointers] in Hwalk.
  rewrite bool_decide_eq_false_2 in Hwalk by (apply not_elem_of_nil).
  rewrite Hd2 in Hwalk at 2.
  rewrite walk_labels_jumped in Hwalk by done.
  cbn [labels cursor end_offset jumped seen_pointers] in Hwalk.
  rewrite decode_loop_root in Hwalk.
  2:{ walk_fields. rewrite app_assoc, lookup_app_r by (rewrite length_app; lia).
      by rewrite length_app, Nat.sub_diag. }
  cbn [labels cursor end_offset jumped seen_pointers] in Hwalk.
  rewrite (decode_dns_name_of_walk _ _ _ _ Hwalk); walk_fields.
  - by rewrite fmap_app.
  - lia.
Qed.


(** X6: from a query in wire format, whose question name is written
    without compression, [extract_query_domain] returns the name of the
    labels (nothing when that name is empty); and the SERVFAIL that
    [make_servfail] builds from the query names the same domain. *)
Theorem extract_query_domain_wire (id flags qdcount ancount nscount arcount : nat)
    (ls : list (list byte)) (rest : list byte) :
  let query :=
    dns_header id flags qdcount ancount nscount arcount
      ++ encode_name (WireName ls Root) ++ rest in
  let name := name_of_labels (utf8_decode_ignore <$> ls) in
  0 < qdcount < 256 * 256 → Forall label_ok ls →
  extract_query_domain query
  = Returned (if nonempty name then Some name else None)
  ∧ ∃ response, make_servfail query = Some response
      ∧ extract_query_domain response = extract_query_domain query.
Proof.
  intros query name Hqd Hls.
  assert (Hwire : ∀ header : list byte,
            length header = 12 → py_slice header 4 6 = u16 qdcount →
            extract_query_domain (header ++ encode_name (WireName ls Root) ++ rest)
            = Returned (if nonempty name then Some name else None)).
  { intros header Hlen Hslice. unfold extract_query_domain.
    rewrite bool_decide_eq_false_2 by (rewrite length_app; lia).
    assert (py_slice (header ++ encode_name (WireName ls Root) ++ rest) 4 6
            = u16 qdcount) as ->.
    { rewrite <- Hslice. unfold py_slice.
      rewrite drop_app_le, take_app_le; [done|rewrite length_drop|]; lia. }
    rewrite unpack_H_u16 by lia. cbn [mbind outcome_bind].
    rewrite bool_decide_eq_false_2 by lia.
    rewrite <- Hlen, decode_dns_name_root by done. done. }
  assert (Hq : extract_query_domain query
               = Returned (if nonempty name then Some name else None)).
  { apply Hwire; [apply dns_header_length|done]. }
  split; [done|].
  rewrite make_servfail_long by (unfold query; rewrite length_app, dns_header_length; lia).
  eexists. split; [done|]. rewrite Hq.
  replace (drop 12 query) with (encode_name (WireName ls Root) ++ rest).
  2:{ unfold query. by rewrite drop_app_length'. }
  assert (Hlen : 12 ≤ length query).
  { unfold query. rewrite length_app, dns_header_length. lia. }
  assert (Hslice : py_slice query 4 6 = u16 qdcount) by done.
  rewrite Hslice.
  specialize (Hwire (take 2 query ++ [x81; x82] ++ u16 qdcount ++ replicate 6 x00)).
  rewrite <- !app_assoc in Hwire. apply Hwire.
  - rewrite !length_app, length_take, u16_length. cbn [length replicate]. lia.
  - unfold py_slice. rewrite drop_app_ge; rewrite length_take; [|lia].
    by replace (4 - 2 `min` length query) with 2 by lia.
Qed.

End codec_names.
(** *** Normal forms of names and of parsed lines *)

Lemma lower_char_idemp (c : ascii) : lower_char (lower_char c) = lower_char c.
Proof. destruct c as [[] [] [] [] [] [] [] []]; vm_compute; reflexivity. Qed.

Lemma is_dot_lower_char (c : ascii) : is_dot (lower_char c) = is_dot c.
Proof. destruct c as [[] [] [] [] [] [] [] []]; vm_compute; reflexivity. Qed.

Lemma py_lower_idemp (s : string) : py_lower (py_lower s) = py_lower s.
Proof. induction s as [|c s IH]; [done|]. simpl. by rewrite lower_char_idemp, IH. Qed.

Lemma py_lower_lstrip_dots (s : string) :
  py_lower (lstrip_by is_dot s) = lstrip_by is_dot (py_lower s).
Proof.
  induction s as [|c s IH]; [done|]. simpl. rewrite is_dot_lower_char.
  by destruct (is_dot c).
Qed.

Lemma py_lower_rstrip_dots (s : string) :
  py_lower (rstrip_by is_dot s) = rstrip_by is_dot (py_lower s).
Proof.
  induction s as [|c s IH]; [done|]. simpl. rewrite <- IH, is_dot_lower_char.
  destruct (rstrip_by is_dot s); [by destruct (is_dot c)|done].
Qed.

Lemma py_lower_strip_dots (s : string) :
  py_lower (py_strip_dots s) = py_strip_dots (py_lower s).
Proof.
  unfold py_strip_dots, strip_by. by rewrite py_lower_rstrip_dots, py_lower_lstrip_dots.
Qed.

Lemma rstrip_by_idemp (p : ascii → bool) (s : string) :
  rstrip_by p (rstrip_by p s) = rstrip_by p s.
Proof.
  induction s as [|c s IH]; [done|]. simpl.
  destruct (rstrip_by p s) as [|c' s'] eqn:Hs.
  - destruct (p c) eqn:Hc; [done|]. simpl. by rewrite Hc.
  - simpl in IH |- *. by rewrite IH.
Qed.

Lemma rstrip_by_head (p : ascii → bool) (c : ascii) (s : string) :
  p c = false → ∃ r, rstrip_by p (String c s) = String c r.
Proof.
  intros Hc. simpl. destruct (rstrip_by p s); [|by eexists].
  rewrite Hc. by eexists.
Qed.

Lemma lstrip_by_head (p : ascii → bool) (s : string) :
  lstrip_by p s = "" ∨ ∃ c r, lstrip_by p s = String c r ∧ p c = false.
Proof.
  induction s as [|c s IH]; [by left|]. simpl.
  destruct (p c) eqn:Hc; [done|]. right. by eexists _, _.
Qed.

Lemma strip_by_idemp (p : ascii → bool) (s : string) :
  strip_by p (strip_by p s) = strip_by p s.
Proof.
  unfold strip_by. destruct (lstrip_by_head p s) as [->|(c & r & -> & Hc)]; [done|].
  destruct (rstrip_by_head p c r Hc) as [r' Hr]. rewrite Hr.
  rewrite lstrip_by_first by done. by rewrite <- Hr, rstrip_by_idemp.
Qed.

(** What [lower()] and [strip(".")] make, in either order, is left as it
    is by both. *)
Lemma normal_domain (s : string) :
  let d := py_strip_dots (py_lower s) in
  py_lower d = d ∧ py_strip_dots d = d ∧ py_strip_dots (py_lower d) = d.
Proof.
  intros d. unfold d.
  assert (H1 : py_lower (py_strip_dots (py_lower s)) = py_strip_dots (py_lower s)).
  { by rewrite py_lower_strip_dots, py_lower_idemp. }
  assert (H2 : py_strip_dots (py_strip_dots (py_lower s)) = py_strip_dots (py_lower s)).
  { apply strip_by_idemp. }
  by rewrite H1, H2.
Qed.

Section normal_forms.

Context {platform : Platform}.

(** X7: the name [decode_dns_name] returns is in lower case and neither
    starts nor ends with a dot, so the normalisation of the blocker leaves
    it as it is: it is a target exactly when it is one of the target
    domains. *)
Theorem decode_dns_name_normal (data : list byte) (offset : nat) :
  ∃ name end_,
    decode_dns_name data offset = Returned (name, end_)
    ∧ py_lower name = name ∧ py_strip_dots name = name
    ∧ ∀ targets, is_target_domain name targets = bool_decide (name ∈ targets).
Proof.
  destruct (decode_walk_total data offset) as [w Hw].
  unfold decode_dns_name. rewrite Hw. cbn [mbind outcome_bind].
  eexists _, _. split; [done|]. unfold name_of_labels.
  rewrite py_lower_strip_dots.
  destruct (normal_domain
              (py_join "." (filter (λ part, nonempty part = true) (labels w))))
    as (Hlow & Hdots & Hboth).
  split_and!; [done..|]. intros targets. unfold is_target_domain. by rewrite Hboth.
Qed.

Lemma collect_ips_distinct (parts : list string) (seen : gset string)
    (ips : list string) :
  NoDup ips → (∀ x, x ∈ ips → x ∈ seen) →
  NoDup (collect_ips parts seen ips)
  ∧ ∀ x, x ∈ collect_ips parts seen ips →
      x ∈ ips ∨ (nonempty x = true ∧ ∃ raw, raw ∈ parts ∧ normalize_ip raw = Some x).
Proof.
  revert seen ips. induction parts as [|part parts IH]; intros seen ips Hnd Hseen.
  { split; [done|auto]. }
  assert (Hskip : NoDup (collect_ips parts seen ips)
    ∧ ∀ x, x ∈ collect_ips parts seen ips →
        x ∈ ips ∨ (nonempty x = true
                   ∧ ∃ raw, raw ∈ part :: parts ∧ normalize_ip raw = Some x)).
  { destruct (IH seen ips Hnd Hseen) as [Hnd' Hel]. split; [done|].
    intros x Hx. destruct (Hel x Hx) as [|(Hne & raw & Hraw & Hn)]; [by left|].
    right. split; [done|]. exists raw. split; [by apply list_elem_of_further|done]. }
  cbn [collect_ips]. destruct (normalize_ip part) as [ip|] eqn:Hip; [|done].
  destruct (nonempty ip) eqn:Hne; [|done].
  case_bool_decide as Hin; [done|]. cbn [andb negb].
  destruct (IH ({[ip]} ∪ seen) (ips ++ [ip])) as [Hnd' Hel].
  - apply NoDup_app. split_and!; [done| |apply NoDup_singleton].
    intros x Hx Hx'%list_elem_of_singleton. subst x. by apply Hin, Hseen.
  - intros x [Hx|Hx%list_elem_of_singleton]%elem_of_app.
    + apply elem_of_union_r. by apply Hseen.
    + subst x. by apply elem_of_union_l, elem_of_singleton.
  - split; [done|]. intros x Hx.
    destruct (Hel x Hx) as [[?|Hx'%list_elem_of_singleton]%elem_of_app
                           |(Hne' & raw & Hraw & Hn)].
    + by left.
    + subst x. right. split; [done|]. exists part. split; [apply list_elem_of_here|done].
    + right. split; [done|]. exists raw. split; [by apply list_elem_of_further|done].
Qed.

Lemma parse_ordered_line_domain (line domain event_time : string)
    (ips : list string) (targets : gset string) :
  parse_ordered_line line = Some (domain, event_time, ips) →
  is_target_domain domain targets = bool_decide (domain ∈ targets).
Proof.
  unfold parse_ordered_line. intros Hparse.
  destruct (ORDERED_LINE_RE (py_strip line)) as [[[d t] raw]|]; [|done].
  cbn [mbind option_bind] in Hparse. injection Hparse as <- _ _.
  destruct (normal_domain (py_strip d)) as (_ & _ & Hboth).
  unfold is_target_domain. by rewrite Hboth.
Qed.

(** X8: what [parse_ordered_line] returns is normalised. The domain is in
    lower case without a dot at either end, so [is_target_domain] compares
    it as it is; the time has no space at either end; the addresses are
    pairwise distinct, none is empty, and each is the canonical text that
    [ip_address] gives for a token between commas. *)
Theorem parse_ordered_line_normal (line domain event_time : string)
    (ips : list string) :
  parse_ordered_line line = Some (domain, event_time, ips) →
  py_strip_dots (py_lower domain) = domain
  ∧ (∀ targets, is_target_domain domain targets = bool_decide (domain ∈ targets))
  ∧ py_strip event_time = event_time
  ∧ NoDup ips
  ∧ Forall (λ ip, nonempty ip = true
                  ∧ ∃ token, nonempty token = true ∧ py_strip token = token
                             ∧ ip_address token = Some ip) ips.
Proof.
  unfold parse_ordered_line. intros Hparse.
  destruct (ORDERED_LINE_RE (py_strip line)) as [[[d t] raw]|]; [|done].
  cbn [mbind option_bind] in Hparse. injection Hparse as <- <- <-.
  destruct (normal_domain (py_strip d)) as (_ & _ & Hboth).
  split_and!.
  - done.
  - intros targets. unfold is_target_domain. by rewrite Hboth.
  - apply strip_by_idemp.
  - destruct (nonempty (py_strip raw)); [|apply NoDup_nil_2].
    apply collect_ips_distinct; [apply NoDup_nil_2|]. by intros x ?%elem_of_nil.
  - destruct (nonempty (py_strip raw)); [|apply Forall_nil_2].
    apply Forall_forall. intros ip Hip.
    destruct (collect_ips_distinct (py_split "," (py_strip raw)) ∅ [])
      as [_ Hel]; [apply NoDup_nil_2|by intros x ?%elem_of_nil|].
    destruct (Hel ip Hip) as [?%elem_of_nil|(Hne & part & _ & Hn)]; [done|].
    split; [done|]. unfold normalize_ip in Hn.
    exists (py_strip part). destruct (nonempty (py_strip part)) eqn:Htok; [|done].
    split_and!; [done|apply strip_by_idemp|done].
Qed.

End normal_forms.

(** X9: when [pfctl] refuses the rules, the reason [apply_anchor_rules]
    reports is never empty and has no space at either end: it is the
    stripped error output when there is some, else the stripped output,
    else a fixed text; and the one effect is the load that was refused. *)
Theorem apply_anchor_rules_failure (cp : completed) (anchor label : string)
    (ips : gset string) :
  ips ≠ ∅ → returncode cp ≠ 0%Z →
  ∃ reason,
    apply_anchor_rules cp anchor ips label
    = (false, reason,
       [LoadAnchorRules anchor (build_anchor_rules (py_sorted ips) label)])
    ∧ nonempty reason = true ∧ py_strip reason = reason
    ∧ (nonempty (py_strip (stderr cp)) = true → reason = py_strip (stderr cp))
    ∧ (nonempty (py_strip (stderr cp)) = false →
       nonempty (py_strip (stdout cp)) = true → reason = py_strip (stdout cp))
    ∧ (nonempty (py_strip (stderr cp)) = false →
       nonempty (py_strip (stdout cp)) = false → reason = "pfctl rule load failed").
Proof.
  intros Hips Hrc. unfold apply_anchor_rules.
  rewrite bool_decide_eq_false_2, bool_decide_eq_true_2 by done.
  eexists. split; [done|]. unfold py_or.
  assert (Hfixed : py_strip "pfctl rule load failed" = "pfctl rule load failed")
    by (by vm_compute).
  destruct (nonempty (py_strip (stderr cp))) eqn:Herr;
    [|destruct (nonempty (py_strip (stdout cp))) eqn:Hout].
  - unfold py_strip in *. rewrite !strip_by_idemp. by split_and!.
  - unfold py_strip in *. rewrite !strip_by_idemp. by split_and!.
  - rewrite Hfixed. by split_and!.
Qed.
(** *** What the tailer keeps true of its records *)

Lemma deref_alter_eq (f : gset string → gset string) (h : store) (r : ref) :
  r < length h → deref (alter f r h) r = f (deref h r).
Proof.
  intros Hr. unfold deref. rewrite list_lookup_alter, decide_True by done.
  destruct (lookup_lt_is_Some_2 h r Hr) as [s ->]. done.
Qed.

Section events_facts.

Context {platform : Platform}.

Lemma initial_process_events_ok (target anchor label : string) :
  events_ok (initial_process target anchor label).
Proof.
  unfold events_ok. cbn. split_and!; (lia || done).
Qed.

Lemma consume_line_events_ok (line : string) (pos : file_position)
    (p : process) :
  events_ok p → events_ok (consume_line line pos p).
Proof.
  destruct p as [s h].
  intros (Hy & Ho & Hu & Hyo & Hyu & Hou & Hsub & Hnot & Hips & Hevs & Hseen
          & Hret & Hlen).
  cbn [state heap] in *.
  unfold consume_line. cbn [state heap].
  destruct (parse_ordered_line line) as [[[d t] ips]|] eqn:Hparse.
  2:{ unfold events_ok. cbn [state heap]. by split_and!. }
  cbn zeta. rewrite (parse_ordered_line_domain _ _ _ _ _ Hparse).
  unfold events_ok, set_add, set_update.
  cbn [with_one_more_event with_consumed_bytes with_target_event
       youtube_ips observed_domains unblocked_domains target_domains
       youtube_events youtube_dns_query_seen youtube_dns_returned
       total_dns_events].
  case_bool_decide as Htarget;
    cbn [state heap with_one_more_event with_consumed_bytes with_target_event
         youtube_ips observed_domains unblocked_domains target_domains
         youtube_events youtube_dns_query_seen youtube_dns_returned
         total_dns_events];
    rewrite ?length_alter.
  - assert (Hy' : deref (alter (λ s0, list_to_set ips ∪ s0) (youtube_ips s)
                           (alter (λ s0, {[d]} ∪ s0) (observed_domains s) h))
                    (youtube_ips s)
                  = list_to_set ips ∪ deref h (youtube_ips s)).
    { rewrite deref_alter_eq by (by rewrite length_alter).
      by rewrite deref_alter_ne. }
    assert (Ho' : deref (alter (λ s0, list_to_set ips ∪ s0) (youtube_ips s)
                           (alter (λ s0, {[d]} ∪ s0) (observed_domains s) h))
                    (observed_domains s)
                  = {[d]} ∪ deref h (observed_domains s)).
    { rewrite deref_alter_ne by done. by rewrite deref_alter_eq. }
    assert (Hu' : deref (alter (λ s0, list_to_set ips ∪ s0) (youtube_ips s)
                           (alter (λ s0, {[d]} ∪ s0) (observed_domains s) h))
                    (unblocked_domains s)
                  = deref h (unblocked_domains s)).
    { rewrite deref_alter_ne by done. by rewrite deref_alter_ne. }
    rewrite Hy', Ho', Hu'.
    split_and!; try done.
    + etrans; [exact Hsub|]. apply union_subseteq_r.
    + rewrite fmap_app, union_list_app_L, <- Hips. cbn [fmap list_fmap union_list snd foldr].
      rewrite (right_id_L ∅ (∪)). apply (comm_L (∪)).
    + apply Forall_app. split.
      * eapply Forall_impl; [exact Hevs|]. intros e [He1 He2]. split; [done|].
        by apply elem_of_union_r.
      * apply Forall_cons_2; [|apply Forall_nil_2]. cbn [fst]. split; [done|].
        by apply elem_of_union_l, elem_of_singleton.
    + split; [|done]. intros _ Hnil. by apply app_eq_nil in Hnil as [_ ?].
    + destruct ips as [|ip ips'].
      * rewrite list_to_set_nil, (left_id_L ∅ (∪)). done.
      * split; [|done]. intros _ Hempty.
        assert (ip ∈ (∅ : gset string)) as Hin; [|by apply elem_of_empty in Hin].
        rewrite <- Hempty. apply elem_of_union_l. rewrite list_to_set_cons.
        by apply elem_of_union_l, elem_of_singleton.
    + rewrite length_app. cbn [length]. lia.
  - assert (Hy' : deref (alter (λ s0, {[d]} ∪ s0) (unblocked_domains s)
                           (alter (λ s0, {[d]} ∪ s0) (observed_domains s) h))
                    (youtube_ips s)
                  = deref h (youtube_ips s)).
    { rewrite deref_alter_ne by done. by rewrite deref_alter_ne. }
    assert (Ho' : deref (alter (λ s0, {[d]} ∪ s0) (unblocked_domains s)
                           (alter (λ s0, {[d]} ∪ s0) (observed_domains s) h))
                    (observed_domains s)
                  = {[d]} ∪ deref h (observed_domains s)).
    { rewrite deref_alter_ne by done. by rewrite deref_alter_eq. }
    assert (Hu' : deref (alter (λ s0, {[d]} ∪ s0) (unblocked_domains s)
                           (alter (λ s0, {[d]} ∪ s0) (observed_domains s) h))
                    (unblocked_domains s)
                  = {[d]} ∪ deref h (unblocked_domains s)).
    { rewrite deref_alter_eq by (by rewrite length_alter).
      by rewrite deref_alter_ne. }
    rewrite Hy', Ho', Hu'.
    split_and!; try done.
    + by apply union_mono_l.
    + intros d' [->%elem_of_singleton|Hd']%elem_of_union; [done|by apply Hnot].
    + eapply Forall_impl; [exact Hevs|]. intros e [He1 He2]. split; [done|].
      by apply elem_of_union_r.
    + lia.
Qed.

Lemma read_loop_events_ok (fuel : nat) (text rest : string) (p p' : process) :
  read_loop fuel text rest p = Returned p' → events_ok p → events_ok p'.
Proof.
  revert rest p. induction fuel as [|fuel IH]; intros rest p Hrun Hok; [done|].
  cbn [read_loop] in Hrun. destruct (readline rest) as [line rest'].
  destruct (nonempty line); [|by injection Hrun as <-].
  eapply IH; [exact Hrun|]. by apply consume_line_events_ok.
Qed.

Lemma consume_new_events_events_ok (log : option string) (p p' : process) :
  consume_new_events log p = Returned p' → events_ok p → events_ok p'.
Proof.
  destruct log as [text|]; [|by intros [= <-]].
  apply read_loop_events_ok.
Qed.

Lemma converge_events_ok (pf_ready : bool) (env : poll_env) (v : main_vars) :
  events_ok (proc v) → events_ok (proc (converge pf_ready env v).1).
Proof.
  intros Hok. unfold converge.
  destruct (pf_ready && _); [|done].
  destruct (apply_anchor_rules _ _ _ _) as [[ok msg] fx].
  destruct ok; [|exact Hok].
  destruct Hok as (Hy & Ho & Hu & Hyo & Hyu & Hou & Hsub & Hnot & Hips & Hevs
                   & Hseen & Hret & Hlen).
  unfold set_copy, events_ok.
  cbn [fst proc state heap with_blocked_ips with_cumulative_blocked_packets
       youtube_ips observed_domains unblocked_domains target_domains
       youtube_events youtube_dns_query_seen youtube_dns_returned
       total_dns_events].
  rewrite length_app, !deref_app_l by done. cbn [length].
  split_and!; (lia || done).
Qed.

Lemma main_loop_events_ok (pf_ready : bool) (envs : list poll_env)
    (v v' : main_vars) (fx : list effect) :
  events_ok (proc v) → main_loop pf_ready envs v = Returned (v', fx) →
  events_ok (proc v').
Proof.
  revert v fx. induction envs as [|env envs IH]; intros v fx Hok Hrun.
  - by injection Hrun as <- _.
  - cbn [main_loop] in Hrun.
    destruct (main_iteration pf_ready env v) as [[v1 fx1]| |] eqn:Hit; [|done..].
    cbn [mbind outcome_bind] in Hrun.
    destruct (main_loop pf_ready envs v1) as [[v2 fx2]| |] eqn:Hloop; [|done..].
    cbn [mbind outcome_bind] in Hrun. injection Hrun as <- _.
    eapply IH; [|exact Hloop].
    destruct (main_iteration_unfold pf_ready env v) as (p & Hp & _ & payload & Heq).
    rewrite Heq in Hit. injection Hit as <- _.
    apply converge_events_ok. cbn [proc].
    by eapply consume_new_events_events_ok.
Qed.

(** X10: in every state the loop of [main] reaches, the records of the
    tailer agree with each other. The domains counted as not blocked were
    observed and none is a target domain; the target addresses are exactly
    the addresses of the target events kept, each of which is on a target
    domain; [youtube_dns_query_seen] tells whether a target event was kept
    and [youtube_dns_returned] whether there is a target address; and the
    enforced addresses are target addresses. *)
Theorem reachable_records_agree (pf_ready : bool) (v : main_vars) :
  reachable pf_ready v →
  let s := state (proc v) in
  let h := heap (proc v) in
  deref h (unblocked_domains s) ⊆ deref h (observed_domains s)
  ∧ (∀ d, d ∈ deref h (unblocked_domains s) → d ∉ target_domains s)
  ∧ target_ips (proc v) = ⋃ ((λ e, list_to_set e.2) <$> youtube_events s)
  ∧ Forall (λ e, e.1.1 ∈ target_domains s ∧ e.1.1 ∈ deref h (observed_domains s))
      (youtube_events s)
  ∧ (youtube_dns_query_seen s = true ↔ youtube_events s ≠ [])
  ∧ (youtube_dns_returned s = true ↔ target_ips (proc v) ≠ ∅)
  ∧ length (youtube_events s) ≤ total_dns_events s
  ∧ enforced_ips (proc v) ⊆ target_ips (proc v).
Proof.
  intros (target & anchor & label & message & envs & fx & Hrun) s h.
  assert (Hev : events_ok (proc v)).
  { eapply main_loop_events_ok; [|exact Hrun]. apply initial_process_events_ok. }
  assert (Hsync : synchronizer_ok (proc v)).
  { eapply main_loop_ok; [|exact Hrun]. apply initial_process_ok. }
  destruct Hev as (_ & _ & _ & _ & _ & _ & Hsub & Hnot & Hips & Hevs & Hseen
                   & Hret & Hlen).
  destruct Hsync as (_ & _ & _ & _ & _ & _ & _ & Henf).
  by split_and!.
Qed.

End events_facts.
(** *** The loop of main: what it does whatever the log holds *)

Section loop_facts.

Context {platform : Platform}.

Lemma consume_new_events_total (log : option string) (p : process) :
  ∃ p', consume_new_events log p = Returned p' ∧ tailed p p'.
Proof. apply consume_new_events_tailed. Qed.

(** The report an iteration writes is the snapshot of the state it
    leaves. *)
Lemma main_iteration_report (pf_ready : bool) (env : poll_env) (v : main_vars)
    (p : process) :
  consume_new_events (log_text env) (proc v) = Returned p →
  let c := converge pf_ready env (MainVars p (last_pf_message v)) in
  main_iteration pf_ready env v
  = Returned
      (c.1,
       c.2
       ++ (if pf_ready
           then [ReadBlockedPacketCount (anchor (state (proc c.1)))
                   (label (state (proc c.1)))]
           else [])
       ++ [WriteJson
             (build_snapshot (proc c.1)
                (cumulative_blocked_packets (state (proc c.1))
                 + (if pf_ready then packets_at_report env else 0))
                pf_ready (last_pf_message c.1))]).
Proof.
  intros Hp c. unfold main_iteration. rewrite Hp. cbn [mbind outcome_bind].
  subst c. by destruct (converge pf_ready env (MainVars p (last_pf_message v))).
Qed.

Lemma apply_anchor_rules_one_effect (cp : completed) (a l : string)
    (ips : gset string) :
  ∃ e, (apply_anchor_rules cp a ips l).2 = [e] ∧ is_reload e = true.
Proof.
  unfold apply_anchor_rules. repeat case_bool_decide; by eexists.
Qed.

(** What the block of the loop does, whatever the state. *)
Lemma converge_effects (pf_ready : bool) (env : poll_env) (v : main_vars) :
  let c := converge pf_ready env v in
  anchor (state (proc c.1)) = anchor (state (proc v))
  ∧ label (state (proc c.1)) = label (state (proc v))
  ∧ cumulative_blocked_packets (state (proc v))
    ≤ cumulative_blocked_packets (state (proc c.1))
  ∧ (c.2 = []
     ∨ pf_ready = true
       ∧ ∃ e, is_reload e = true
              ∧ c.2 = [ReadBlockedPacketCount (anchor (state (proc v)))
                         (label (state (proc v))); e]).
Proof.
  intros c. subst c. unfold converge.
  destruct pf_ready; [|cbn; split_and!; (lia || auto)].
  cbn [andb]. case_bool_decide; [|cbn; split_and!; (lia || auto)].
  cbn [anchor label with_cumulative_blocked_packets youtube_ips].
  destruct (apply_anchor_rules_one_effect (load_result env)
              (anchor (state (proc v))) (label (state (proc v)))
              (deref (heap (proc v)) (youtube_ips (state (proc v)))))
    as (e & Hfx & He).
  destruct (apply_anchor_rules _ _ _ _) as [[ok msg] fx]. cbn [snd] in Hfx.
  subst fx. unfold set_copy.
  destruct ok; cbn; (split_and!; [done|done|lia|]); right; split; [done| |done|];
    by exists e.
Qed.

(** X11: the loop of [main] returns for every sequence of polls. Each
    poll makes, in this order: when the rules are changed, a reading of
    the packet counter and then the change; a reading of the counter for
    the report when the filter is ready; and one report. The anchor and
    the label stay as they are and the cumulative counter never
    decreases. *)
Theorem main_loop_effects (pf_ready : bool) (envs : list poll_env)
    (v : main_vars) :
  ∃ v' blocks,
    main_loop pf_ready envs v = Returned (v', concat blocks)
    ∧ length blocks = length envs
    ∧ Forall (iteration_effects pf_ready (anchor (state (proc v)))
                (label (state (proc v)))) blocks
    ∧ anchor (state (proc v')) = anchor (state (proc v))
    ∧ label (state (proc v')) = label (state (proc v))
    ∧ cumulative_blocked_packets (state (proc v))
      ≤ cumulative_blocked_packets (state (proc v')).
Proof.
  revert v. induction envs as [|env envs IH]; intros v.
  { exists v, []. by split_and!. }
  destruct (consume_new_events_total (log_text env) (proc v)) as (p & Hp & Htail).
  pose proof (main_iteration_report pf_ready env v p Hp) as Hit. cbn zeta in Hit.
  pose proof (converge_effects pf_ready env (MainVars p (last_pf_message v)))
    as (Ha & Hl & Hc & Hfx). cbn [proc] in Ha, Hl, Hc, Hfx.
  destruct Htail as (_ & _ & _ & _ & Ea & El & _ & Ec & _).
  destruct (converge pf_ready env (MainVars p (last_pf_message v))) as [v1 fx1].
  cbn [fst snd] in *.
  destruct (IH v1) as (v' & blocks & Hloop & Hlen & Hblocks & Ha' & Hl' & Hc').
  eexists v', (_ :: blocks). cbn [main_loop]. rewrite Hit.
  cbn [mbind outcome_bind]. rewrite Hloop. cbn [mbind outcome_bind concat].
  split; [done|]. split_and!.
  - cbn [length]. by rewrite Hlen.
  - apply Forall_cons_2.
    + eexists _, _. split; [|by rewrite Ha, Hl, Ea, El].
      destruct Hfx as [->|(Hpf & e & He & ->)]; [by left|].
      right. split; [done|]. exists e. by rewrite Ea, El.
    + by rewrite <- Ea, <- El, <- Ha, <- Hl.
  - congruence.
  - congruence.
  - lia.
Qed.

(** X12: when the packet filter is not available the loop changes no
    rule and reads no counter: for every sequence of polls it returns,
    writes one report per poll and does nothing else, and every report
    shows no blocked address and no blocked packet, with the message the
    loop started with. *)
Theorem main_loop_pf_unavailable (target anchor label message : string)
    (envs : list poll_env) :
  ∃ v fx,
    main_loop false envs (MainVars (initial_process target anchor label) message)
    = Returned (v, fx)
    ∧ length fx = length envs
    ∧ Forall (λ e, ∃ payload,
                e = WriteJson payload ∧ snap_pf_ready payload = false
                ∧ snap_blocked_ips payload = []
                ∧ snap_blocked_packets_so_far payload = 0
                ∧ snap_pf_status payload = message) fx
    ∧ enforced_ips (proc v) = ∅
    ∧ cumulative_blocked_packets (state (proc v)) = 0
    ∧ last_pf_message v = message.
Proof.
  assert (Hgen : ∀ v,
    synchronizer_ok (proc v) → enforced_ips (proc v) = ∅ →
    cumulative_blocked_packets (state (proc v)) = 0 →
    ∃ v' fx,
      main_loop false envs v = Returned (v', fx)
      ∧ length fx = length envs
      ∧ Forall (λ e, ∃ payload,
                  e = WriteJson payload ∧ snap_pf_ready payload = false
                  ∧ snap_blocked_ips payload = []
                  ∧ snap_blocked_packets_so_far payload = 0
                  ∧ snap_pf_status payload = last_pf_message v) fx
      ∧ enforced_ips (proc v') = ∅
      ∧ cumulative_blocked_packets (state (proc v')) = 0
      ∧ last_pf_message v' = last_pf_message v).
  { induction envs as [|env envs IH]; intros v Hok Henf Hcum.
    { exists v, []. by split_and!. }
    destruct (consume_new_events_total (log_text env) (proc v)) as (p & Hp & Htail).
    pose proof (main_iteration_report false env v p Hp) as Hit. cbn zeta in Hit.
    rewrite converge_skipped in Hit by (by left).
    cbn [fst snd proc last_pf_message app] in Hit.
    destruct (tailed_ok _ _ Hok Htail) as (Hokp & Henfp & _).
    destruct Htail as (_ & _ & _ & _ & _ & _ & _ & Ec & _).
    destruct (IH (MainVars p (last_pf_message v)))
      as (v' & fx & Hloop & Hlen & Hfx & Henf' & Hcum' & Hmsg');
      [done|cbn [proc]; congruence|cbn [proc]; congruence|].
    cbn [last_pf_message] in Hfx, Hmsg'.
    eexists _, _. cbn [main_loop]. rewrite Hit. cbn [mbind outcome_bind].
    rewrite Hloop. cbn [mbind outcome_bind]. split; [done|].
    split_and!; [cbn [app length]; by rewrite Hlen| |done..].
    apply Forall_cons_2; [|done]. eexists. split; [done|].
    unfold build_snapshot.
    cbn [snap_pf_ready snap_blocked_ips snap_blocked_packets_so_far snap_pf_status].
    fold (enforced_ips p). rewrite Henfp, Henf, py_sorted_empty.
    split_and!; [done..| |done]. lia. }
  apply (Hgen (MainVars (initial_process target anchor label) message)).
  - apply initial_process_ok.
  - done.
  - done.
Qed.

Lemma py_sorted_nil (s : gset string) : py_sorted s = [] ↔ s = ∅.
Proof.
  split; [|intros ->; apply py_sorted_empty].
  intros Hnil. apply set_eq. intros x. rewrite <- py_sorted_elem, Hnil.
  by rewrite elem_of_nil, elem_of_empty.
Qed.

(** X13: the report that an iteration writes from a reachable state is
    consistent. Every blocked address it lists is among the target
    addresses; every domain listed as not blocked is listed as observed and
    is no target domain; the flag [youtube_dns_returned] is set exactly
    when a target address is listed and [youtube_dns_query_seen] exactly
    when a target event is; and when the filter is ready and the load of
    the rules succeeds, the blocked addresses are the target addresses. *)
Theorem report_is_consistent (pf_ready : bool) (env : poll_env)
    (v v' : main_vars) (fx : list effect) (payload : snapshot) :
  reachable pf_ready v →
  main_iteration pf_ready env v = Returned (v', fx) →
  WriteJson payload ∈ fx →
  (∀ ip, ip ∈ snap_blocked_ips payload → ip ∈ snap_youtube_ips payload)
  ∧ (∀ d, d ∈ snap_unblocked_domains payload →
          d ∈ snap_observed_domains payload ∧ d ∉ snap_target_domains payload)
  ∧ (snap_youtube_dns_returned payload = true ↔ snap_youtube_ips payload ≠ [])
  ∧ (snap_youtube_dns_query_seen payload = true
     ↔ snap_youtube_dns_events payload ≠ [])
  ∧ (pf_ready = true → returncode (load_result env) = 0%Z →
       snap_blocked_ips payload = snap_youtube_ips payload).
Proof.
  intros Hreach Hit Hin.
  destruct Hreach as (target & anchor & label & message & envs & fx0 & Hrun).
  assert (Hok : synchronizer_ok (proc v)).
  { eapply main_loop_ok; [|exact Hrun]. apply initial_process_ok. }
  assert (Hev : events_ok (proc v)).
  { eapply main_loop_events_ok; [|exact Hrun]. apply initial_process_events_ok. }
  destruct (consume_new_events_total (log_text env) (proc v)) as (p & Hp & Htail).
  pose proof (main_iteration_report pf_ready env v p Hp) as Heq. cbn zeta in Heq.
  rewrite Heq in Hit. clear Heq.
  destruct (tailed_ok _ _ Hok Htail) as (Hokp & Henfp & _).
  pose proof (consume_new_events_events_ok _ _ _ Hp Hev) as Hevp.
  pose proof (converge_ok pf_ready env (MainVars p (last_pf_message v)) Hokp) as Hok'.
  pose proof (converge_events_ok pf_ready env (MainVars p (last_pf_message v)) Hevp)
    as Hev'.
  pose proof (converge_effects pf_ready env (MainVars p (last_pf_message v)))
    as (_ & _ & _ & Hfx).
  assert (Hconv : pf_ready = true → returncode (load_result env) = 0%Z →
            enforced_ips (proc (converge pf_ready env
                                  (MainVars p (last_pf_message v))).1)
            = target_ips (proc (converge pf_ready env
                                  (MainVars p (last_pf_message v))).1)).
  { intros -> Hrc.
    destruct (decide (target_ips p = enforced_ips p)) as [Hsame|Hdiff].
    - rewrite converge_skipped by (by right). done.
    - destruct (converge_attempted env (MainVars p (last_pf_message v)) Hokp Hdiff)
        as (v1 & fx1 & -> & _ & _ & _ & Htar & Hgood & _).
      destruct (Hgood Hrc) as (_ & _ & Henf). cbn [fst]. congruence. }
  destruct (converge pf_ready env (MainVars p (last_pf_message v))) as [v1 fx1].
  cbn [fst snd proc] in *. injection Hit as <- <-.
  assert (Hpayload : payload
    = build_snapshot (proc v1)
        (cumulative_blocked_packets (state (proc v1))
         + (if pf_ready then packets_at_report env else 0))
        pf_ready (last_pf_message v1)).
  { apply elem_of_app in Hin as [Hin|Hin].
    - destruct Hfx as [->|(_ & e & He & ->)]; [by apply elem_of_nil in Hin|].
      apply elem_of_cons in Hin as [Hin|Hin]; [done|].
      apply list_elem_of_singleton in Hin. subst e. done.
    - apply elem_of_app in Hin as [Hin|Hin].
      + destruct pf_ready; [|by apply elem_of_nil in Hin].
        by apply list_elem_of_singleton in Hin.
      + apply list_elem_of_singleton in Hin. congruence. }
  subst payload. unfold build_snapshot.
  cbn [snap_blocked_ips snap_youtube_ips snap_unblocked_domains
       snap_observed_domains snap_target_domains snap_youtube_dns_returned
       snap_youtube_dns_query_seen snap_youtube_dns_events].
  destruct Hev' as (_ & _ & _ & _ & _ & _ & Hsub & Hnot & _ & _ & Hseen & Hret & _).
  destruct Hok' as (_ & _ & _ & _ & _ & _ & _ & Henf).
  split_and!.
  - intros ip. rewrite !py_sorted_elem. apply Henf.
  - intros d. rewrite !py_sorted_elem. intros Hd. split; [by apply Hsub|by apply Hnot].
  - rewrite Hret. by rewrite py_sorted_nil.
  - done.
  - intros Hpf Hrc. specialize (Hconv Hpf Hrc).
    unfold enforced_ips, target_ips in Hconv. by rewrite Hconv.
Qed.

End loop_facts.
(** *** The proxy: one exchange and the events it records *)

(** What a call of [record_event] that completes leaves. *)
Lemma record_event_fields (ts domain : string) (ips : list string)
    (m : DNSMiddleman) :
  ordered_fp (record_event ts domain ips m)
  = (λ written,
       written +:+ "[" +:+ domain +:+ "] @ [" +:+ ts +:+ "] using ["
       +:+ py_join ", " ips +:+ "]" +:+ newline) <$> ordered_fp m
  ∧ domain_times (record_event ts domain ips m)
    = <[domain := default [] (domain_times m !! domain) ++ [ts]]> (domain_times m)
  ∧ default ∅ (domain_ips (record_event ts domain ips m) !! domain)
    = list_to_set ips ∪ default ∅ (domain_ips m !! domain)
  ∧ query_count (record_event ts domain ips m) = query_count m + 1.
Proof.
  cbn [record_event ordered_fp domain_times domain_ips query_count].
  split_and!; [|done| |done].
  - destruct (ordered_fp m) as [written|]; [|done].
    cbn [fmap option_fmap option_map]. f_equal. unfold event_line.
    by rewrite !append_assoc.
  - destruct ips as [|ip ips].
    + by rewrite list_to_set_nil, (left_id_L ∅ (∪)).
    + by rewrite lookup_insert_eq.
Qed.

(** A call of [record_event] completes or raises what its write raises,
    and then the file object is there. *)
Lemma record_event_call_cases (write : option py_error) (ts domain : string)
    (ips : list string) (m : DNSMiddleman) :
  record_event_call write ts domain ips m
  = Returned (record_event ts domain ips m)
  ∨ ∃ e written,
      write = Some e ∧ ordered_fp m = Some written
      ∧ record_event_call write ts domain ips m = Raised e.
Proof.
  unfold record_event_call. destruct write as [e|]; [|by left].
  destruct (ordered_fp m) as [written|]; [|by left].
  right. by exists e, written.
Qed.

Section proxy_facts.

Context {platform : Platform}.

(** X14: one exchange of the UDP loop. The domain of the event is that
    of the query, or [unknown], and never empty. The exchange returns, or
    the write to the ordered log raises after the client was sent its
    datagram, and this is the only exception that gets out. When it
    returns: a response of the upstream resolver was relayed as it is, or
    without one the SERVFAIL built from the query, when there is one; when
    nothing was sent the middleman is as it was; when a datagram was sent,
    the line with the domain, the time and the addresses extracted from
    the datagram was added to the ordered log, the time to the history of
    the domain, the addresses to those of the domain, and the counter grew
    by one. *)
Theorem udp_iteration_relays (write : option py_error) (ts : string)
    (query : list byte) (upstream : option (list byte)) (send_ok : bool)
    (m : DNSMiddleman) :
  ∃ d,
    extract_query_domain query = Returned d ∧ nonempty (default "unknown" d) = true
    ∧ ((∃ m' sent,
          udp_iteration write ts query upstream send_ok m = Returned (m', sent)
          ∧ (∀ r, upstream = Some r → send_ok = true → sent = Some r)
          ∧ (sent = None →
               m' = m ∧ (send_ok = false ∨ upstream = None ∧ length query < 12))
          ∧ (∀ r, sent = Some r →
               send_ok = true
               ∧ (upstream = Some r
                  ∨ upstream = None ∧ make_servfail query = Some r)
               ∧ ∃ ips,
                   extract_answer_ips r = Returned ips
                   ∧ ordered_fp m'
                     = (λ written,
                          written +:+ "[" +:+ default "unknown" d +:+ "] @ ["
                          +:+ ts +:+ "] using [" +:+ py_join ", " ips +:+ "]"
                          +:+ newline) <$> ordered_fp m
                   ∧ domain_times m'
                     = <[default "unknown" d :=
                           default [] (domain_times m !! default "unknown" d)
                           ++ [ts]]> (domain_times m)
                   ∧ default ∅ (domain_ips m' !! default "unknown" d)
                     = list_to_set ips
                       ∪ default ∅ (domain_ips m !! default "unknown" d)
                   ∧ query_count m' = query_count m + 1))
       ∨ (∃ e written r,
            write = Some e ∧ ordered_fp m = Some written ∧ send_ok = true
            ∧ (upstream = Some r
               ∨ upstream = None ∧ make_servfail query = Some r)
            ∧ udp_iteration write ts query upstream send_ok m = Raised e)).
Proof.
  destruct (extract_query_domain_total query) as (d & Hd & Hne).
  exists d. split; [done|].
  assert (Hdomain : nonempty (default "unknown" d) = true).
  { destruct d as [[|c s]|]; done. }
  split; [done|].
  unfold udp_iteration. rewrite Hd. cbn [mbind outcome_bind].
  set (domain := default "unknown" d) in *.
  (* what happens once there is a response [r] to send *)
  assert (Hsend : ∀ r,
    (upstream = Some r ∨ upstream = None ∧ make_servfail query = Some r) →
    (∃ m' sent,
       (if send_ok
        then ips ← extract_answer_ips r;
             m' ← record_event_call write ts domain ips m;
             Returned (m', Some r)
        else Returned (m, None)) = Returned (m', sent)
       ∧ (send_ok = true → sent = Some r)
       ∧ (sent = None → m' = m ∧ send_ok = false)
       ∧ (∀ r', sent = Some r' →
            send_ok = true ∧ r' = r
            ∧ ∃ ips,
                extract_answer_ips r = Returned ips
                ∧ ordered_fp m'
                  = (λ written,
                       written +:+ "[" +:+ domain +:+ "] @ [" +:+ ts
                       +:+ "] using [" +:+ py_join ", " ips +:+ "]" +:+ newline)
                    <$> ordered_fp m
                ∧ domain_times m'
                  = <[domain := default [] (domain_times m !! domain) ++ [ts]]>
                      (domain_times m)
                ∧ default ∅ (domain_ips m' !! domain)
                  = list_to_set ips ∪ default ∅ (domain_ips m !! domain)
                ∧ query_count m' = query_count m + 1))
    ∨ (∃ e written,
         write = Some e ∧ ordered_fp m = Some written ∧ send_ok = true
         ∧ (if send_ok
            then ips ← extract_answer_ips r;
                 m' ← record_event_call write ts domain ips m;
                 Returned (m', Some r)
            else Returned (m, None)) = Raised e)).
  { intros r Hr. destruct send_ok.
    2:{ left. eexists _, _. split; [done|]. by split_and!. }
    destruct (extract_answer_ips_total r) as [ips Hips]. rewrite Hips.
    cbn [mbind outcome_bind].
    destruct (record_event_call_cases write ts domain ips m)
      as [Hcall|(e & written & Hw & Hfp & Hcall)]; rewrite Hcall;
      cbn [mbind outcome_bind].
    - left. eexists _, _. split; [done|]. split_and!; [done|done|].
      intros r' [= <-]. split_and!; [done..|]. exists ips.
      split; [done|]. apply record_event_fields.
    - right. by exists e, written. }
  destruct upstream as [r|].
  - destruct (Hsend r) as [(m' & sent & -> & Hok & Hnone & Hsome)
                          |(e & written & Hw & Hfp & Hs & ->)]; [by left| |].
    + left. exists m', sent. split; [done|]. split_and!.
      * intros r' [= <-]. done.
      * intros Hn. destruct (Hnone Hn). auto.
      * intros r' Hr'. destruct (Hsome r' Hr') as (? & -> & ?). split_and!; auto.
    + right. exists e, written, r. split_and!; auto.
  - destruct (decide (length query < 12)) as [Hshort|Hlong].
    + rewrite make_servfail_short by done. left. exists m, None.
      split; [done|]. split_and!; [done| |done]. auto.
    + destruct (make_servfail query) as [r|] eqn:Hmk.
      2:{ by rewrite make_servfail_long in Hmk by lia. }
      destruct (Hsend r) as [(m' & sent & -> & Hok & Hnone & Hsome)
                            |(e & written & Hw & Hfp & Hs & ->)]; [by right| |].
      * left. exists m', sent. split; [done|]. split_and!.
        -- done.
        -- intros Hn. destruct (Hnone Hn). auto.
        -- intros r' Hr'. destruct (Hsome r' Hr') as (? & -> & ?).
           split_and!; auto.
      * right. exists e, written, r. split_and!; auto.
Qed.

End proxy_facts.

Lemma log_lines_app (a b : list (string * string * list string)) :
  log_lines (a ++ b) = log_lines a +:+ log_lines b.
Proof.
  induction a as [|e a IH]; [done|]. cbn [log_lines app].
  by rewrite IH, !append_assoc.
Qed.

(** X15: after a sequence of events was recorded, the counter has grown
    by their number, the ordered log (when it is open) by their lines in
    this order, the history of every domain by the times of its events in
    this order, and the addresses of every domain by those of its events;
    a domain gets an entry in the addresses only with an address. *)
Theorem after_events_records (events : list (string * string * list string))
    (m : DNSMiddleman) :
  let m' := after_events events m in
  query_count m' = query_count m + length events
  ∧ ordered_fp m' = (λ written, written +:+ log_lines events) <$> ordered_fp m
  ∧ (∀ d, default [] (domain_times m' !! d)
          = default [] (domain_times m !! d)
            ++ ((λ e, e.1.2) <$> filter (λ e, e.1.1 = d) events))
  ∧ (∀ d, default ∅ (domain_ips m' !! d)
          = default ∅ (domain_ips m !! d)
            ∪ ⋃ ((λ e, list_to_set e.2) <$> filter (λ e, e.1.1 = d) events))
  ∧ (∀ d, domain_ips m !! d = None →
          Forall (λ e, e.1.1 = d → e.2 = []) events →
          domain_ips m' !! d = None).
Proof.
  revert m. induction events as [|[[domain ts] ips] events IH]; intros m.
  { cbn zeta. unfold after_events.
    cbn [foldl length log_lines filter list_filter fmap list_fmap union_list foldr].
    split_and!.
    - lia.
    - destruct (ordered_fp m); [|done]. cbn. by rewrite append_nil_r.
    - intros d. by rewrite app_nil_r.
    - intros d. by rewrite (right_id_L ∅ (∪)).
    - done. }
  cbn zeta. change (after_events (((domain, ts), ips) :: events) m)
    with (after_events events (record_event ts domain ips m)).
  destruct (IH (record_event ts domain ips m)) as (Hcount & Hlog & Htimes & Hips & Hnone).
  cbn [record_event query_count ordered_fp domain_times domain_ips] in *.
  split_and!.
  - rewrite Hcount. cbn [length]. lia.
  - rewrite Hlog. destruct (ordered_fp m); [|done]. cbn [fmap option_fmap option_map].
    f_equal. cbn [log_lines fst snd]. by rewrite !append_assoc.
  - intros d. rewrite Htimes. rewrite filter_cons. cbn [fst snd].
    destruct (decide (domain = d)) as [->|Hne].
    + rewrite lookup_insert_eq. cbn [default fmap list_fmap fst snd].
      by list_assoc.
    + by rewrite lookup_insert_ne.
  - intros d. rewrite Hips. rewrite filter_cons. cbn [fst snd].
    destruct (decide (domain = d)) as [->|Hne].
    + cbn [fmap list_fmap union_list snd foldr]. destruct ips as [|ip ips].
      * rewrite list_to_set_nil, (left_id_L ∅ (∪)). done.
      * rewrite lookup_insert_eq. cbn [default].
        rewrite (comm_L (∪) (list_to_set (ip :: ips))), (assoc_L (∪)). done.
    + destruct ips; [done|]. by rewrite lookup_insert_ne.
  - intros d Hd Hall. apply Forall_cons in Hall as [Hfirst Hall]. cbn [fst snd] in Hfirst.
    apply Hnone; [|done]. destruct ips as [|ip ips]; [done|].
    destruct (decide (domain = d)) as [->|Hne]; [by specialize (Hfirst eq_refl)|].
    by rewrite lookup_insert_ne.
Qed.
(** *** The tailer on the log the proxy writes *)

Lemma is_ip_char_not_line_end (c : ascii) :
  is_ip_char c = true → not_line_end c = true.
Proof.
  destruct c as [[] [] [] [] [] [] [] []]; vm_compute; intros H; done.
Qed.

Section end_to_end.

Context {platform : Platform}.

Lemma py_join_not_line_end (ips : list string) :
  Forall canonical_ip ips → all_chars not_line_end (py_join ", " ips) = true.
Proof.
  induction 1 as [|ip ips Hip Hips IH]; [done|].
  assert (Hchars : all_chars not_line_end ip = true).
  { destruct Hip as (_ & _ & Hchars).
    eapply all_chars_impl; [apply is_ip_char_not_line_end|done]. }
  destruct ips as [|ip2 ips]; [done|].
  change (py_join ", " (ip :: ip2 :: ips))
    with (ip +:+ ", " +:+ py_join ", " (ip2 :: ips)).
  by rewrite !all_chars_append, Hchars, IH.
Qed.

(** The line of a loggable event is read as one line and parsed to the
    event. *)
Lemma loggable_line (domain ts : string) (ips : list string) (rest : string) :
  loggable (domain, ts, ips) →
  readline (event_line domain ts ips +:+ newline +:+ rest)
  = (event_line domain ts ips +:+ newline, rest)
  ∧ parse_ordered_line (event_line domain ts ips +:+ newline)
    = Some (domain, ts, ips).
Proof.
  intros (Hd & Hdl & Hdn & Ht & Htl & Htn & Hips & Hnd). split.
  - apply readline_terminated. unfold event_line.
    by rewrite !all_chars_append, Hdl, Htl, py_join_not_line_end.
  - destruct (py_join_canonical ips Hips) as [Hj _].
    pose proof (ORDERED_LINE_RE_event_line domain ts (py_join ", " ips) Hd Ht Hj)
      as Hre.
    fold (event_line domain ts ips) in Hre.
    unfold parse_ordered_line. rewrite event_line_shape.
    rewrite (proj2 (py_strip_bracketed _)), <- event_line_shape, Hre.
    cbn [mbind option_bind]. by rewrite Hdn, Htn, parse_ips_canonical.
Qed.

(** What one line that parses adds to the records. *)
Lemma consume_line_parsed (line domain ts : string) (ips : list string)
    (pos : file_position) (p : process) :
  parse_ordered_line line = Some (domain, ts, ips) → events_ok p →
  let p' := consume_line line pos p in
  target_domains (state p') = target_domains (state p)
  ∧ observed_domains (state p') = observed_domains (state p)
  ∧ total_dns_events (state p') = total_dns_events (state p) + 1
  ∧ youtube_events (state p')
    = youtube_events (state p)
      ++ (if bool_decide (domain ∈ target_domains (state p))
          then [(domain, ts, ips)] else [])
  ∧ deref (heap p') (observed_domains (state p))
    = {[domain]} ∪ deref (heap p) (observed_domains (state p)).
Proof.
  intros Hparse (Hy & Ho & Hu & Hyo & Hyu & Hou & _). cbn zeta.
  unfold consume_line. rewrite Hparse. cbn zeta.
  rewrite (parse_ordered_line_domain _ _ _ _ _ Hparse).
  cbn [with_one_more_event with_consumed_bytes target_domains observed_domains
       unblocked_domains youtube_ips].
  unfold set_add, set_update.
  case_bool_decide;
    cbn [state heap with_target_event with_one_more_event with_consumed_bytes
         target_domains observed_domains total_dns_events youtube_events].
  - split_and!; [done..| |].
    + done.
    + rewrite deref_alter_ne by done. by rewrite deref_alter_eq.
  - split_and!; [done..| |].
    + by rewrite app_nil_r.
    + rewrite deref_alter_ne by done. by rewrite deref_alter_eq.
Qed.

Lemma read_loop_log_lines (events : list (string * string * list string))
    (fuel : nat) (text : string) (p : process) :
  Forall loggable events → events_ok p →
  String.length (log_lines events) < fuel →
  ∃ p',
    read_loop fuel text (log_lines events) p = Returned p'
    ∧ events_ok p'
    ∧ target_domains (state p') = target_domains (state p)
    ∧ observed_domains (state p') = observed_domains (state p)
    ∧ total_dns_events (state p') = total_dns_events (state p) + length events
    ∧ youtube_events (state p')
      = youtube_events (state p)
        ++ filter (λ e, e.1.1 ∈ target_domains (state p)) events
    ∧ deref (heap p') (observed_domains (state p))
      = deref (heap p) (observed_domains (state p))
        ∪ list_to_set ((λ e, e.1.1) <$> events).
Proof.
  intros Hall. revert fuel p.
  induction Hall as [|[[domain ts] ips] events He Hall IH]; intros fuel p Hok Hfuel.
  { destruct fuel as [|fuel]; [simpl in Hfuel; lia|]. exists p.
    cbn [read_loop log_lines readline nonempty length filter list_filter fmap
         list_fmap list_to_set foldr].
    rewrite app_nil_r, (right_id_L ∅ (∪)). split_and!; (done || lia). }
  destruct fuel as [|fuel]; [lia|].
  cbn [log_lines fst snd] in *.
  destruct (loggable_line domain ts ips (log_lines events) He) as [Hread Hparse].
  rewrite !append_length in Hfuel.
  change (String.length newline) with 1 in Hfuel.
  cbn [read_loop]. rewrite Hread.
  assert (nonempty (event_line domain ts ips +:+ newline) = true) as ->.
  { apply nonempty_append_r. done. }
  set (pos := tell text (String.length text - String.length (log_lines events))).
  set (p1 := consume_line (event_line domain ts ips +:+ newline) pos p).
  destruct (consume_line_parsed _ _ _ _ pos p Hparse Hok)
    as (Ht1 & Ho1 & Hn1 & Hev1 & Hob1).
  fold p1 in Ht1, Ho1, Hn1, Hev1, Hob1.
  assert (Hok1 : events_ok p1) by (by apply consume_line_events_ok).
  destruct (IH fuel p1 Hok1) as (p' & Hrun & Hok' & Ht' & Ho' & Hn' & Hev' & Hob');
    [lia|].
  exists p'. split; [done|]. split; [done|].
  rewrite Ht', Ho', Hn', Hev', Ht1, Hn1, Hev1. rewrite Ht1, Ho1 in *.
  rewrite Hob', Hob1.
  split_and!; [done|done|cbn [length]; lia| |].
  - rewrite filter_cons. cbn [fst]. rewrite <- app_assoc. f_equal.
    case_bool_decide; by destruct (decide _).
  - cbn [fmap list_fmap fst]. rewrite list_to_set_cons.
    rewrite (comm_L (∪) {[domain]}), <- (assoc_L (∪)). done.
Qed.

Lemma ends_with_newline_append (text more : string) :
  ends_with_newline more = true → ends_with_newline (text +:+ more) = true.
Proof.
  intros Hmore. induction text as [|c text IH]; [done|].
  rewrite append_cons. cbn [ends_with_newline].
  destruct (text +:+ more) eqn:Hrest; [|done].
  destruct text; [|done]. rewrite append_nil_l in Hrest. by rewrite Hrest in Hmore.
Qed.

Lemma log_lines_ends_with_newline
    (events : list (string * string * list string)) :
  events ≠ [] → ends_with_newline (log_lines events) = true.
Proof.
  induction events as [|[[domain ts] ips] events IH]; [done|]. intros _.
  cbn [log_lines fst snd]. apply ends_with_newline_append.
  destruct events as [|e events].
  - done.
  - apply (ends_with_newline_append newline). by apply IH.
Qed.

(** X16: the tailer reads what the proxy wrote. When the proxy has
    recorded loggable events after the text the tailer has consumed, one
    call of [consume_new_events] on the log places the cursor at its end,
    counts every event, keeps the events on target domains in the order
    they were recorded, and adds their addresses to the target addresses
    and every domain to the observed domains. The number the cursor holds
    is the length of the log when there was an event and the log is
    ASCII. *)
Theorem proxy_log_is_tailed (written : string)
    (events : list (string * string * list string))
    (m : DNSMiddleman) (p : process) :
  ordered_fp m = Some written →
  place_of (consumed_bytes (state p)) = String.length written →
  events_ok p → Forall loggable events →
  let text := written +:+ log_lines events in
  let on_target := filter (λ e, e.1.1 ∈ target_domains (state p)) events in
  ordered_fp (after_events events m) = Some text
  ∧ ∃ p',
      consume_new_events (Some text) p = Returned p'
      ∧ place_of (consumed_bytes (state p')) = String.length text
      ∧ (events ≠ [] → all_chars is_ascii text = true →
         consumed_bytes (state p') = Offset (String.length text))
      ∧ total_dns_events (state p') = total_dns_events (state p) + length events
      ∧ youtube_events (state p') = youtube_events (state p) ++ on_target
      ∧ target_ips p' = target_ips p ∪ ⋃ ((λ e, list_to_set e.2) <$> on_target)
      ∧ deref (heap p') (observed_domains (state p'))
        = deref (heap p) (observed_domains (state p))
          ∪ list_to_set ((λ e, e.1.1) <$> events)
      ∧ events_ok p'.
Proof.
  intros Hfp Hcur Hok Hall text on_target. split.
  { clear Hcur Hok Hall. subst text. revert m written Hfp.
    induction events as [|[[domain ts] ips] events IH]; intros m written Hfp.
    - cbn. by rewrite append_nil_r.
    - change (after_events (((domain, ts), ips) :: events) m)
        with (after_events events (record_event ts domain ips m)).
      rewrite (IH _ (written +:+ event_line domain ts ips +:+ newline)).
      + cbn [log_lines fst snd]. by rewrite !append_assoc.
      + cbn [record_event ordered_fp]. by rewrite Hfp. }
  unfold consume_new_events. subst text. rewrite Hcur, seek_append.
  destruct (read_loop_log_lines events
              (S (String.length (written +:+ log_lines events)))
              (written +:+ log_lines events) p Hall Hok)
    as (p' & Hrun & Hok' & Ht' & Ho' & Hn' & Hev' & Hob');
    [rewrite append_length; lia|].
  exists p'. split; [done|].
  destruct (read_loop_cursor (S (String.length (written +:+ log_lines events)))
              (written +:+ log_lines events) (log_lines events) p)
    as (p'' & Hrun' & Hcur'); [rewrite append_length; lia|].
  assert (p'' = p') as -> by congruence.
  split_and!; [| |done|done| |by rewrite Ho'|done].
  - rewrite Hcur'. destruct (nonempty (log_lines events)) eqn:Hne.
    + apply place_of_tell.
    + destruct (log_lines events); [|done]. by rewrite Hcur, append_nil_r.
  - intros Hevents Hascii. rewrite Hcur'.
    pose proof (log_lines_ends_with_newline events Hevents) as Hend.
    assert (nonempty (log_lines events) = true) as ->.
    { by destruct (log_lines events). }
    unfold tell. rewrite plain_prefix_whole; [done|done|].
    by apply ends_with_newline_append.
  - destruct Hok as (_ & _ & _ & _ & _ & _ & _ & _ & Hips & _).
    destruct Hok' as (_ & _ & _ & _ & _ & _ & _ & _ & Hips' & _).
    unfold target_ips. rewrite Hips', Hips, Hev', fmap_app, union_list_app_L. done.
Qed.

End end_to_end.
(** *** DNS over TCP: reading a message of a given length *)

Lemma recv_loop_available (fuel size : nat) (buf : list byte) (s : stream) :
  length buf ≤ size → size - length buf < fuel →
  size - length buf ≤ length (available s) →
  ∃ s',
    recv_loop fuel size buf s
    = (Received (Some (buf ++ take (size - length buf) (available s))), s')
    ∧ available s' = drop (size - length buf) (available s)
    ∧ interruption s' = interruption s.
Proof.
  revert buf s. induction fuel as [|fuel IH]; intros buf s Hbuf Hfuel Hav; [lia|].
  cbn [recv_loop]. case_bool_decide as Hless.
  2:{ exists s. replace (size - length buf) with 0 by lia.
      by rewrite take_0, app_nil_r, drop_0. }
  destruct s as [|[[|b bs]| |] s]; cbn [available length] in Hav; try lia.
  cbn [recv available interruption]. case_bool_decide as Hfit.
  - destruct (IH (buf ++ b :: bs) s) as (s' & -> & Hav' & Hint');
      [rewrite ?length_app in *; cbn [length] in *; lia..|].
    replace (size - length (buf ++ b :: bs))
      with (size - length buf - length (b :: bs)) in *
      by (rewrite length_app; lia).
    exists s'. split_and!; [|rewrite Hav'|done].
    + do 2 f_equal. rewrite <- app_assoc. f_equal.
      by rewrite take_app_ge by done.
    + by rewrite drop_app_ge by done.
  - assert (Hneed : ∃ n, size - length buf = S n) by (exists (size - length buf - 1); lia).
    destruct Hneed as [n Hn]. rewrite Hn in *. cbn [take].
    destruct (IH (buf ++ b :: take n bs) (Segment (drop (S n) (b :: bs)) :: s))
      as (s' & -> & Hav' & Hint').
    { rewrite length_app. cbn [length] in *. rewrite length_take. lia. }
    { rewrite length_app. cbn [length] in *. rewrite length_take. lia. }
    { rewrite length_app. cbn [length] in *. rewrite length_take. lia. }
    assert (Hfull : size - length (buf ++ b :: take n bs) = 0).
    { rewrite length_app. cbn [length] in *. rewrite length_take. lia. }
    rewrite Hfull, take_0, drop_0, app_nil_r in *.
    assert (Hrest : ∃ c cs, drop (S n) (b :: bs) = c :: cs).
    { destruct (drop (S n) (b :: bs)) as [|c cs] eqn:Hdrop; [|by eexists _, _].
      apply (f_equal length) in Hdrop. rewrite length_drop in Hdrop.
      cbn [length] in *. lia. }
    destruct Hrest as (c & cs & Hdrop). rewrite Hdrop in *.
    cbn [available interruption] in Hav', Hint'.
    exists s'. split_and!; [|rewrite Hav'|done].
    + do 4 f_equal. cbn [app take]. f_equal.
      rewrite take_app_le; [done|]. cbn [length] in *. lia.
    + rewrite <- Hdrop. rewrite drop_app_le; [done|]. cbn [length] in *. lia.
Qed.

Lemma recv_loop_interrupted (fuel size : nat) (buf : list byte) (s : stream) :
  length (available s) < fuel →
  length (available s) < size - length buf →
  recv_loop fuel size buf s
  = (match interruption s with
     | Timeout :: _ => SocketTimeout
     | Failure :: _ => SocketError
     | _ => Received None
     end, tail (interruption s)).
Proof.
  revert buf s. induction fuel as [|fuel IH]; intros buf s Hfuel Hav; [lia|].
  cbn [recv_loop]. rewrite bool_decide_eq_true_2 by lia.
  destruct s as [|[[|b bs]| |] s]; [done..| | |]; [|done|done].
  cbn [available interruption] in *. rewrite length_app in Hfuel, Hav.
  cbn [recv]. rewrite bool_decide_eq_true_2 by lia.
  apply IH; [cbn [length] in *; lia|].
  rewrite length_app. lia.
Qed.

(** A call that does not run out of fuel returns [size] bytes when it
    returns bytes. *)
Lemma recv_loop_length (fuel size : nat) (buf : list byte) (s : stream) :
  length buf ≤ size → size - length buf < fuel →
  (recv_loop fuel size buf s).1 ≠ Unfinished
  ∧ ∀ bs, (recv_loop fuel size buf s).1 = Received (Some bs) → length bs = size.
Proof.
  revert buf s. induction fuel as [|fuel IH]; intros buf s Hbuf Hfuel; [lia|].
  cbn [recv_loop]. case_bool_decide as Hless.
  2:{ split; [done|]. intros bs [= <-]. lia. }
  destruct s as [|[[|b bs]| |] s]; cbn [recv]; try done.
  case_bool_decide as Hfit.
  - apply IH; rewrite length_app; cbn [length] in *; lia.
  - assert (Hneed : ∃ n, size - length buf = S n) by (exists (size - length buf - 1); lia).
    destruct Hneed as [n Hn]. rewrite Hn. cbn [take].
    apply IH; rewrite length_app; cbn [length] in *; rewrite length_take; lia.
Qed.

(** X17: [recv_exact] puts a stream together again. When [size] bytes
    arrive before the stream ends or fails, it returns the first [size]
    of them, however they are cut into segments, and leaves the bytes
    after them in the stream. *)
Theorem recv_exact_reassembles (s : stream) (size : nat) :
  size ≤ length (available s) →
  ∃ s',
    recv_exact s size = (Received (Some (take size (available s))), s')
    ∧ available s' = drop size (available s)
    ∧ interruption s' = interruption s.
Proof.
  intros Hsize. unfold recv_exact.
  destruct (recv_loop_available (S size) size [] s) as (s' & Hrun & Hav & Hint);
    [cbn [length]; lia..|].
  cbn [length app] in *. rewrite Nat.sub_0_r in *. by exists s'.
Qed.

(** X18: when fewer than [size] bytes arrive before the stream ends,
    times out or fails, [recv_exact] hands over none of them: it returns
    [None] at the end of the stream, and the timeout or the failure gets
    out of it; the bytes that had arrived are gone from the stream. *)
Theorem recv_exact_interrupted (s : stream) (size : nat) :
  length (available s) < size →
  recv_exact s size
  = (match interruption s with
     | Timeout :: _ => SocketTimeout
     | Failure :: _ => SocketError
     | _ => Received None
     end, tail (interruption s)).
Proof.
  intros Hsize. unfold recv_exact. apply recv_loop_interrupted; cbn [length]; lia.
Qed.

Lemma recv_exact_length (s : stream) (size : nat) :
  (recv_exact s size).1 ≠ Unfinished
  ∧ ∀ bs, (recv_exact s size).1 = Received (Some bs) → length bs = size.
Proof. unfold recv_exact. apply recv_loop_length; cbn [length]; lia. Qed.

Lemma unpack_H_two (bs : list byte) :
  length bs = 2 → ∃ n, unpack_H bs = Returned n ∧ n < 256 * 256.
Proof.
  destruct bs as [|a [|b [|c bs]]]; try done. intros _.
  eexists. split; [done|].
  pose proof (byte_val_bounded a). pose proof (byte_val_bounded b). lia.
Qed.

(** What [forward_tcp] gives for a query that fits a length prefix. *)
Lemma forward_tcp_length (conn : option stream) (send_ok : bool)
    (query : list byte) :
  length query < 256 * 256 →
  ∃ r, forward_tcp conn send_ok query = Returned r
       ∧ ∀ response, r = Some response → length response < 256 * 256.
Proof.
  intros Hq. unfold forward_tcp. destruct conn as [upstream|]; [|by eexists].
  unfold pack_H. rewrite bool_decide_eq_true_2 by done. cbn [mbind outcome_bind].
  destruct send_ok; [|by eexists].
  pose proof (recv_exact_length upstream 2) as [Hfin Hlen].
  destruct (recv_exact upstream 2) as [[[raw|]| | |] upstream']; cbn [fst] in *;
    [|by eexists..|done].
  destruct (unpack_H_two raw) as (n & -> & Hn); [by apply Hlen|].
  cbn [mbind outcome_bind].
  pose proof (recv_exact_length upstream' n) as [Hfin' Hlen'].
  destruct (recv_exact upstream' n) as [[[response|]| | |] upstream'']; cbn [fst] in *;
    [| |by eexists..|done].
  - eexists. split; [done|]. intros r [= <-]. rewrite (Hlen' response); done.
  - by eexists.
Qed.

Section tcp_facts.

Context {platform : Platform}.

(** X19: an iteration of the loop of [handle_tcp_client] never fails to
    build a length prefix: the query has the length its own prefix gave,
    and the response is one that [forward_tcp] read by its prefix or a
    SERVFAIL as long as the query. The iteration returns, or an error of
    the socket gets out of the second read, or the write to the ordered
    log raises after the client was sent the response. When it returns
    and the client was sent something, that is the response after its
    length in two bytes, and the line with the domain of the query, the
    time and the addresses of the response was added to the ordered log,
    the time to the history of the domain, the addresses to those of the
    domain, and the counter grew by one; when the client was sent nothing
    the middleman is as it was. *)
Theorem tcp_iteration_frames (write : option py_error) (ts : string)
    (conn : stream) (upstream : option stream)
    (upstream_send_ok client_send_ok : bool) (m : DNSMiddleman) :
  (∃ c conn' m' sent,
     tcp_iteration write ts conn upstream upstream_send_ok client_send_ok m
     = Returned (c, conn', m', sent)
     ∧ (sent = None → m' = m)
     ∧ (∀ out, sent = Some out →
          c = Continue ∧ client_send_ok = true
          ∧ ∃ raw conn1 n query d response ips,
              recv_exact conn 2 = (Received (Some raw), conn1)
              ∧ unpack_H raw = Returned n
              ∧ recv_exact conn1 n = (Received (Some query), conn')
              ∧ extract_query_domain query = Returned d
              ∧ nonempty (default "unknown" d) = true
              ∧ (forward_tcp upstream upstream_send_ok query
                 = Returned (Some response)
                 ∨ forward_tcp upstream upstream_send_ok query = Returned None
                   ∧ make_servfail query = Some response)
              ∧ length response < 256 * 256
              ∧ out = u16 (length response) ++ response
              ∧ extract_answer_ips response = Returned ips
              ∧ ordered_fp m'
                = (λ written,
                     written +:+ "[" +:+ default "unknown" d +:+ "] @ ["
                     +:+ ts +:+ "] using [" +:+ py_join ", " ips +:+ "]"
                     +:+ newline) <$> ordered_fp m
              ∧ domain_times m'
                = <[default "unknown" d :=
                      default [] (domain_times m !! default "unknown" d)
                      ++ [ts]]> (domain_times m)
              ∧ default ∅ (domain_ips m' !! default "unknown" d)
                = list_to_set ips
                  ∪ default ∅ (domain_ips m !! default "unknown" d)
              ∧ query_count m' = query_count m + 1))
  ∨ (∃ raw conn1 n,
       recv_exact conn 2 = (Received (Some raw), conn1)
       ∧ unpack_H raw = Returned n
       ∧ ((recv_exact conn1 n).1 = SocketTimeout
          ∨ (recv_exact conn1 n).1 = SocketError)
       ∧ tcp_iteration write ts conn upstream upstream_send_ok client_send_ok m
         = Raised OSError)
  ∨ (∃ e written,
       write = Some e ∧ ordered_fp m = Some written ∧ client_send_ok = true
       ∧ tcp_iteration write ts conn upstream upstream_send_ok client_send_ok m
         = Raised e).
Proof.
  unfold tcp_iteration.
  pose proof (recv_exact_length conn 2) as [Hfin Hlen].
  destruct (recv_exact conn 2) as [[[raw|]| | |] conn1]; cbn [fst] in *;
    [|left; eexists _, _, _, _; by split_and!..|done].
  destruct (unpack_H_two raw) as (n & Hunpack & Hn); [by apply Hlen|].
  rewrite Hunpack. cbn [mbind outcome_bind].
  pose proof (recv_exact_length conn1 n) as [Hfin' Hlen'].
  destruct (recv_exact conn1 n) as [[[query|]| | |] conn2] eqn:Hread;
    cbn [fst] in *; [|left; eexists _, _, _, _; by split_and!| | |done].
  2,3: right; left; exists raw, conn1, n; rewrite Hread; split_and!; auto.
  specialize (Hlen' query eq_refl).
  destruct (extract_query_domain_total query) as (d & Hd & Hne).
  rewrite Hd. cbn [mbind outcome_bind].
  assert (Hdomain : nonempty (default "unknown" d) = true).
  { destruct d as [[|c s]|]; done. }
  destruct (forward_tcp_length upstream upstream_send_ok query) as (r & Hfw & Hr);
    [lia|].
  rewrite Hfw. cbn [mbind outcome_bind].
  destruct (match r with Some r0 => Some r0 | None => make_servfail query end)
    as [response|] eqn:Hresp.
  2:{ left. eexists _, _, _, _. by split_and!. }
  assert (Horigin : r = Some response ∨ r = None ∧ make_servfail query = Some response).
  { destruct r as [r0|]; [left; congruence|by right]. }
  assert (Hfits : length response < 256 * 256).
  { destruct Horigin as [->|[-> Hmk]]; [by apply Hr|].
    destruct (decide (length query < 12)) as [Hshort|Hlong].
    - by rewrite make_servfail_short in Hmk.
    - rewrite make_servfail_long in Hmk by lia. apply (inj Some) in Hmk.
      rewrite <- Hmk.
      rewrite !length_app, length_take, py_slice_length, length_replicate,
        length_drop by lia.
      cbn [length]. lia. }
  unfold pack_H. rewrite bool_decide_eq_true_2 by done. cbn [mbind outcome_bind].
  destruct client_send_ok; [|left; eexists _, _, _, _; by split_and!].
  destruct (extract_answer_ips_total response) as [ips Hips]. rewrite Hips.
  cbn [mbind outcome_bind].
  destruct (record_event_call_cases write ts (default "unknown" d) ips m)
    as [Hcall|(e & written & Hw & Hfp & Hcall)]; rewrite Hcall;
    cbn [mbind outcome_bind].
  - left. eexists _, _, _, _. split; [done|]. split; [done|].
    intros out [= <-]. split; [done|]. split; [done|].
    exists raw, conn1, n, query, d, response, ips.
    split; [done|]. split; [done|]. split; [done|]. split; [done|].
    split; [done|]. split.
    { destruct Horigin as [->|[-> Hmk]]; [by left|by right]. }
    split; [done|]. split; [done|]. split; [done|].
    apply record_event_fields.
  - right. right. exists e, written. by split_and!.
Qed.

End tcp_facts.
(** *** DNS over TCP: messages behind their length *)

(** Reading a message that stands in the stream behind its length. *)
Lemma recv_framed (s : stream) (msg extra : list byte) :
  length msg < 256 * 256 →
  available s = u16 (length msg) ++ msg ++ extra →
  ∃ s1 s2,
    recv_exact s 2 = (Received (Some (u16 (length msg))), s1)
    ∧ recv_exact s1 (length msg) = (Received (Some msg), s2)
    ∧ available s2 = extra ∧ interruption s2 = interruption s.
Proof.
  intros Hlen Hav. unfold recv_exact.
  destruct (recv_loop_available 3 2 [] s) as (s1 & Hrun1 & Hav1 & Hint1);
    [cbn [length]; lia..|rewrite Hav, length_app, u16_length; cbn [length]; lia|].
  cbn [length app] in Hrun1, Hav1. rewrite Hav in Hrun1, Hav1.
  change (2 - 0) with 2 in Hrun1, Hav1.
  change (take 2 (u16 (length msg) ++ msg ++ extra)) with (u16 (length msg)) in Hrun1.
  change (drop 2 (u16 (length msg) ++ msg ++ extra)) with (msg ++ extra) in Hav1.
  destruct (recv_loop_available (S (length msg)) (length msg) [] s1)
    as (s2 & Hrun2 & Hav2 & Hint2);
    [cbn [length]; lia..|rewrite Hav1, length_app; cbn [length]; lia|].
  cbn [length app] in Hrun2, Hav2. rewrite Nat.sub_0_r, Hav1 in Hrun2, Hav2.
  rewrite take_app_length in Hrun2. rewrite drop_app_length in Hav2.
  exists s1, s2. split_and!; [done..|congruence].
Qed.

(** X20: [forward_tcp] reads the response of the resolver by its length
    prefix: when the connection is made, the query is sent and the stream
    that comes back starts with the length of a response in two bytes and
    then the response, in whatever segments, [forward_tcp] returns that
    response and nothing of what follows it. *)
Theorem forward_tcp_reads_frame (upstream : stream)
    (query response extra : list byte) :
  length query < 256 * 256 → length response < 256 * 256 →
  available upstream = u16 (length response) ++ response ++ extra →
  forward_tcp (Some upstream) true query = Returned (Some response).
Proof.
  intros Hq Hr Hav. unfold forward_tcp, pack_H.
  rewrite bool_decide_eq_true_2 by done. cbn [mbind outcome_bind].
  destruct (recv_framed upstream response extra Hr Hav)
    as (s1 & s2 & -> & Hrun2 & _).
  rewrite unpack_H_u16 by done. cbn [mbind outcome_bind]. by rewrite Hrun2.
Qed.

Section tcp_pipeline.

Context {platform : Platform}.

(** X21: an iteration of the loop of [handle_tcp_client] takes one
    query off the stream of the client. When the stream starts with the
    length of a query in two bytes and then the query, the iteration
    returns and leaves in the stream what follows the query, for the next
    iteration; the client is sent, behind its length, the response that
    [forward_tcp] got for this query, or the SERVFAIL built from it when
    there was none, if the send goes through. *)
Theorem tcp_exchange_takes_one_query (ts : string) (conn : stream)
    (query extra : list byte) (upstream : option stream)
    (upstream_send_ok client_send_ok : bool) (m : DNSMiddleman) :
  length query < 256 * 256 →
  available conn = u16 (length query) ++ query ++ extra →
  ∃ c conn' m' sent forwarded,
    tcp_exchange ts conn upstream upstream_send_ok client_send_ok m
    = Returned (c, conn', m', sent)
    ∧ available conn' = extra ∧ interruption conn' = interruption conn
    ∧ forward_tcp upstream upstream_send_ok query = Returned forwarded
    ∧ (client_send_ok = true →
       sent = (λ r, u16 (length r) ++ r)
              <$> (match forwarded with
                   | Some r => Some r
                   | None => make_servfail query
                   end))
    ∧ (client_send_ok = false → sent = None ∧ m' = m).
Proof.
  intros Hq Hav. unfold tcp_exchange, tcp_iteration.
  destruct (recv_framed conn query extra Hq Hav)
    as (s1 & s2 & -> & Hrun2 & Hav2 & Hint2).
  rewrite unpack_H_u16 by done. cbn [mbind outcome_bind]. rewrite Hrun2.
  destruct (extract_query_domain_total query) as (d & -> & Hd).
  cbn [mbind outcome_bind].
  destruct (forward_tcp_length upstream upstream_send_ok query Hq)
    as (forwarded & Hfwd & Hlen).
  rewrite Hfwd. cbn [mbind outcome_bind].
  assert (Hresp : ∀ r,
    match forwarded with Some r => Some r | None => make_servfail query end = Some r →
    length r < 256 * 256).
  { intros r Hr. destruct forwarded as [r'|]; [apply Hlen; congruence|].
    destruct (decide (length query < 12)) as [Hshort|Hlong].
    - by rewrite make_servfail_short in Hr.
    - rewrite make_servfail_long in Hr by lia. injection Hr as <-.
      rewrite length_app, length_take. cbn [length].
      rewrite length_app, py_slice_length by lia. cbn [length].
      rewrite length_drop. lia. }
  destruct (match forwarded with Some r => Some r | None => make_servfail query end)
    as [r|] eqn:Hm.
  - unfold pack_H. rewrite bool_decide_eq_true_2 by (by apply Hresp).
    cbn [mbind outcome_bind]. destruct client_send_ok.
    + destruct (extract_answer_ips_total r) as [ips ->].
      cbn [mbind outcome_bind record_event_call].
      eexists _, _, _, _, forwarded. rewrite Hm. by split_and!.
    + eexists _, _, _, _, forwarded. by split_and!.
  - eexists _, _, _, _, forwarded. rewrite Hm. by split_and!.
Qed.

End tcp_pipeline.
(** *** The target domains *)

Lemma py_lower_append (a b : string) : py_lower (a +:+ b) = py_lower a +:+ py_lower b.
Proof. induction a as [|c a IH]; [done|]. rewrite append_cons. simpl. by rewrite IH. Qed.

(** X22: [is_target_domain] with the set of [build_target_domains]
    accepts the configured domain however it is written (case, dots
    around it), and a domain is accepted only when its normal form is the
    base or the base behind [www.]; that second form is accepted when the
    base is not empty and does not start with [www.] itself. *)
Theorem build_target_domains_accepts (target : string) :
  let base := py_strip_dots (py_lower target) in
  let targets := build_target_domains target in
  is_target_domain target targets = true
  ∧ is_target_domain base targets = true
  ∧ (∀ d, is_target_domain d targets = true →
          py_strip_dots (py_lower d) = base
          ∨ starts_with "www." base = false
            ∧ py_strip_dots (py_lower d) = "www." +:+ base)
  ∧ (nonempty base = true → starts_with "www." base = false →
       is_target_domain ("www." +:+ base) targets = true).
Proof.
  intros base targets.
  destruct (normal_domain target) as (Hlow & Hdots & Hboth). fold base in Hlow, Hdots, Hboth.
  assert (Hbase : base ∈ targets).
  { unfold targets, build_target_domains. fold base.
    destruct (negb (starts_with "www." base)).
    - by apply elem_of_union_r, elem_of_singleton.
    - by apply elem_of_singleton. }
  split_and!.
  - unfold is_target_domain. fold base. by apply bool_decide_eq_true_2.
  - unfold is_target_domain. rewrite Hboth. by apply bool_decide_eq_true_2.
  - intros d Hd. unfold is_target_domain in Hd. apply bool_decide_eq_true_1 in Hd.
    unfold targets, build_target_domains in Hd. fold base in Hd.
    destruct (starts_with "www." base).
    + left. by apply elem_of_singleton in Hd.
    + apply elem_of_union in Hd as [Hd|Hd]; apply elem_of_singleton in Hd; auto.
  - intros Hne Hwww. unfold is_target_domain. apply bool_decide_eq_true_2.
    assert (Hnorm : py_strip_dots (py_lower ("www." +:+ base)) = "www." +:+ base).
    { rewrite py_lower_append, Hlow.
      change (py_lower "www.") with "www.".
      unfold py_strip_dots, strip_by.
      change ("www." +:+ base) with (String "w" ("ww." +:+ base)).
      rewrite lstrip_by_first by done.
      change (String "w" ("ww." +:+ base)) with ("www." +:+ base).
      assert (Hr : rstrip_by is_dot base = base).
      { unfold base, py_strip_dots, strip_by. apply rstrip_by_idemp. }
      rewrite rstrip_by_append; rewrite Hr; done. }
    rewrite Hnorm. unfold targets, build_target_domains. fold base.
    rewrite Hwww. cbn [negb]. by apply elem_of_union_l, elem_of_singleton.
Qed.
(** *** The further properties on examples *)

Section further_examples.

#[local] Existing Instance example_platform.

Lemma consume_new_events_two_polls_witness :
  consume_new_events (Some ((youtube_line +:+ newline) +:+ youtube_line))
    blocker_start
  = consume_new_events (Some (youtube_line +:+ newline)) blocker_start
    ≫= consume_new_events (Some ((youtube_line +:+ newline) +:+ youtube_line)).
Proof.
  apply (consume_new_events_two_polls (youtube_line +:+ newline) youtube_line
           blocker_start).
  right. vm_compute. reflexivity.
Defined.

Lemma example_labels_ok :
  Forall label_ok (name_labels example_com)
  ∧ Forall label_ok (name_labels www_of_question_name).
Proof.
  split; repeat (apply Forall_cons_2; [unfold label_ok; cbn [length]; lia|]);
    apply Forall_nil_2.
Qed.

Lemma decode_dns_name_compressed_witness :
  decode_dns_name
    (dns_header 1 0 1 1 0 0 ++ encode_name example_com ++ [x00; x01; x00; x01]
       ++ encode_name www_of_question_name ++ [])
    (length (dns_header 1 0 1 1 0 0) + length (encode_name example_com)
     + length [x00; x01; x00; x01])
  = Returned
      (name_of_labels
         (utf8_decode_ignore
            <$> (name_labels www_of_question_name ++ name_labels example_com)),
       length (dns_header 1 0 1 1 0 0) + length (encode_name example_com)
       + length [x00; x01; x00; x01]
       + length (encode_labels (name_labels www_of_question_name)) + 2).
Proof.
  apply (decode_dns_name_compressed (dns_header 1 0 1 1 0 0) [x00; x01; x00; x01] []
           (name_labels example_com) (name_labels www_of_question_name) xc0 x0c).
  - apply example_labels_ok.
  - apply example_labels_ok.
  - vm_compute. reflexivity.
Defined.

Lemma extract_query_domain_wire_witness :
  extract_query_domain
    (dns_header (18 * 256 + 52) 256 1 0 0 0
       ++ encode_name (WireName (name_labels example_com) Root)
       ++ [x00; x01; x00; x01])
  = Returned
      (if nonempty (name_of_labels (utf8_decode_ignore <$> name_labels example_com))
       then Some (name_of_labels (utf8_decode_ignore <$> name_labels example_com))
       else None)
  ∧ ∃ response,
      make_servfail
        (dns_header (18 * 256 + 52) 256 1 0 0 0
           ++ encode_name (WireName (name_labels example_com) Root)
           ++ [x00; x01; x00; x01])
      = Some response
      ∧ extract_query_domain response
        = extract_query_domain
            (dns_header (18 * 256 + 52) 256 1 0 0 0
               ++ encode_name (WireName (name_labels example_com) Root)
               ++ [x00; x01; x00; x01]).
Proof.
  apply (extract_query_domain_wire (18 * 256 + 52) 256 1 0 0 0
           (name_labels example_com) [x00; x01; x00; x01]).
  - lia.
  - apply example_labels_ok.
Defined.

Lemma parse_ordered_line_normal_witness :
  py_strip_dots (py_lower "youtube.com") = "youtube.com"
  ∧ (∀ targets, is_target_domain "youtube.com" targets
                = bool_decide ("youtube.com" ∈ targets))
  ∧ py_strip "20240101-00:00:00" = "20240101-00:00:00"
  ∧ NoDup ["142.250.1.1"; "1.2.3.4"]
  ∧ Forall (λ ip, nonempty ip = true
                  ∧ ∃ token, nonempty token = true ∧ py_strip token = token
                             ∧ ip_address token = Some ip)
      ["142.250.1.1"; "1.2.3.4"].
Proof.
  apply (parse_ordered_line_normal
           "[YouTube.com.] @ [20240101-00:00:00] using [142.250.1.1, 1.2.3.4, 142.250.1.1]"
           "youtube.com" "20240101-00:00:00" ["142.250.1.1"; "1.2.3.4"]).
  vm_compute. reflexivity.
Defined.

Lemma apply_anchor_rules_failure_witness :
  ∃ reason,
    apply_anchor_rules (Completed 1 "" "denied ") "anchor" {["1.2.3.4"]} "label"
    = (false, reason,
       [LoadAnchorRules "anchor"
          (build_anchor_rules (py_sorted {["1.2.3.4"]}) "label")])
    ∧ nonempty reason = true ∧ py_strip reason = reason
    ∧ (nonempty (py_strip (stderr (Completed 1 "" "denied "))) = true →
       reason = py_strip (stderr (Completed 1 "" "denied ")))
    ∧ (nonempty (py_strip (stderr (Completed 1 "" "denied "))) = false →
       nonempty (py_strip (stdout (Completed 1 "" "denied "))) = true →
       reason = py_strip (stdout (Completed 1 "" "denied ")))
    ∧ (nonempty (py_strip (stderr (Completed 1 "" "denied "))) = false →
       nonempty (py_strip (stdout (Completed 1 "" "denied "))) = false →
       reason = "pfctl rule load failed").
Proof.
  apply (apply_anchor_rules_failure (Completed 1 "" "denied ") "anchor" "label"
           {["1.2.3.4"]}).
  - apply non_empty_singleton_L.
  - cbn [returncode]. lia.
Defined.

Lemma reachable_records_agree_witness :
  ∃ v fx,
    main_loop true [poll_youtube 0] blocker_vars = Returned (v, fx)
    ∧ deref (heap (proc v)) (unblocked_domains (state (proc v)))
      ⊆ deref (heap (proc v)) (observed_domains (state (proc v)))
    ∧ (∀ d, d ∈ deref (heap (proc v)) (unblocked_domains (state (proc v))) →
            d ∉ target_domains (state (proc v)))
    ∧ target_ips (proc v)
      = ⋃ ((λ e, list_to_set e.2) <$> youtube_events (state (proc v)))
    ∧ Forall (λ e, e.1.1 ∈ target_domains (state (proc v))
                   ∧ e.1.1 ∈ deref (heap (proc v))
                               (observed_domains (state (proc v))))
        (youtube_events (state (proc v)))
    ∧ (youtube_dns_query_seen (state (proc v)) = true
       ↔ youtube_events (state (proc v)) ≠ [])
    ∧ (youtube_dns_returned (state (proc v)) = true ↔ target_ips (proc v) ≠ ∅)
    ∧ length (youtube_events (state (proc v))) ≤ total_dns_events (state (proc v))
    ∧ enforced_ips (proc v) ⊆ target_ips (proc v).
Proof.
  eexists _, _. split; [vm_compute; reflexivity|].
  apply (reachable_records_agree true).
  exists "youtube.com", "anchor", "label", "pf already enabled", [poll_youtube 0].
  eexists. vm_compute. reflexivity.
Defined.

Lemma report_is_consistent_witness :
  ∃ v' fx payload,
    main_iteration true (poll_youtube 0) blocker_vars = Returned (v', fx)
    ∧ WriteJson payload ∈ fx
    ∧ (∀ ip, ip ∈ snap_blocked_ips payload → ip ∈ snap_youtube_ips payload)
    ∧ (∀ d, d ∈ snap_unblocked_domains payload →
            d ∈ snap_observed_domains payload ∧ d ∉ snap_target_domains payload)
    ∧ (snap_youtube_dns_returned payload = true ↔ snap_youtube_ips payload ≠ [])
    ∧ (snap_youtube_dns_query_seen payload = true
       ↔ snap_youtube_dns_events payload ≠ [])
    ∧ (true = true → returncode (load_result (poll_youtube 0)) = 0%Z →
         snap_blocked_ips payload = snap_youtube_ips payload).
Proof.
  eexists _, _, _. split; [vm_compute; reflexivity|].
  split; [do 3 apply list_elem_of_further; apply list_elem_of_here|].
  eapply (report_is_consistent true (poll_youtube 0) blocker_vars).
  - apply blocker_vars_reachable.
  - vm_compute. reflexivity.
  - do 3 apply list_elem_of_further. apply list_elem_of_here.
Defined.

Lemma example_events_loggable : Forall loggable example_events.
Proof.
  apply Forall_cons_2; [|apply Forall_cons_2; [|apply Forall_nil_2]].
  - unfold loggable. split_and!; [by vm_compute..| |apply NoDup_singleton].
    apply Forall_cons_2; [by vm_compute|apply Forall_nil_2].
  - unfold loggable. split_and!; [by vm_compute..|apply Forall_nil_2|apply NoDup_nil_2].
Qed.

Lemma proxy_log_is_tailed_witness :
  ordered_fp (after_events example_events started_middleman)
  = Some ("" +:+ log_lines example_events)
  ∧ ∃ p',
      consume_new_events (Some ("" +:+ log_lines example_events)) blocker_start
      = Returned p'
      ∧ place_of (consumed_bytes (state p'))
        = String.length ("" +:+ log_lines example_events)
      ∧ (example_events ≠ [] →
         all_chars is_ascii ("" +:+ log_lines example_events) = true →
         consumed_bytes (state p')
         = Offset (String.length ("" +:+ log_lines example_events)))
      ∧ total_dns_events (state p')
        = total_dns_events (state blocker_start) + length example_events
      ∧ youtube_events (state p')
        = youtube_events (state blocker_start)
          ++ filter (λ e, e.1.1 ∈ target_domains (state blocker_start))
               example_events
      ∧ target_ips p'
        = target_ips blocker_start
          ∪ ⋃ ((λ e, list_to_set e.2)
               <$> filter (λ e, e.1.1 ∈ target_domains (state blocker_start))
                     example_events)
      ∧ deref (heap p') (observed_domains (state p'))
        = deref (heap blocker_start) (observed_domains (state blocker_start))
          ∪ list_to_set ((λ e, e.1.1) <$> example_events)
      ∧ events_ok p'.
Proof.
  apply (proxy_log_is_tailed "" example_events started_middleman blocker_start).
  - reflexivity.
  - reflexivity.
  - apply initial_process_events_ok.
  - apply example_events_loggable.
Defined.

Lemma recv_exact_reassembles_witness :
  ∃ s',
    recv_exact example_upstream_stream 2
    = (Received (Some (take 2 (available example_upstream_stream))), s')
    ∧ available s' = drop 2 (available example_upstream_stream)
    ∧ interruption s' = interruption example_upstream_stream.
Proof.
  apply (recv_exact_reassembles example_upstream_stream 2).
  cbn [example_upstream_stream available app length]. lia.
Defined.

Lemma recv_exact_interrupted_witness :
  recv_exact [Segment [x00]; Timeout; Segment [x1d]] 2
  = (match interruption [Segment [x00]; Timeout; Segment [x1d]] with
     | Timeout :: _ => SocketTimeout
     | Failure :: _ => SocketError
     | _ => Received None
     end, tail (interruption [Segment [x00]; Timeout; Segment [x1d]])).
Proof.
  apply (recv_exact_interrupted [Segment [x00]; Timeout; Segment [x1d]] 2).
  cbn [available app length]. lia.
Defined.

Lemma example_query_length : length example_query < 256 * 256.
Proof. unfold example_query. cbn [length]. lia. Qed.

Lemma forward_tcp_reads_frame_witness :
  forward_tcp (Some example_upstream_stream) true example_query
  = Returned (Some [x01; x02; x03; x04]).
Proof.
  apply (forward_tcp_reads_frame example_upstream_stream example_query
           [x01; x02; x03; x04] [x05]).
  - apply example_query_length.
  - cbn [length]. lia.
  - reflexivity.
Defined.

Lemma tcp_exchange_takes_one_query_witness :
  ∃ c conn' m' sent forwarded,
    tcp_exchange "20240101-00:00:00" example_client_stream
      (Some example_upstream_stream) true true started_middleman
    = Returned (c, conn', m', sent)
    ∧ available conn' = [xff]
    ∧ interruption conn' = interruption example_client_stream
    ∧ forward_tcp (Some example_upstream_stream) true example_query
      = Returned forwarded
    ∧ (true = true →
       sent = (λ r, u16 (length r) ++ r)
              <$> (match forwarded with
                   | Some r => Some r
                   | None => make_servfail example_query
                   end))
    ∧ (true = false → sent = None ∧ m' = started_middleman).
Proof.
  apply (tcp_exchange_takes_one_query "20240101-00:00:00" example_client_stream
           example_query [xff] (Some example_upstream_stream) true true
           started_middleman).
  - apply example_query_length.
  - reflexivity.
Defined.

End further_examples.
